(** * Base Gas Estimator CLI: a shallow embedding and its verification

    The development follows the layout of the repository:
    - [JS]       the parts of the ECMAScript runtime the program calls
                 (strings, the regular expression [/\.?0+$/], IEEE-754
                 doubles, [parseFloat], [Number.prototype.toFixed], ...);
    - [Ethers]   the functions of the ethers v6 library the program calls
                 ([formatUnits], [parseEther], [isAddress]);
    - [Utils]    utils.js (the second half of src/src/price.js);
    - [Price]    price.js (the first half of src/src/price.js);
    - [Estimator] estimator.js (the second half of src/src/cli.js);
    - [Cli]      cli.js (the first half of src/src/cli.js).

    Strings are sequences of 8-bit code units (the Latin-1 range of the
    UTF-16 code units of a JavaScript string); [bigint] values are [Z].
    What a remote call answers (the JSON-RPC node, the price API) is a
    parameter of the function that makes the call.

    The embedding comes first, then the definitions the statements use,
    then the properties. *)

From Stdlib Require Import ZArith Lia Bool List String Ascii.
Import ListNotations.

Local Open Scope string_scope.
Local Open Scope Z_scope.

(* ================================================================== *)
(** * The JavaScript runtime *)
(* ================================================================== *)

Module JS.

(** ** Strings *)

Definition is_digit (c : ascii) : bool :=
  let n := Z.of_nat (nat_of_ascii c) in (48 <=? n) && (n <=? 57).

Definition is_zero_char (c : ascii) : bool := Ascii.eqb c "0"%char.

Definition is_dot (c : ascii) : bool := Ascii.eqb c "."%char.

Fixpoint forallb_str (p : ascii -> bool) (s : string) : bool :=
  match s with
  | EmptyString => true
  | String c r => p c && forallb_str p r
  end.

Fixpoint existsb_str (p : ascii -> bool) (s : string) : bool :=
  match s with
  | EmptyString => false
  | String c r => p c || existsb_str p r
  end.

Fixpoint repeat_char (c : ascii) (n : nat) : string :=
  match n with
  | O => EmptyString
  | S k => String c (repeat_char c k)
  end.

(** [s.startsWith(p)] *)
Definition startsWith (s p : string) : bool := String.prefix p s.

(** [s.includes(p)]: [p] occurs somewhere in [s]. *)
Fixpoint includes (s p : string) : bool :=
  String.prefix p s ||
  match s with
  | EmptyString => false
  | String _ r => includes r p
  end.

(** [xs.join(sep)] on an array of strings. *)
Fixpoint join (sep : string) (xs : list string) : string :=
  match xs with
  | [] => ""
  | [x] => x
  | x :: r => x ++ sep ++ join sep r
  end.

(** ** The regular expression [/\.?0+$/]

    The three pieces of the pattern are matched as the backtracking
    matcher of the language does: an optional dot (tried first with the
    dot, then without), one or more zeros, and the end of the input. *)

(** [0+$] at the start of [s]: the rest of the input is a non-empty run of
    zeros. *)
Definition match_zeros_end (s : string) : bool :=
  match s with
  | EmptyString => false
  | String _ _ => forallb_str is_zero_char s
  end.

(** [\.?0+$] at the start of [s]. *)
Definition match_trim_here (s : string) : bool :=
  match s with
  | String c r =>
      if is_dot c then match_zeros_end r || match_zeros_end s
      else match_zeros_end s
  | EmptyString => false
  end.

(** [s.replace(/\.?0+$/, '')]: the leftmost match, if any, is removed; as
    the pattern ends in [$] a match always extends to the end of [s]. *)
Fixpoint replace_trim (s : string) : string :=
  if match_trim_here s then ""
  else match s with
       | EmptyString => ""
       | String c r => String c (replace_trim r)
       end.

(** ** Decimal digits *)

Definition digit_char (d : Z) : ascii := ascii_of_nat (Z.to_nat (48 + d)).

(** The digits of [n] before those of [acc], the last one first; [fuel]
    bounds the number of digits. *)
Fixpoint digits_from (fuel : nat) (n : Z) (acc : string) : string :=
  match fuel with
  | O => acc
  | S fuel' =>
      let acc' := String (digit_char (n mod 10)) acc in
      if n <? 10 then acc' else digits_from fuel' (n / 10) acc'
  end.

(** The decimal digits of a non-negative integer, as
    [BigInt.prototype.toString] and the digit strings of
    [Number.prototype.toFixed] produce them. *)
Definition digits (n : Z) : string :=
  digits_from (S (Z.to_nat (Z.log2 n))) n "".

Definition digit_value (c : ascii) : Z := Z.of_nat (nat_of_ascii c) - 48.

(** The value of a string of decimal digits, read left to right. *)
Fixpoint digits_value_acc (acc : Z) (s : string) : Z :=
  match s with
  | EmptyString => acc
  | String c r => digits_value_acc (10 * acc + digit_value c) r
  end.

Definition digits_value (s : string) : Z := digits_value_acc 0 s.

(** The longest prefix of decimal digits, and what follows it. *)
Fixpoint span_digits (s : string) : string * string :=
  match s with
  | String c r =>
      if is_digit c then let '(d, t) := span_digits r in (String c d, t)
      else ("", s)
  | EmptyString => ("", "")
  end.

Definition strlen (s : string) : Z := Z.of_nat (String.length s).

(** [s.substring(0, n)] and [s.substring(n)] for [0 <= n]. *)
Fixpoint take_nat (n : nat) (s : string) : string :=
  match n, s with
  | S k, String c r => String c (take_nat k r)
  | _, _ => ""
  end.

Fixpoint drop_nat (n : nat) (s : string) : string :=
  match n, s with
  | S k, String _ r => drop_nat k r
  | _, _ => s
  end.

Definition take (n : Z) (s : string) : string := take_nat (Z.to_nat n) s.
Definition drop (n : Z) (s : string) : string := drop_nat (Z.to_nat n) s.

(** ** Numbers: IEEE-754 binary64

    A finite double is [Finite m e], of value [m * 2^e], in the canonical
    form of the format: [|m| < 2^53], [-1074 <= e <= 971], and
    [2^52 <= |m|] unless [e = -1074] (subnormal numbers and zero).  The
    two zeros are identified: no operation the program uses tells them
    apart ([-0 < 0] is false, and [toFixed] prints both without a sign). *)

Inductive Number : Type :=
| NaN
| Infinity (negative : bool)
| Finite (m e : Z).

Definition zero : Number := Finite 0 (-1074).

(** [floor (log2 (N / d))] for [0 < d <= N]; negative when [N < d]. *)
Definition floor_log2 (N d : Z) : Z :=
  let l := Z.log2 N - Z.log2 d in
  if N <? d * 2 ^ l then l - 1 else l.

(** The integer nearest to [n / d], ties to the even one ([0 <= n], [0 < d]). *)
Definition round_half_even (n d : Z) : Z :=
  let q := n / d in
  match 2 * (n mod d) ?= d with
  | Lt => q
  | Gt => q + 1
  | Eq => if Z.even q then q else q + 1
  end.

(** Round to nearest, ties to even, of the positive rational [n / d].
    With [N = n * 2^1074] the significand of the result is [N / (d * 2^e)]
    rounded, for the exponent [e - 1074] that leaves it 53 bits, and
    [e = 0] for a subnormal result; a significand that rounds up to [2^53]
    moves to the next exponent, and an exponent above 971 is an overflow. *)
Definition round_pos (n d : Z) : Number :=
  let N := n * 2 ^ 1074 in
  let e := Z.max (floor_log2 N d - 52) 0 in
  let m := round_half_even N (d * 2 ^ e) in
  let m' := if m =? 2 ^ 53 then 2 ^ 52 else m in
  let e' := if m =? 2 ^ 53 then e + 1 else e in
  if 2045 <? e' then Infinity false else Finite m' (e' - 1074).

Definition opp (x : Number) : Number :=
  match x with
  | NaN => NaN
  | Infinity s => Infinity (negb s)
  | Finite m e => Finite (- m) e
  end.

(** The double nearest to the rational [n / d] ([0 < d]): the Number value
    of a mathematical value. *)
Definition binary64 (n d : Z) : Number :=
  if n =? 0 then zero
  else if 0 <? n then round_pos n d
  else opp (round_pos (- n) d).

(** The double nearest to [n * 10^k]: the value of a decimal literal. *)
Definition decimal (n k : Z) : Number :=
  if 0 <=? k then binary64 (n * 10 ^ k) 1 else binary64 n (10 ^ (- k)).

(** Comparison of two finite doubles by value. *)
Definition compare_finite (m1 e1 m2 e2 : Z) : comparison :=
  let e := Z.min e1 e2 in
  (m1 * 2 ^ (e1 - e)) ?= (m2 * 2 ^ (e2 - e)).

(** [None] when one side is [NaN]: every comparison is then false. *)
Definition compare (x y : Number) : option comparison :=
  match x, y with
  | NaN, _ | _, NaN => None
  | Infinity s1, Infinity s2 =>
      Some (if Bool.eqb s1 s2 then Eq else if s1 then Lt else Gt)
  | Infinity s, Finite _ _ => Some (if s then Lt else Gt)
  | Finite _ _, Infinity s => Some (if s then Gt else Lt)
  | Finite m1 e1, Finite m2 e2 => Some (compare_finite m1 e1 m2 e2)
  end.

(** [x < y], [x <= y], [x > y], [x >= y] *)
Definition ltb (x y : Number) : bool :=
  match compare x y with Some Lt => true | _ => false end.
Definition leb (x y : Number) : bool :=
  match compare x y with Some Lt | Some Eq => true | _ => false end.
Definition gtb (x y : Number) : bool := ltb y x.
Definition geb (x y : Number) : bool := leb y x.

Definition isNaN (x : Number) : bool :=
  match x with NaN => true | _ => false end.

Definition isFinite (x : Number) : bool :=
  match x with Finite _ _ => true | _ => false end.

(** Truthiness of a number: neither zero nor [NaN]. *)
Definition truthy_number (x : Number) : bool :=
  match x with
  | NaN => false
  | Infinity _ => true
  | Finite m _ => negb (m =? 0)
  end.

(** [x * y] *)
Definition mul (x y : Number) : Number :=
  match x, y with
  | NaN, _ | _, NaN => NaN
  | Infinity s1, Infinity s2 => Infinity (xorb s1 s2)
  | Infinity s, Finite m _ | Finite m _, Infinity s =>
      if m =? 0 then NaN else Infinity (xorb s (m <? 0))
  | Finite m1 e1, Finite m2 e2 =>
      let e := e1 + e2 in
      if 0 <=? e then binary64 (m1 * m2 * 2 ^ e) 1
      else binary64 (m1 * m2) (2 ^ (- e))
  end.

(** [Number(z)] for a bigint [z]. *)
Definition of_bigint (z : Z) : Number := binary64 z 1.

(** The integer a number is, when it is one. *)
Definition to_Z (x : Number) : option Z :=
  match x with
  | Finite m e =>
      if 0 <=? e then Some (m * 2 ^ e)
      else if m mod 2 ^ (- e) =? 0 then Some (m / 2 ^ (- e)) else None
  | _ => None
  end.

(** ** [Number::toString] for a number that is at least [10^21]

    [X] is the (integer) value of the number [x].  The digits are the
    fewest that read back as [x]; of two candidates with that many digits
    the one nearer to [X] is taken, and the even one on a tie.  Such a
    number is always written in exponent notation. *)

Definition num_digits (X : Z) : Z := strlen (digits X).

Fixpoint shortest_from (fuel : nat) (k : Z) (x : Number) (X : Z) : Z :=
  match fuel with
  | O => X
  | S fuel' =>
      let p := 10 ^ (num_digits X - k) in
      let lo := (X / p) * p in
      let hi := lo + p in
      let ok (v : Z) :=
        match compare (binary64 v 1) x with Some Eq => true | _ => false end in
      match ok lo, ok hi with
      | true, true =>
          match (X - lo) ?= (hi - X) with
          | Lt => lo
          | Gt => hi
          | Eq => if Z.even (X / p) then lo else hi
          end
      | true, false => lo
      | false, true => hi
      | false, false => shortest_from fuel' (k + 1) x X
      end
  end.

(** Removing the trailing zeros of a digit string. *)
Fixpoint strip_zeros (s : string) : string :=
  match s with
  | EmptyString => ""
  | String c r =>
      match strip_zeros r with
      | EmptyString => if is_zero_char c then "" else String c ""
      | t => String c t
      end
  end.

Definition toString_exponent (x : Number) (X : Z) : string :=
  let V := shortest_from 17 1 x X in
  let ds := digits V in
  let n := strlen ds in
  match strip_zeros ds with
  | String d1 EmptyString => String d1 ("e+" ++ digits (n - 1))
  | String d1 rest => String d1 ("." ++ rest ++ "e+" ++ digits (n - 1))
  | EmptyString => "0"
  end.

(** ** [Number.prototype.toFixed]

    [round_half_up n d] is the integer [k] for which [k - n/d] is as
    close to zero as possible, the larger one when there are two. *)
Definition round_half_up (n d : Z) : Z := (2 * n + d) / (2 * d).

(** The digits of [x.toFixed(f)] for a finite [0 <= x < 10^21]. *)
Definition toFixed_digits (m e f : Z) : string :=
  let n := if 0 <=? e then m * 10 ^ f * 2 ^ e
           else round_half_up (m * 10 ^ f) (2 ^ (- e)) in
  let ds := digits n in
  if f =? 0 then ds
  else
    let k := strlen ds in
    let ds := if k <=? f then repeat_char "0"%char (Z.to_nat (f + 1 - k)) ++ ds
              else ds in
    let k := strlen ds in
    take (k - f) ds ++ "." ++ drop (k - f) ds.

(** The integer part of a finite number of non-negative value. *)
Definition int_part (m e : Z) : Z :=
  if 0 <=? e then m * 2 ^ e else m / 2 ^ (- e).

Definition toFixed (x : Number) (f : Z) : string :=
  match x with
  | NaN => "NaN"
  | Infinity s => if s then "-Infinity" else "Infinity"
  | Finite m e =>
      let s := if m <? 0 then "-" else "" in
      let m := Z.abs m in
      if geb (Finite m e) (decimal 1 21)
      then s ++ toString_exponent (Finite m e) (int_part m e)
      else s ++ toFixed_digits m e f
  end.

(** ** [parseFloat] *)

(** The strings of this development are sequences of code units below
    256.  Among these the white space and line terminators of the
    language are TAB, LF, VT, FF, CR, the space and the no-break space;
    the others (U+FEFF, U+1680, U+2000 to U+200A, U+2028, U+2029, U+202F,
    U+205F, U+3000) are code units no string here holds. *)
Definition is_whitespace (c : ascii) : bool :=
  let n := Z.of_nat (nat_of_ascii c) in
  ((9 <=? n) && (n <=? 13)) || (n =? 32) || (n =? 160).

Fixpoint trim_start (s : string) : string :=
  match s with
  | String c r => if is_whitespace c then trim_start r else s
  | EmptyString => ""
  end.

(** The exponent part [e], [E] followed by an optionally signed run of
    digits; [0] when there is none. *)
Definition parse_exponent (s : string) : Z :=
  match s with
  | String c r =>
      if Ascii.eqb c "e"%char || Ascii.eqb c "E"%char then
        match r with
        | String sg r' =>
            if Ascii.eqb sg "-"%char then
              match fst (span_digits r') with
              | EmptyString => 0
              | ds => - digits_value ds
              end
            else if Ascii.eqb sg "+"%char then digits_value (fst (span_digits r'))
            else digits_value (fst (span_digits r))
        | EmptyString => 0
        end
      else 0
  | EmptyString => 0
  end.

(** The longest prefix of [s] that is an unsigned decimal literal
    ([Infinity], [ddd], [ddd.], [ddd.ddd], [.ddd], each but the first with
    an optional exponent), as a number; [NaN] when there is none. *)
Definition parse_unsigned (s : string) : Number :=
  if String.prefix "Infinity" s then Infinity false
  else
    let '(ip, r1) := span_digits s in
    let '(fp, r2) :=
      match r1 with
      | String c r =>
          if is_dot c then
            let '(fp, r2) := span_digits r in
            match ip, fp with
            | EmptyString, EmptyString => ("", r1)
            | _, _ => (fp, r2)
            end
          else ("", r1)
      | EmptyString => ("", r1)
      end in
    match ip, fp with
    | EmptyString, EmptyString => NaN
    | _, _ => decimal (digits_value (ip ++ fp)) (parse_exponent r2 - strlen fp)
    end.

(** [parseFloat(s)] for a string [s]. *)
Definition parseFloat (s : string) : Number :=
  match trim_start s with
  | String c r =>
      if Ascii.eqb c "-"%char then opp (parse_unsigned r)
      else if Ascii.eqb c "+"%char then parse_unsigned r
      else parse_unsigned (String c r)
  | EmptyString => NaN
  end.

(** ** Values, as far as the program distinguishes them with [typeof] *)

Inductive value : Type :=
| VUndefined
| VNull
| VBoolean (b : bool)
| VNumber (x : Number)
| VBigInt (z : Z)
| VString (s : string)
| VObject.

(** [parseFloat(v)] for a string or a number [v].  A number is first
    converted to a string and that string is read back; the digits of
    [Number::toString] are chosen so that this gives the number again
    (and [+0] for [-0]). *)
Definition parseFloat_value (v : value) : Number :=
  match v with
  | VString s => parseFloat s
  | VNumber x => x
  | _ => NaN
  end.

Inductive error : Type :=
  mkError { message : string; code : option string; response_status : option Z }.

(** [new Error(msg)] *)
Definition Error (msg : string) : error := mkError msg None None.

Inductive result (A : Type) : Type :=
| Ok (a : A)
| Throw (e : error).
Arguments Ok {A} a.
Arguments Throw {A} e.

Definition bind {A B} (r : result A) (k : A -> result B) : result B :=
  match r with
  | Ok a => k a
  | Throw e => Throw e
  end.

(** ** Objects used as tables

    An object literal inherits from [Object.prototype]: a look-up with a
    key of the prototype finds a function (or, for [__proto__], the
    prototype itself), which is truthy and has none of the properties of
    the entries of the table. *)

Definition object_prototype_keys : list string :=
  [ "constructor"; "__defineGetter__"; "__defineSetter__"; "hasOwnProperty";
    "__lookupGetter__"; "__lookupSetter__"; "isPrototypeOf";
    "propertyIsEnumerable"; "toString"; "valueOf"; "__proto__";
    "toLocaleString" ].

Inductive property (A : Type) : Type :=
| Own (a : A)
| Inherited.
Arguments Own {A} a.
Arguments Inherited {A}.

Fixpoint own_property {A} (obj : list (string * A)) (key : string) : option A :=
  match obj with
  | [] => None
  | (k, a) :: r => if String.eqb k key then Some a else own_property r key
  end.

(** [obj[key]]; [None] is [undefined]. *)
Definition get_property {A} (obj : list (string * A)) (key : string)
  : option (property A) :=
  match own_property obj key with
  | Some a => Some (Own a)
  | None =>
      if existsb (String.eqb key) object_prototype_keys then Some Inherited
      else None
  end.

(** [Object.keys(obj)] *)
Definition keys {A} (obj : list (string * A)) : list string := map fst obj.

(** ** JSON values, as [JSON.parse] builds them (the keys of an object
    are distinct) *)

#[warnings="-register-all"]
Inductive json : Type :=
| JNull
| JBoolean (b : bool)
| JNumber (x : Number)
| JString (s : string)
| JArray (items : list json)
| JObject (fields : list (string * json)).

(** [v.key]; [None] is [undefined].  Only an object has the properties
    the program asks for. *)
Definition json_get (v : json) (key : string) : option json :=
  match v with
  | JObject fields => own_property fields key
  | _ => None
  end.

Definition json_truthy (v : json) : bool :=
  match v with
  | JNull => false
  | JBoolean b => b
  | JNumber x => truthy_number x
  | JString s => negb (String.eqb s "")
  | JArray _ | JObject _ => true
  end.

(** [z.toString()] for a bigint [z]. *)
Definition bigint_toString (z : Z) : string :=
  if z <? 0 then "-" ++ digits (- z) else digits z.

(** Digits grouped by three with commas, from the right. *)
Fixpoint group3 (fuel : nat) (n : Z) : string :=
  match fuel with
  | O => digits n
  | S fuel' =>
      if n <? 1000 then digits n
      else
        let r := digits (n mod 1000) in
        group3 fuel' (n / 1000) ++ ","
          ++ repeat_char "0"%char (3 - String.length r) ++ r
  end.

(** [x.toLocaleString()] in the [en-US] locale for a number that is an
    integer, as [Number(z)] is for a bigint [z]: the sign and the digits
    in groups of three.  Up to [2^53] the digits are those of the
    integer; above it they are the shortest digits that read back as
    [x], followed by zeros.  The definition is not meant for the other
    numbers: for them it gives what [toFixed(3)] prints, where the host
    rounds the shortest digits, drops the trailing zeros and has a sign
    of its own for the infinities. *)
Definition toLocaleString_en_US (x : Number) : string :=
  match to_Z x with
  | Some n =>
      let a := Z.abs n in
      let shown :=
        if a <=? 2 ^ 53 then a
        else shortest_from 17 1 (if n <? 0 then opp x else x) a in
      (if n <? 0 then "-" else "")
        ++ group3 (Z.to_nat (Z.log2 shown)) shown
  | None => toFixed x 3
  end.

End JS.

Module JSNotations.
Notation "x <- c ;; k" := (JS.bind c (fun x => k))
  (at level 61, c at next level, right associativity).
End JSNotations.
Import JSNotations.

(* ================================================================== *)
(** * The ethers library (version 6) *)
(* ================================================================== *)

(** The program calls [ethers.isAddress], [ethers.formatUnits],
    [ethers.formatEther] and [ethers.parseEther].  They are embedded here
    from the library: address/address.ts ([getAddress], [isAddress],
    [getChecksumAddress], [ibanChecksum]), utils/units.ts and
    utils/fixednumber.ts ([formatUnits], [parseUnits], [FixedNumber]), and
    Keccak-256 for the checksum. *)

Module Ethers.
Import JS.

(** ** Keccak-256 *)

Definition rotl64 (v n : Z) : Z :=
  Z.land (Z.lor (Z.shiftl v n) (Z.shiftr v (64 - n))) (Z.ones 64).

Definition lane (st : list Z) (i : Z) : Z := nth (Z.to_nat i) st 0.

Definition round_constants : list Z :=
  [ 0x0000000000000001; 0x0000000000008082; 0x800000000000808A;
    0x8000000080008000; 0x000000000000808B; 0x0000000080000001;
    0x8000000080008081; 0x8000000000008009; 0x000000000000008A;
    0x0000000000000088; 0x0000000080008009; 0x000000008000000A;
    0x000000008000808B; 0x800000000000008B; 0x8000000000008089;
    0x8000000000008003; 0x8000000000008002; 0x8000000000000080;
    0x000000000000800A; 0x800000008000000A; 0x8000000080008081;
    0x8000000000008080; 0x0000000080000001; 0x8000000080008008 ].

(** Rotation offsets, lane [(x, y)] at index [x + 5 * y]. *)
Definition rotation_offsets : list Z :=
  [ 0; 1; 62; 28; 27;  36; 44; 6; 55; 20;  3; 10; 43; 25; 39;
    41; 45; 15; 21; 8;  18; 2; 61; 56; 14 ].

Definition upto (n : nat) : list Z := map Z.of_nat (seq 0 n).

Definition theta (a : list Z) : list Z :=
  let c := map (fun x => fold_left Z.lxor
                           (map (fun y => lane a (x + 5 * y)) (upto 5)) 0)
               (upto 5) in
  let d := map (fun x => Z.lxor (lane c ((x + 4) mod 5))
                                (rotl64 (lane c ((x + 1) mod 5)) 1))
               (upto 5) in
  map (fun i => Z.lxor (lane a i) (lane d (i mod 5))) (upto 25).

(** The lane at [(X, Y)] comes from the lane at [(x, X)] with
    [x = X + 3 * Y mod 5], rotated. *)
Definition rho_pi (a : list Z) : list Z :=
  map (fun i => let src := (i mod 5 + 3 * (i / 5)) mod 5 + 5 * (i mod 5) in
                rotl64 (lane a src) (lane rotation_offsets src))
      (upto 25).

Definition chi (b : list Z) : list Z :=
  map (fun i => let x := i mod 5 in
                let y := i / 5 in
                Z.lxor (lane b i)
                  (Z.land (Z.lxor (lane b ((x + 1) mod 5 + 5 * y)) (Z.ones 64))
                          (lane b ((x + 2) mod 5 + 5 * y))))
      (upto 25).

Definition iota (rc : Z) (a : list Z) : list Z :=
  match a with
  | h :: t => Z.lxor h rc :: t
  | [] => []
  end.

Definition keccak_f (a : list Z) : list Z :=
  fold_left (fun st rc => iota rc (chi (rho_pi (theta st)))) round_constants a.

(** Eight bytes, little-endian, as a lane, and back. *)
Definition lane_of_bytes (bs : list Z) : Z :=
  fold_right (fun b acc => b + 256 * acc) 0 bs.

Definition bytes_of_lane (v : Z) : list Z :=
  map (fun i => Z.land (Z.shiftr v (8 * i)) 255) (upto 8).

Fixpoint chunks (fuel : nat) (k : nat) (bs : list Z) : list (list Z) :=
  match fuel, bs with
  | _, [] => []
  | O, _ => []
  | S fuel', _ => firstn k bs :: chunks fuel' k (skipn k bs)
  end.

(** The rate of Keccak-256 is 136 bytes; the padding is the original
    Keccak one ([0x01 ... 0x80]). *)
Definition pad (bs : list Z) : list Z :=
  let r := (136 - Z.of_nat (List.length bs) mod 136) in
  if r =? 1 then bs ++ [0x81]
  else bs ++ [0x01] ++ repeat 0 (Z.to_nat (r - 2)) ++ [0x80].

Definition absorb (st : list Z) (block : list Z) : list Z :=
  let lanes := map lane_of_bytes (chunks 17 8 block) in
  keccak_f (map (fun i => Z.lxor (lane st i) (lane lanes i)) (upto 25)).

Definition keccak256 (bs : list Z) : list Z :=
  let p := pad bs in
  let st := fold_left absorb (chunks (List.length p) 136 p) (repeat 0 25) in
  flat_map bytes_of_lane (firstn 4 st).

(** ** Addresses *)

Definition code_of (c : ascii) : Z := Z.of_nat (nat_of_ascii c).
Definition char_of (n : Z) : ascii := ascii_of_nat (Z.to_nat n).

Definition is_lower_hex (c : ascii) : bool := (97 <=? code_of c) && (code_of c <=? 102).
Definition is_upper_hex (c : ascii) : bool := (65 <=? code_of c) && (code_of c <=? 70).
Definition is_hex (c : ascii) : bool := is_digit c || is_lower_hex c || is_upper_hex c.
Definition is_upper (c : ascii) : bool := (65 <=? code_of c) && (code_of c <=? 90).
Definition is_lower (c : ascii) : bool := (97 <=? code_of c) && (code_of c <=? 122).
Definition is_alnum (c : ascii) : bool := is_digit c || is_upper c || is_lower c.

Definition to_lower (c : ascii) : ascii :=
  if is_upper c then char_of (code_of c + 32) else c.
Definition to_upper (c : ascii) : ascii :=
  if is_lower c then char_of (code_of c - 32) else c.

Fixpoint map_str (f : ascii -> ascii) (s : string) : string :=
  match s with
  | EmptyString => ""
  | String c r => String (f c) (map_str f r)
  end.

Definition toLowerCase : string -> string := map_str to_lower.
Definition toUpperCase : string -> string := map_str to_upper.

(** [/^[0-9a-fA-F]{40}$/] *)
Definition hex40 (s : string) : bool :=
  (String.length s =? 40)%nat && forallb_str is_hex s.

(** [/^(0x)?[0-9a-fA-F]{40}$/] *)
Definition match_address (s : string) : bool :=
  (String.prefix "0x" s && hex40 (drop 2 s)) || hex40 s.

(** [/([A-F].*[a-f])|([a-f].*[A-F])/]: a capital hexadecimal letter
    somewhere before a small one, or the other way round. *)
Fixpoint match_mixed_case (s : string) : bool :=
  match s with
  | EmptyString => false
  | String c r =>
      (is_upper_hex c && existsb_str is_lower_hex r)
      || (is_lower_hex c && existsb_str is_upper_hex r)
      || match_mixed_case r
  end.

Fixpoint bytes_of_string (s : string) : list Z :=
  match s with
  | EmptyString => []
  | String c r => code_of c :: bytes_of_string r
  end.

(** The nibbles of a list of bytes, the high one first. *)
Definition nibbles (bs : list Z) : list Z :=
  flat_map (fun b => [Z.shiftr b 4; Z.land b 15]) bs.

Fixpoint apply_checksum (cs : string) (ns : list Z) : string :=
  match cs, ns with
  | String c r, n :: ns' =>
      String (if 8 <=? n then to_upper c else c) (apply_checksum r ns')
  | _, _ => cs
  end.

(** [getChecksumAddress(address)] for an [address] that starts with a
    two-character prefix: the first forty characters after it are hashed,
    and a character is capitalised when its nibble of the hash is 8 or
    more. *)
Definition getChecksumAddress (address : string) : string :=
  let chars := drop 2 (toLowerCase address) in
  let hashed := keccak256 (bytes_of_string (take 40 chars)) in
  "0x" ++ apply_checksum chars (nibbles (firstn 20 hashed)).

(** [ibanLookup]: a digit is itself, a capital letter is [10 .. 35]. *)
Definition ibanLookup (c : ascii) : string :=
  if is_digit c then String c "" else digits (code_of c - 55).

Fixpoint expand_iban (s : string) : string :=
  match s with
  | EmptyString => ""
  | String c r => ibanLookup c ++ expand_iban r
  end.

(** The reduction of the expanded digits modulo 97, fifteen digits at a
    time. *)
Fixpoint iban_reduce (fuel : nat) (expanded : string) : string :=
  match fuel with
  | O => expanded
  | S fuel' =>
      if 15 <=? strlen expanded then
        iban_reduce fuel'
          (digits (digits_value (take 15 expanded) mod 97) ++ drop 15 expanded)
      else expanded
  end.

Definition ibanChecksum (address : string) : string :=
  let a := toUpperCase address in
  let a := drop 4 a ++ take 2 a ++ "00" in
  let expanded := iban_reduce (String.length (expand_iban a)) (expand_iban a) in
  let checksum := digits (98 - digits_value expanded mod 97) in
  if strlen checksum <? 2 then "0" ++ checksum else checksum.

(** [/^XE[0-9]{2}[0-9A-Za-z]{30,31}$/] *)
Definition match_icap (s : string) : bool :=
  String.prefix "XE" s
  && forallb_str is_digit (take 2 (drop 2 s)) && (strlen (take 2 (drop 2 s)) =? 2)
  && forallb_str is_alnum (drop 4 s)
  && ((strlen (drop 4 s) =? 30) || (strlen (drop 4 s) =? 31)).

(** [getAddress(address)] returns normally, for a string [address]. *)
Definition getAddress_ok (address : string) : bool :=
  if match_address address then
    let address := if String.prefix "0x" address then address
                   else "0x" ++ address in
    negb (match_mixed_case address)
    || String.eqb (getChecksumAddress address) address
  else if match_icap address then
    String.eqb (take 2 (drop 2 address)) (ibanChecksum address)
  else false.

(** [isAddress(value)]: [getAddress(value)] does not throw; it throws
    at once for a value that is not a string. *)
Definition isAddress (v : value) : bool :=
  match v with
  | VString s => getAddress_ok s
  | _ => false
  end.

(** ** Units *)

(** [checkValue] for the format [{ decimals, width: 512 }], which is
    signed: the value fits in 512 bits. *)
Definition checkValue (v : Z) : bool := (- 2 ^ 511 <=? v) && (v <? 2 ^ 511).

Definition NUMERIC_FAULT (msg : string) : error :=
  mkError msg (Some "NUMERIC_FAULT") None.

Definition INVALID_ARGUMENT (msg : string) : error :=
  mkError msg (Some "INVALID_ARGUMENT") None.

(** The decimal string of the fixed-point value [val / 10^decimals]
    ([0 < decimals]).  The library pads the digits with zeros, inserts the
    dot, and then removes the leading zeros of the whole part and the
    trailing zeros of the fraction, each down to one digit; here the
    digits are padded to [decimals + 1] of them, which leaves no leading
    zero to remove. *)
Definition fixed_toString (val decimals : Z) : string :=
  let negative := if val <? 0 then "-" else "" in
  let str := digits (Z.abs val) in
  let str := repeat_char "0"%char (Z.to_nat (decimals + 1 - strlen str)) ++ str in
  let index := strlen str - decimals in
  let frac := match strip_zeros (drop index str) with
              | EmptyString => "0"
              | t => t
              end in
  negative ++ take index str ++ "." ++ frac.

(** [formatUnits(value, decimals)] for a bigint [value]. *)
Definition formatUnits (value decimals : Z) : result string :=
  if checkValue value then Ok (fixed_toString value decimals)
  else Throw (NUMERIC_FAULT "overflow").

Definition formatEther (wei : Z) : result string := formatUnits wei 18.

(** The pattern of [FixedNumber.fromString]: an optional minus sign, a run
    of digits, an optional dot, a run of digits, and the end of the input.
    The sign, the whole digits and the fraction digits, when the string
    has that form. *)
Definition match_fixed (s : string) : option (bool * string * string) :=
  let '(neg, s1) := match s with
                    | String c r => if Ascii.eqb c "-"%char then (true, r)
                                    else (false, s)
                    | EmptyString => (false, s)
                    end in
  let '(whole, s2) := span_digits s1 in
  let s3 := match s2 with
            | String c r => if is_dot c then r else s2
            | EmptyString => s2
            end in
  let '(frac, s4) := span_digits s3 in
  match s4 with
  | EmptyString => Some (neg, whole, frac)
  | _ => None
  end.

(** [parseUnits(value, decimals)] for a string [value]. *)
Definition parseUnits (value : string) (decimals : Z) : result Z :=
  match match_fixed value with
  | Some (neg, whole, frac) =>
      if (strlen whole + strlen frac =? 0) then
        Throw (INVALID_ARGUMENT "invalid FixedNumber string value")
      else
        let frac := frac ++ repeat_char "0"%char (Z.to_nat (decimals - strlen frac)) in
        if negb (forallb_str is_zero_char (drop decimals frac)) then
          Throw (NUMERIC_FAULT "too many decimals for format")
        else
          let v := digits_value (whole ++ take decimals frac) in
          let v := if neg then - v else v in
          if checkValue v then Ok v else Throw (NUMERIC_FAULT "overflow")
  | None => Throw (INVALID_ARGUMENT "invalid FixedNumber string value")
  end.

Definition parseEther (ether : string) : result Z := parseUnits ether 18.

End Ethers.

(* ================================================================== *)
(** * utils.js *)
(* ================================================================== *)

Module Utils.
Import JS.

Record NetworkConfig : Type :=
  { name : string; rpcUrl : string; chainId : Z }.

Definition NETWORK_CONFIG : list (string * NetworkConfig) :=
  [ ("base",
     {| name := "Base Mainnet"; rpcUrl := "https://mainnet.base.org";
        chainId := 8453 |});
    ("base-sepolia",
     {| name := "Base Sepolia Testnet"; rpcUrl := "https://sepolia.base.org";
        chainId := 84532 |}) ].

(** [ethers.isAddress] does not throw, so the handler of the [try] is
    never entered. *)
Definition isValidAddress (address : value) : bool :=
  match address with
  | VString _ => Ethers.isAddress address
  | _ => false
  end.

Definition isPositiveNumber (v : value) : bool :=
  match v with
  | VString _ | VNumber _ =>
      let num := parseFloat_value v in
      negb (isNaN num) && isFinite num && gtb num (decimal 0 0)
  | _ => false
  end.

(** The result is the [rpcUrl] property of what the look-up finds:
    [undefined] for an inherited property. *)
Definition getRpcUrl (network : string) : result value :=
  match get_property NETWORK_CONFIG network with
  | Some (Own config) => Ok (VString (rpcUrl config))
  | Some Inherited => Ok VUndefined
  | None =>
      Throw (Error ("Unsupported network: " ++ network
                    ++ ". Supported networks: "
                    ++ join ", " (keys NETWORK_CONFIG)))
  end.

Definition getNetworkConfig (network : string)
  : result (property NetworkConfig) :=
  match get_property NETWORK_CONFIG network with
  | Some config => Ok config
  | None => Throw (Error ("Unsupported network: " ++ network))
  end.

(** [weiAmount] is a bigint. *)
Definition formatGweiFromWei (weiAmount : Z) : result string :=
  match Ethers.formatUnits weiAmount 9 with
  | Ok gwei =>
      let num := parseFloat gwei in
      if geb num (decimal 1000 0) then Ok (toFixed num 0)
      else if geb num (decimal 1 0) then Ok (replace_trim (toFixed num 3))
      else Ok (replace_trim (toFixed num 6))
  | Throw _ => Throw (Error "Invalid Wei amount for Gwei conversion")
  end.

Definition formatEthFromWei (weiAmount : Z) : result string :=
  match Ethers.formatEther weiAmount with
  | Ok eth =>
      let num := parseFloat eth in
      if geb num (decimal 1 0) then Ok (replace_trim (toFixed num 6))
      else if geb num (decimal 1 (-3)) then Ok (replace_trim (toFixed num 6))
      else Ok (replace_trim (toFixed num 9))
  | Throw _ => Throw (Error "Invalid Wei amount for ETH conversion")
  end.

Definition formatUsdc (usdcAmount : value) : string :=
  match usdcAmount with
  | VNumber x => if isFinite x then toFixed x 6 ++ " USDC" else "0.000000 USDC"
  | _ => "0.000000 USDC"
  end.

Definition trimDecimals (decimalStr : value) : value :=
  match decimalStr with
  | VString s => VString (replace_trim s)
  | _ => decimalStr
  end.

End Utils.

(* ================================================================== *)
(** * price.js *)
(* ================================================================== *)

Module Price.
Import JS.

(** What [axios.get] settles to: a response with its parsed body, or a
    rejection. *)
Inductive axios_outcome : Type :=
| Response (data : json)
| Rejected (e : error).

Definition code_is (e : error) (c : string) : bool :=
  match code e with
  | Some c' => String.eqb c' c
  | None => false
  end.

(** The body of the [try]. *)
Definition fetch_and_validate (http : axios_outcome) : result Number :=
  match http with
  | Rejected e => Throw e
  | Response data =>
      let ethereum := json_get data "ethereum" in
      let usd := match ethereum with
                 | Some eth => json_get eth "usd"
                 | None => None
                 end in
      let truthy (v : option json) :=
        match v with Some j => json_truthy j | None => false end in
      if negb (json_truthy data) || negb (truthy ethereum) || negb (truthy usd)
      then Throw (Error "Invalid response format from price API")
      else
        match usd with
        | Some (JNumber usdcEquivalent) =>
            if leb usdcEquivalent (decimal 0 0) || negb (isFinite usdcEquivalent)
            then Throw (Error "Invalid ETH price received from API")
            else Ok usdcEquivalent
        | _ => Throw (Error "Invalid ETH price received from API")
        end
  end.

Definition getEthUsdPrice (http : axios_outcome) : result Number :=
  match fetch_and_validate http with
  | Ok price => Ok price
  | Throw error =>
      if code_is error "ECONNABORTED" then
        Throw (Error "Price API request timed out. Please try again.")
      else if code_is error "ENOTFOUND" || code_is error "ECONNREFUSED" then
        Throw (Error "Unable to connect to price API. Please check your internet connection.")
      else
        match response_status error with
        | Some status =>
            if status =? 429 then
              Throw (Error "Price API rate limit exceeded. Please try again later.")
            else if 500 <=? status then
              Throw (Error "Price API server error. Please try again later.")
            else
              Throw (Error ("Price API error (" ++ bigint_toString status
                            ++ "). Please try again later."))
        | None =>
            if includes (message error) "Invalid" then Throw error
            else Throw (Error "Failed to fetch ETH price. Please try again later.")
        end
  end.

End Price.

(* ================================================================== *)
(** * estimator.js *)
(* ================================================================== *)

Module Estimator.
Import JS.

Record FeeData : Type :=
  { gasPrice : option Z; maxFeePerGas : option Z; maxPriorityFeePerGas : option Z }.

Record Transaction : Type :=
  { tx_to : string; tx_value : Z; tx_data : string }.

(** The node behind an RPC URL: what its two calls settle to. *)
Record Provider : Type :=
  { getFeeData : result FeeData; estimateGas : Transaction -> result Z }.

Record EstimationResult : Type :=
  { gasUnits : Number; gasPriceWei : Z; totalWei : Z;
    gasText : string; totalText : string }.

(** [a || b] on two values that are [null] or a bigint: [0n] is falsy. *)
Definition or_else (a b : option Z) : option Z :=
  match a with
  | Some z => if z =? 0 then b else a
  | None => b
  end.

(** [/^0x[a-fA-F0-9]{40}$/] *)
Definition match_recipient (s : string) : bool :=
  String.prefix "0x" s && Ethers.hex40 (drop 2 s).

Section WithNetwork.

(** [new ethers.JsonRpcProvider(rpcUrl)] *)
Variable JsonRpcProvider : value -> Provider.

(** The body of the outer [try]. *)
Definition estimate (to : value) (valueEth : string) (rpcUrl : value)
  : result EstimationResult :=
  match to with
  | VString to_s =>
      if String.eqb to_s "" then Throw (Error "Invalid recipient address")
      else if negb (match_recipient to_s)
      then Throw (Error "Invalid recipient address")
      else
        match Ethers.parseEther valueEth with
        | Throw _ => Throw (Error "Invalid ETH value")
        | Ok weiValue =>
            if weiValue <? 0 then Throw (Error "ETH value cannot be negative")
            else
              let provider := JsonRpcProvider rpcUrl in
              let transaction :=
                {| tx_to := to_s; tx_value := weiValue; tx_data := "0x" |} in
              feeData <- getFeeData provider ;;
              gasLimit <- estimateGas provider transaction ;;
              match or_else (maxFeePerGas feeData) (gasPrice feeData) with
              | None => Throw (Error "Unable to fetch gas price from network")
              | Some gasPrice =>
                  if gasPrice =? 0
                  then Throw (Error "Unable to fetch gas price from network")
                  else
                    let totalWei := gasLimit * gasPrice in
                    gwei <- Utils.formatGweiFromWei gasPrice ;;
                    totalText <- Utils.formatEthFromWei totalWei ;;
                    Ok {| gasUnits := of_bigint gasLimit;
                          gasPriceWei := gasPrice;
                          totalWei := totalWei;
                          gasText := gwei ++ " Gwei ("
                                     ++ bigint_toString gasPrice ++ " wei)";
                          totalText := totalText |}
              end
        end
  | _ => Throw (Error "Invalid recipient address")
  end.

Definition estimateEthTransfer (to : value) (valueEth : string) (rpcUrl : value)
  : result EstimationResult :=
  match estimate to valueEth rpcUrl with
  | Ok r => Ok r
  | Throw error =>
      if includes (message error) "insufficient funds" then
        Throw (Error "Insufficient funds for gas estimation")
      else if includes (message error) "invalid address" then
        Throw (Error "Invalid recipient address")
      else if includes (message error) "network" then
        Throw (Error "Network connection failed. Please check your internet connection.")
      else if Price.code_is error "NETWORK_ERROR" then
        Throw (Error "Unable to connect to Base network. Please try again later.")
      else Throw error
  end.

End WithNetwork.

End Estimator.

(* ================================================================== *)
(** * cli.js *)
(* ================================================================== *)

Module Cli.
Import JS.

(** The options of the [transfer] command, as the argument parser hands
    them over: strings. *)
Record Options : Type :=
  { to : string; value : string; network : string }.

(** What a run of the command leaves behind: the lines written to the two
    streams and the exit code of the process. *)
Record Outcome : Type :=
  { stdout : list string; stderr : list string; exitCode : Z }.

(** The world the command runs in: the node behind each RPC URL, what the
    request to the price API settles to, which of the two promises given
    to [Promise.all] settles first, and the locale of the host. *)
Record Host : Type :=
  { JsonRpcProvider : JS.value -> Estimator.Provider;
    http_get : Price.axios_outcome;
    price_settles_first : bool;
    toLocaleString : Number -> string }.

Definition displayResults (host : Host) (estimation : Estimator.EstimationResult)
  (ethPrice : Number) : list string :=
  let totalUsdc :=
    toFixed (mul (parseFloat (Estimator.totalText estimation)) ethPrice) 6 in
  [ "Gas Units: " ++ toLocaleString host (Estimator.gasUnits estimation);
    "Gas Price: " ++ Estimator.gasText estimation;
    "Total Cost: " ++ Estimator.totalText estimation
      ++ " ETH (~" ++ totalUsdc ++ " USDC)" ].

(** [Promise.all] of two promises: both values, or the reason of the one
    that rejects first. *)
Definition promise_all {A B} (first_settles_first : bool)
  (a : result A) (b : result B) : result (A * B) :=
  match a, b with
  | Ok x, Ok y => Ok (x, y)
  | Throw e, Ok _ => Throw e
  | Ok _, Throw e => Throw e
  | Throw e1, Throw e2 => Throw (if first_settles_first then e1 else e2)
  end.

Definition exit1 (lines : list string) : Outcome :=
  {| stdout := []; stderr := lines; exitCode := 1 |}.

Definition validNetworks : list string := ["base"; "base-sepolia"].

Definition double_quote : ascii := ascii_of_nat 34.

Definition handleTransfer (host : Host) (options : Options) : Outcome :=
  if negb (Utils.isValidAddress (VString (to options))) then
    exit1 [ "Error: Invalid recipient address";
            "Please provide a valid Ethereum address (0x... format)" ]
  else if negb (Utils.isPositiveNumber (VString (value options))) then
    exit1 [ "Error: Invalid ETH value";
            "Please provide a positive number (e.g., 0.1, 1.5)" ]
  else if negb (existsb (String.eqb (network options)) validNetworks) then
    exit1 [ "Error: Invalid network " ++ String double_quote (network options)
              ++ String double_quote "";
            "Supported networks: " ++ join ", " validNetworks ]
  else
    let settled :=
      rpcUrl <- Utils.getRpcUrl (network options) ;;
      promise_all (price_settles_first host)
        (Price.getEthUsdPrice (http_get host))
        (Estimator.estimateEthTransfer (JsonRpcProvider host)
           (VString (to options)) (value options) rpcUrl) in
    match settled with
    | Ok (ethPrice, estimation) =>
        {| stdout := displayResults host estimation ethPrice;
           stderr := [];
           exitCode := 0 |}
    | Throw error => exit1 [ "Error: " ++ message error ]
    end.

End Cli.

(* ================================================================== *)
(** * Definitions used in the statements *)
(* ================================================================== *)

Import JS.

(** The exponent [round_pos] works at. *)
Definition exponent (N d : Z) : Z := Z.max (floor_log2 N d - 52) 0.

Definition significand (N d : Z) : Z :=
  round_half_even N (d * 2 ^ exponent N d).

(** The value of a finite double, times [2^1074]. *)
Definition scaled_value (m e : Z) : Z := m * 2 ^ (e + 1074).

(** The double nearest to [n / d], times [2^1074] ([0 <= n], [0 < d]). *)
Definition nearest (n d : Z) : Z :=
  if n =? 0 then 0
  else significand (n * 2 ^ 1074) d * 2 ^ exponent (n * 2 ^ 1074) d.

(** The [f] low-order decimal digits of [n], with their leading zeros. *)
Fixpoint frac_digits (f : nat) (n : Z) : string :=
  match f with
  | O => ""
  | S k => frac_digits k (n / 10) ++ String (digit_char (n mod 10)) ""
  end.

(** The integer [toFixed] prints: the one nearest to [m * 2^e * 10^f], the
    larger one on a tie. *)
Definition toFixed_integer (m e f : Z) : Z :=
  if 0 <=? e then m * 10 ^ f * 2 ^ e
  else round_half_up (m * 10 ^ f) (2 ^ (- e)).

(** The fraction of a decimal string once trimmed: nothing when it was all
    zeros, and otherwise the dot and the digits up to the last non-zero
    one. *)
Definition trimmed_fraction (fp : string) : string :=
  match strip_zeros fp with
  | EmptyString => ""
  | t => "." ++ t
  end.

Definition starts_with_digit (s : string) : bool :=
  match s with
  | String c _ => is_digit c
  | EmptyString => false
  end.

(** A string without its last character when that is a dot. *)
Fixpoint chop_dot (s : string) : string :=
  match s with
  | EmptyString => ""
  | String c EmptyString => if is_dot c then "" else s
  | String c r => String c (chop_dot r)
  end.

(** The decimal string of [x] with up to [k] decimal places: the integer
    nearest to [x * 10^k] (the larger one on a tie) is written with its
    last [k] digits as the fraction, and the fraction loses its trailing
    zeros, and the dot when nothing is left of it. *)
Definition render_decimal (x : Number) (k : Z) : string :=
  match x with
  | Finite m e =>
      let N := toFixed_integer m e k in
      digits (N / 10 ^ k) ++ trimmed_fraction (frac_digits (Z.to_nat k) N)
  | _ => ""
  end.

(** The quotients below [10^21 - 65536], the middle of [10^21] and the
    double before it, round to a double below [10^21]. *)
Definition fixed_limit : Z := 10 ^ 21 - 65536.

(** What the validator computes on a number. *)
Definition positive_finite (x : Number) : bool :=
  match x with
  | Finite m _ => 0 <? m
  | _ => false
  end.

(** The part of a string [parseFloat] reads a literal from: what follows
    the leading white space and an optional sign. *)
Definition unsigned_part (s : string) : string :=
  match trim_start s with
  | String c r =>
      if Ascii.eqb c "-"%char || Ascii.eqb c "+"%char then r else String c r
  | EmptyString => ""
  end.

(** A decimal literal starts with a digit, or with a dot and a digit. *)
Definition numeric_start (s : string) : bool :=
  match s with
  | String c r => is_digit c || (is_dot c && starts_with_digit r)
  | EmptyString => false
  end.

Definition no_nonzero_digit (c : ascii) : bool :=
  negb (is_digit c) || is_zero_char c.

(** The casing of forty hexadecimal digits is acceptable: the letters are
    all small, or all capital, or capital where the checksum says. *)
Definition casing_ok (h : string) : Prop :=
  existsb_str Ethers.is_upper_hex h = false
  \/ existsb_str Ethers.is_lower_hex h = false
  \/ Ethers.getChecksumAddress ("0x" ++ h) = "0x" ++ h.

Definition hex_digits_40 (h : string) : Prop :=
  String.length h = 40%nat /\ forallb_str Ethers.is_hex h = true.

(** An ICAP address: [XE], two check digits, thirty or thirty-one
    alphanumeric characters, and the check digits are those of the rest. *)
Definition icap_ok (s : string) : Prop :=
  exists (c1 c2 : ascii) (b : string),
    s = String "X" (String "E" (String c1 (String c2 b)))
    /\ is_digit c1 = true /\ is_digit c2 = true
    /\ forallb_str Ethers.is_alnum b = true
    /\ (String.length b = 30%nat \/ String.length b = 31%nat)
    /\ Ethers.ibanChecksum s = String c1 (String c2 "").

(** A node whose gas estimate does not fit the 53 bits of a double. *)
Definition huge_estimate_node : value -> Estimator.Provider :=
  fun _ =>
    {| Estimator.getFeeData :=
         Ok {| Estimator.gasPrice := Some 1;
               Estimator.maxFeePerGas := None;
               Estimator.maxPriorityFeePerGas := None |};
       Estimator.estimateGas := fun _ => Ok (2 ^ 53 + 1) |}.

(** A node that answers as the Base mainnet does for a plain transfer. *)
Definition sample_node : value -> Estimator.Provider :=
  fun _ =>
    {| Estimator.getFeeData :=
         Ok {| Estimator.gasPrice := Some 1897000;
               Estimator.maxFeePerGas := Some 1897000;
               Estimator.maxPriorityFeePerGas := Some 1000 |};
       Estimator.estimateGas := fun _ => Ok 21000 |}.

Definition sample_result : Estimator.EstimationResult :=
  {| Estimator.gasUnits := of_bigint 21000;
     Estimator.gasPriceWei := 1897000;
     Estimator.totalWei := 39837000000;
     Estimator.gasText := "0.001897 Gwei (1897000 wei)";
     Estimator.totalText := "0.00000004" |}.

(** A run of the command against a node that answers and a price API whose
    request times out. *)
Definition timeout_host : Cli.Host :=
  {| Cli.JsonRpcProvider := fun _ =>
       {| Estimator.getFeeData :=
            Ok {| Estimator.gasPrice := Some 1897000;
                  Estimator.maxFeePerGas := Some 1897000;
                  Estimator.maxPriorityFeePerGas := Some 1000 |};
          Estimator.estimateGas := fun _ => Ok 21000 |};
     Cli.http_get :=
       Price.Rejected (mkError "timeout of 5000ms exceeded" (Some "ECONNABORTED") None);
     Cli.price_settles_first := false;
     Cli.toLocaleString := toLocaleString_en_US |}.

Definition sample_options : Cli.Options :=
  {| Cli.to := "0xd8dA6BF26964aF9D7eEd9e03E53415D37aA96045";
     Cli.value := "0.1";
     Cli.network := "base" |}.

(** A node whose [eth_estimateGas] call fails. *)
Definition failing_estimate_node : value -> Estimator.Provider :=
  fun _ =>
    {| Estimator.getFeeData :=
         Ok {| Estimator.gasPrice := Some 1897000;
               Estimator.maxFeePerGas := Some 1897000;
               Estimator.maxPriorityFeePerGas := Some 1000 |};
       Estimator.estimateGas := fun _ => Throw (Error "execution reverted") |}.

(** A node that reports no usable gas price. *)
Definition no_fee_node : value -> Estimator.Provider :=
  fun _ =>
    {| Estimator.getFeeData :=
         Ok {| Estimator.gasPrice := Some 0;
               Estimator.maxFeePerGas := None;
               Estimator.maxPriorityFeePerGas := None |};
       Estimator.estimateGas := fun _ => Ok 21000 |}.

(** A price API that answers with a price of 3450.25. *)
Definition sample_price_response : Price.axios_outcome :=
  Price.Response
    (JObject [("ethereum", JObject [("usd", JNumber (decimal 345025 (-2)))])]).

(** A run of the command against a node and a price API that answer. *)
Definition sample_host : Cli.Host :=
  {| Cli.JsonRpcProvider := sample_node;
     Cli.http_get := sample_price_response;
     Cli.price_settles_first := true;
     Cli.toLocaleString := toLocaleString_en_US |}.

(** The [usd] field of the [ethereum] field of a body. *)
Definition usd_field (data : json) : option json :=
  match json_get data "ethereum" with
  | Some ethereum => json_get ethereum "usd"
  | None => None
  end.

(** The characters of the strings the unit parser of the library accepts:
    digits, the dot and the minus sign. *)
Definition plain_decimal_char (c : ascii) : bool :=
  is_digit c || is_dot c || Ascii.eqb c "-"%char.

(** The decimal expansion of [t / 10^k], without trailing zeros in the
    fraction and without a dot when the fraction is zero. *)
Definition decimal_string (t k : Z) : string :=
  digits (t / 10 ^ k) ++ trimmed_fraction (frac_digits (Z.to_nat k) t).

(** A decimal numeral: the digits [ip], and a dot and the digits [fp]
    when there are any. *)
Definition decimal_numeral (ip fp : string) : string :=
  ip ++ match fp with
        | EmptyString => ""
        | String a s => "." ++ String a s
        end.

(** The last character of [s] satisfies [p]. *)
Fixpoint ends_with (p : ascii -> bool) (s : string) : bool :=
  match s with
  | EmptyString => false
  | String c EmptyString => p c
  | String _ r => ends_with p r
  end.

Definition is_zero_or_dot (c : ascii) : bool := is_zero_char c || is_dot c.

(** Text that cannot continue a decimal literal: nothing, or text whose
    first character is not a digit, a dot or the letter of an exponent. *)
Definition ends_literal (rest : string) : bool :=
  match rest with
  | EmptyString => true
  | String c _ =>
      negb (is_digit c || is_dot c
            || Ascii.eqb c "e"%char || Ascii.eqb c "E"%char)
  end.

(* ================================================================== *)
(** * Properties *)
(* ================================================================== *)

(** ** Rounding to a double *)

Lemma floor_log2_spec (N d : Z) :
  0 < N -> 0 < d ->
  (0 <= floor_log2 N d -> d * 2 ^ floor_log2 N d <= N)
  /\ N < d * 2 ^ Z.max (floor_log2 N d + 1) 0.
Proof.
  intros HN Hd. unfold floor_log2.
  pose proof (Z.log2_spec N HN) as [HN1 HN2].
  pose proof (Z.log2_spec d Hd) as [Hd1 Hd2].
  pose proof (Z.log2_nonneg N) as HlN.
  pose proof (Z.log2_nonneg d) as Hld.
  set (l := Z.log2 N - Z.log2 d).
  destruct (Z.le_gt_cases 0 l) as [Hl | Hl].
  - assert (Hsplit : 2 ^ Z.log2 N = 2 ^ Z.log2 d * 2 ^ l).
    { rewrite <- Z.pow_add_r by lia. f_equal. lia. }
    assert (Hsucc : 2 ^ (l + 1) = 2 * 2 ^ l).
    { rewrite Z.pow_add_r by lia. lia. }
    assert (Hpl : 0 < 2 ^ l) by (apply Z.pow_pos_nonneg; lia).
    replace (Z.succ (Z.log2 N)) with (Z.log2 N + 1) in HN2 by lia.
    replace (Z.succ (Z.log2 d)) with (Z.log2 d + 1) in Hd2 by lia.
    rewrite Z.pow_add_r in HN2, Hd2 by lia.
    change (2 ^ 1) with 2 in *.
    destruct (Z.ltb_spec N (d * 2 ^ l)) as [Hlt | Hge].
    + split.
      * intros Hl1.
        assert (Hp : 2 ^ l = 2 * 2 ^ (l - 1)).
        { replace l with ((l - 1) + 1) at 1 by lia.
          rewrite Z.pow_add_r by lia. lia. }
        assert (0 < 2 ^ (l - 1)) by (apply Z.pow_pos_nonneg; lia).
        nia.
      * replace (Z.max (l - 1 + 1) 0) with l by lia. exact Hlt.
    + split; [intros _; exact Hge |].
      replace (Z.max (l + 1) 0) with (l + 1) by lia.
      rewrite Hsucc. nia.
  - rewrite (Z.pow_neg_r 2 l) by lia.
    destruct (Z.ltb_spec N (d * 0)) as [Hlt | _]; [lia |].
    split; [lia |].
    replace (Z.max (l + 1) 0) with 0 by lia.
    assert (Z.log2 N + 1 <= Z.log2 d) by lia.
    assert (2 ^ (Z.log2 N + 1) <= 2 ^ Z.log2 d)
      by (apply Z.pow_le_mono_r; lia).
    replace (Z.succ (Z.log2 N)) with (Z.log2 N + 1) in HN2 by lia.
    change (2 ^ 0) with 1. lia.
Qed.

Lemma exponent_spec (N d : Z) :
  0 < N -> 0 < d ->
  0 <= exponent N d
  /\ N < d * 2 ^ exponent N d * 2 ^ 53
  /\ (0 < exponent N d -> d * 2 ^ exponent N d * 2 ^ 52 <= N).
Proof.
  intros HN Hd. unfold exponent.
  destruct (floor_log2_spec N d HN Hd) as [Hlo Hhi].
  set (L := floor_log2 N d) in *.
  split; [lia |].
  destruct (Z.le_gt_cases L 52) as [HL | HL].
  - replace (Z.max (L - 52) 0) with 0 by lia.
    split; [| lia].
    change (2 ^ 0) with 1.
    assert (2 ^ Z.max (L + 1) 0 <= 2 ^ 53) by (apply Z.pow_le_mono_r; lia).
    nia.
  - replace (Z.max (L - 52) 0) with (L - 52) by lia.
    replace (Z.max (L + 1) 0) with (L + 1) in Hhi by lia.
    rewrite <- !Z.mul_assoc, <- !Z.pow_add_r by lia.
    replace (L - 52 + 53) with (L + 1) by lia.
    replace (L - 52 + 52) with L by lia.
    split; [exact Hhi | intros _; apply Hlo; lia].
Qed.

(** The exponent is determined by the two bounds. *)
Lemma exponent_unique (N d e : Z) :
  0 < N -> 0 < d -> 0 <= e ->
  N < d * 2 ^ e * 2 ^ 53 ->
  (0 < e -> d * 2 ^ e * 2 ^ 52 <= N) ->
  exponent N d = e.
Proof.
  intros HN Hd He Hhi Hlo.
  destruct (exponent_spec N d HN Hd) as (He' & Hhi' & Hlo').
  set (e' := exponent N d) in *.
  destruct (Z.lt_trichotomy e' e) as [Hlt | [Heq | Hgt]]; [| exact Heq |].
  - exfalso. specialize (Hlo ltac:(lia)).
    assert (2 ^ (e' + 1) <= 2 ^ e) by (apply Z.pow_le_mono_r; lia).
    rewrite Z.pow_add_r in H by lia. change (2 ^ 1) with 2 in H.
    assert (0 < 2 ^ e') by (apply Z.pow_pos_nonneg; lia).
    change (2 ^ 53) with (2 * 2 ^ 52) in Hhi'.
    assert (0 < 2 ^ 52) by reflexivity.
    nia.
  - exfalso. specialize (Hlo' ltac:(lia)).
    assert (2 ^ (e + 1) <= 2 ^ e') by (apply Z.pow_le_mono_r; lia).
    rewrite Z.pow_add_r in H by lia. change (2 ^ 1) with 2 in H.
    assert (0 < 2 ^ e) by (apply Z.pow_pos_nonneg; lia).
    change (2 ^ 53) with (2 * 2 ^ 52) in Hhi.
    assert (0 < 2 ^ 52) by reflexivity.
    nia.
Qed.

Lemma exponent_mono (N1 N2 d : Z) :
  0 < N1 -> N1 <= N2 -> 0 < d -> exponent N1 d <= exponent N2 d.
Proof.
  intros H1 H12 Hd.
  destruct (exponent_spec N1 d ltac:(lia) Hd) as (He1 & Hhi1 & Hlo1).
  destruct (exponent_spec N2 d ltac:(lia) Hd) as (He2 & Hhi2 & Hlo2).
  set (e1 := exponent N1 d) in *. set (e2 := exponent N2 d) in *.
  destruct (Z.le_gt_cases e1 e2) as [Hle | Hgt]; [exact Hle | exfalso].
  specialize (Hlo1 ltac:(lia)).
  assert (2 ^ (e2 + 1) <= 2 ^ e1) by (apply Z.pow_le_mono_r; lia).
  rewrite Z.pow_add_r in H by lia. change (2 ^ 1) with 2 in H.
  assert (0 < 2 ^ e2) by (apply Z.pow_pos_nonneg; lia).
  change (2 ^ 53) with (2 * 2 ^ 52) in Hhi2.
  assert (0 < 2 ^ 52) by reflexivity.
  nia.
Qed.

Lemma exponent_scale (N d k : Z) :
  0 < N -> 0 < d -> 0 < k -> exponent (N * k) (d * k) = exponent N d.
Proof.
  intros HN Hd Hk.
  destruct (exponent_spec N d HN Hd) as (He & Hhi & Hlo).
  apply exponent_unique;
    [nia | nia | lia | nia | intros H; specialize (Hlo H); nia].
Qed.

(** *** Rounding to the nearest integer *)

Lemma round_half_even_exact (k D : Z) :
  0 < D -> round_half_even (k * D) D = k.
Proof.
  intros HD. unfold round_half_even.
  rewrite Z.mod_mul, Z.div_mul by lia.
  destruct (Z.compare_spec (2 * 0) D); lia.
Qed.

Lemma round_half_even_scale (n D k : Z) :
  0 < D -> 0 < k -> round_half_even (n * k) (D * k) = round_half_even n D.
Proof.
  intros HD Hk. unfold round_half_even.
  rewrite Z.div_mul_cancel_r by lia.
  rewrite Zmult_mod_distr_r.
  replace (2 * (n mod D * k)) with ((2 * (n mod D)) * k) by lia.
  rewrite <- (Zmult_compare_compat_r (2 * (n mod D)) D k) by lia.
  reflexivity.
Qed.

Lemma round_half_even_near (n D : Z) :
  0 < D ->
  n / D <= round_half_even n D <= n / D + 1.
Proof.
  intros HD. unfold round_half_even.
  destruct (2 * (n mod D) ?= D); [destruct (Z.even _) | |]; lia.
Qed.

Lemma round_half_even_mono (n1 n2 D : Z) :
  0 < D -> n1 <= n2 -> round_half_even n1 D <= round_half_even n2 D.
Proof.
  intros HD H12.
  assert (Hq : n1 / D <= n2 / D) by (apply Z.div_le_mono; lia).
  destruct (Z.eq_dec (n1 / D) (n2 / D)) as [Heq | Hne].
  - assert (Hr : n1 mod D <= n2 mod D).
    { pose proof (Z.div_mod n1 D ltac:(lia)).
      pose proof (Z.div_mod n2 D ltac:(lia)). nia. }
    unfold round_half_even. rewrite <- Heq.
    destruct (Z.compare_spec (2 * (n1 mod D)) D);
      destruct (Z.compare_spec (2 * (n2 mod D)) D);
      destruct (Z.even (n1 / D)); lia.
  - pose proof (round_half_even_near n1 D HD).
    pose proof (round_half_even_near n2 D HD). lia.
Qed.

Lemma round_half_even_ge (n D A : Z) :
  0 < D -> A * D <= n -> A <= round_half_even n D.
Proof.
  intros HD H. rewrite <- (round_half_even_exact A D HD).
  apply round_half_even_mono; assumption.
Qed.

Lemma round_half_even_le (n D B : Z) :
  0 < D -> n <= B * D -> round_half_even n D <= B.
Proof.
  intros HD H. rewrite <- (round_half_even_exact B D HD).
  apply round_half_even_mono; assumption.
Qed.

(** *** The result of [round_pos] *)

Lemma significand_bounds (N d : Z) :
  0 < N -> 0 < d ->
  0 <= significand N d <= 2 ^ 53
  /\ (0 < exponent N d -> 2 ^ 52 <= significand N d).
Proof.
  intros HN Hd. unfold significand.
  destruct (exponent_spec N d HN Hd) as (He & Hhi & Hlo).
  assert (HD : 0 < d * 2 ^ exponent N d).
  { apply Z.mul_pos_pos; [lia | apply Z.pow_pos_nonneg; lia]. }
  repeat split.
  - apply round_half_even_ge; lia.
  - apply round_half_even_le; lia.
  - intros H. apply round_half_even_ge; [lia |]. specialize (Hlo H). lia.
Qed.

Lemma round_pos_finite (n d : Z) :
  0 < n -> 0 < d -> n < d * 2 ^ 1023 ->
  exists m e, round_pos n d = Finite m e
              /\ 0 <= m < 2 ^ 53 /\ -1074 <= e
              /\ scaled_value m e = nearest n d.
Proof.
  intros Hn Hd Hlt.
  assert (HN : 0 < n * 2 ^ 1074) by lia.
  destruct (exponent_spec _ d HN Hd) as (He & Hhi & Hlo).
  destruct (significand_bounds _ d HN Hd) as (Hm & Hm52).
  unfold round_pos, nearest, scaled_value.
  fold (exponent (n * 2 ^ 1074) d). fold (significand (n * 2 ^ 1074) d).
  set (e := exponent (n * 2 ^ 1074) d) in *.
  set (m := significand (n * 2 ^ 1074) d) in *.
  replace (n =? 0) with false by (symmetry; apply Z.eqb_neq; lia).
  assert (Hebound : e < 2045).
  { destruct (Z.le_gt_cases e 0) as [| Hpos]; [lia |].
    specialize (Hlo Hpos).
    destruct (Z.lt_ge_cases e 2045) as [| Hbig]; [assumption | exfalso].
    assert (2 ^ 2045 <= 2 ^ e) by (apply Z.pow_le_mono_r; lia).
    assert (d * 2 ^ 2045 * 2 ^ 52 <= n * 2 ^ 1074) by nia.
    change (2 ^ 2045) with (2 ^ 1023 * 2 ^ 1022) in H0.
    assert (0 < 2 ^ 1022) by reflexivity.
    assert (0 < 2 ^ 52) by reflexivity.
    change (2 ^ 1074) with (2 ^ 1022 * 2 ^ 52) in H0.
    nia. }
  destruct (Z.eqb_spec m (2 ^ 53)) as [Heq | Hne].
  - replace (2045 <? e + 1) with false by (symmetry; apply Z.ltb_ge; lia).
    exists (2 ^ 52), (e + 1 - 1074).
    split; [reflexivity |]. split; [lia |]. split; [lia |].
    replace (e + 1 - 1074 + 1074) with (e + 1) by lia.
    rewrite Heq, Z.pow_add_r by lia. change (2 ^ 53) with (2 ^ 52 * 2).
    change (2 ^ 1) with 2. lia.
  - replace (2045 <? e) with false by (symmetry; apply Z.ltb_ge; lia).
    exists m, (e - 1074).
    split; [reflexivity |]. split; [lia |]. split; [lia |].
    replace (e - 1074 + 1074) with e by lia. reflexivity.
Qed.

Lemma binary64_finite (n d : Z) :
  0 <= n -> 0 < d -> n < d * 2 ^ 1023 ->
  exists m e, binary64 n d = Finite m e
              /\ 0 <= m < 2 ^ 53 /\ -1074 <= e
              /\ scaled_value m e = nearest n d.
Proof.
  intros Hn Hd Hlt. unfold binary64.
  destruct (Z.eqb_spec n 0) as [-> | Hne].
  - exists 0, (-1074).
    split; [reflexivity |]. split; [lia |]. split; [lia | reflexivity].
  - replace (0 <? n) with true by (symmetry; apply Z.ltb_lt; lia).
    apply round_pos_finite; lia.
Qed.

Lemma nearest_nonneg (n d : Z) : 0 <= n -> 0 < d -> 0 <= nearest n d.
Proof.
  intros Hn Hd. unfold nearest.
  destruct (Z.eqb_spec n 0); [lia |].
  assert (HN : 0 < n * 2 ^ 1074) by lia.
  destruct (significand_bounds _ d HN Hd) as (Hm & _).
  destruct (exponent_spec _ d HN Hd) as (He & _).
  assert (0 < 2 ^ exponent (n * 2 ^ 1074) d) by (apply Z.pow_pos_nonneg; lia).
  nia.
Qed.

(** Rounding is monotone. *)
Lemma nearest_mono (n1 n2 d : Z) :
  0 <= n1 -> n1 <= n2 -> 0 < d -> nearest n1 d <= nearest n2 d.
Proof.
  intros H1 H12 Hd.
  destruct (Z.eq_dec n1 0) as [-> | Hne1].
  { change (nearest 0 d) with 0. apply nearest_nonneg; lia. }
  unfold nearest.
  replace (n1 =? 0) with false by (symmetry; apply Z.eqb_neq; lia).
  replace (n2 =? 0) with false by (symmetry; apply Z.eqb_neq; lia).
  assert (HN1 : 0 < n1 * 2 ^ 1074) by lia.
  assert (HN2 : 0 < n2 * 2 ^ 1074) by lia.
  assert (HN12 : n1 * 2 ^ 1074 <= n2 * 2 ^ 1074) by nia.
  pose proof (exponent_mono _ _ d HN1 HN12 Hd) as Hemono.
  destruct (exponent_spec _ d HN1 Hd) as (He1 & _ & _).
  destruct (exponent_spec _ d HN2 Hd) as (He2 & _ & _).
  destruct (significand_bounds _ d HN1 Hd) as (Hm1 & _).
  destruct (significand_bounds _ d HN2 Hd) as (Hm2 & Hm2lo).
  unfold significand in *.
  set (e1 := exponent (n1 * 2 ^ 1074) d) in *.
  set (e2 := exponent (n2 * 2 ^ 1074) d) in *.
  destruct (Z.eq_dec e1 e2) as [Heq | Hne].
  - rewrite <- Heq in *.
    assert (0 < 2 ^ e1) by (apply Z.pow_pos_nonneg; lia).
    apply Z.mul_le_mono_nonneg_r; [lia |].
    apply round_half_even_mono; [nia | lia].
  - specialize (Hm2lo ltac:(lia)).
    assert (Hp : 2 ^ (e1 + 1) <= 2 ^ e2) by (apply Z.pow_le_mono_r; lia).
    rewrite Z.pow_add_r in Hp by lia. change (2 ^ 1) with 2 in Hp.
    assert (0 < 2 ^ e1) by (apply Z.pow_pos_nonneg; lia).
    change (2 ^ 53) with (2 * 2 ^ 52) in Hm1.
    assert (0 < 2 ^ 52) by reflexivity.
    nia.
Qed.

(** Rounding depends on the rational only. *)
Lemma round_pos_scale (n d k : Z) :
  0 < n -> 0 < d -> 0 < k -> round_pos (n * k) (d * k) = round_pos n d.
Proof.
  intros Hn Hd Hk. unfold round_pos.
  fold (exponent (n * k * 2 ^ 1074) (d * k)).
  fold (exponent (n * 2 ^ 1074) d).
  replace (n * k * 2 ^ 1074) with (n * 2 ^ 1074 * k) by lia.
  rewrite exponent_scale by lia.
  set (e := exponent (n * 2 ^ 1074) d).
  assert (0 < 2 ^ e).
  { apply Z.pow_pos_nonneg; [lia |].
    apply (exponent_spec (n * 2 ^ 1074) d); lia. }
  replace (d * k * 2 ^ e) with (d * 2 ^ e * k) by lia.
  rewrite round_half_even_scale by nia.
  reflexivity.
Qed.

Lemma binary64_scale (n d k : Z) :
  0 <= n -> 0 < d -> 0 < k -> binary64 (n * k) (d * k) = binary64 n d.
Proof.
  intros Hn Hd Hk. unfold binary64.
  destruct (Z.eqb_spec n 0) as [-> | Hne]; [reflexivity |].
  replace (n * k =? 0) with false by (symmetry; apply Z.eqb_neq; nia).
  replace (0 <? n * k) with true by (symmetry; apply Z.ltb_lt; nia).
  replace (0 <? n) with true by (symmetry; apply Z.ltb_lt; lia).
  apply round_pos_scale; lia.
Qed.

(** *** Comparisons *)

Lemma compare_finite_scaled (m1 e1 m2 e2 : Z) :
  -1074 <= e1 -> -1074 <= e2 ->
  compare_finite m1 e1 m2 e2 = (scaled_value m1 e1 ?= scaled_value m2 e2).
Proof.
  intros H1 H2. unfold compare_finite, scaled_value.
  assert (He : Z.min e1 e2 <= e1 /\ Z.min e1 e2 <= e2 /\ -1074 <= Z.min e1 e2)
    by lia.
  generalize dependent (Z.min e1 e2). intros e (Ha & Hb & Hc).
  replace (e1 + 1074) with ((e1 - e) + (e + 1074)) by lia.
  replace (e2 + 1074) with ((e2 - e) + (e + 1074)) by lia.
  rewrite (Z.pow_add_r 2 (e1 - e)), (Z.pow_add_r 2 (e2 - e)) by lia.
  rewrite !Z.mul_assoc.
  apply Zmult_compare_compat_r.
  apply Z.lt_gt, Z.pow_pos_nonneg; lia.
Qed.

Lemma geb_finite (m1 e1 m2 e2 : Z) :
  -1074 <= e1 -> -1074 <= e2 ->
  geb (Finite m1 e1) (Finite m2 e2)
  = (scaled_value m2 e2 <=? scaled_value m1 e1).
Proof.
  intros H1 H2. unfold geb, leb, compare.
  rewrite compare_finite_scaled by assumption.
  unfold Z.leb. destruct (_ ?= _); reflexivity.
Qed.

(** The comparison of the rounded quotient with a rounded threshold is the
    comparison of the numerators, when the threshold and the numerator
    before it round to different doubles. *)
Lemma geb_binary64_threshold (n T d : Z) :
  0 <= n -> 0 < T -> 0 < d -> n < d * 2 ^ 1023 -> T < d * 2 ^ 1023 ->
  nearest (T - 1) d < nearest T d ->
  geb (binary64 n d) (binary64 T d) = (T <=? n).
Proof.
  intros Hn HT Hd Hnb HTb Hsep.
  destruct (binary64_finite n d Hn Hd Hnb) as (m1 & e1 & -> & _ & He1 & Hv1).
  destruct (binary64_finite T d ltac:(lia) Hd HTb)
    as (m2 & e2 & -> & _ & He2 & Hv2).
  rewrite geb_finite, Hv1, Hv2 by assumption.
  destruct (Z.leb_spec T n) as [Hle | Hlt].
  - apply Z.leb_le, nearest_mono; lia.
  - apply Z.leb_gt.
    pose proof (nearest_mono n (T - 1) d Hn ltac:(lia) Hd). lia.
Qed.

(** *** Small integers are doubles *)

Lemma round_pos_integer (z : Z) :
  0 < z < 2 ^ 53 ->
  exists m e, round_pos z 1 = Finite m e /\ -1074 <= e <= 0
              /\ m = z * 2 ^ (- e).
Proof.
  intros Hz.
  assert (HN : 0 < z * 2 ^ 1074) by lia.
  destruct (exponent_spec _ 1 HN ltac:(lia)) as (He & Hhi & Hlo).
  unfold round_pos. fold (exponent (z * 2 ^ 1074) 1).
  set (e := exponent (z * 2 ^ 1074) 1) in *.
  assert (Hebound : e <= 1074).
  { destruct (Z.le_gt_cases e 1074) as [| Hbig]; [assumption | exfalso].
    specialize (Hlo ltac:(lia)).
    assert (2 ^ 1075 <= 2 ^ e) by (apply Z.pow_le_mono_r; lia).
    change (2 ^ 1075) with (2 * 2 ^ 1074) in H.
    assert (0 < 2 ^ 1074) by reflexivity.
    change (2 ^ 53) with (2 * 2 ^ 52) in Hz.
    assert (0 < 2 ^ 52) by reflexivity.
    nia. }
  assert (Hsplit : 2 ^ 1074 = 2 ^ (1074 - e) * 2 ^ e).
  { rewrite <- Z.pow_add_r by lia. f_equal. lia. }
  assert (Hpe : 0 < 2 ^ e) by (apply Z.pow_pos_nonneg; lia).
  assert (Hpk : 0 < 2 ^ (1074 - e)) by (apply Z.pow_pos_nonneg; lia).
  replace (z * 2 ^ 1074) with (z * 2 ^ (1074 - e) * (1 * 2 ^ e)) in * by nia.
  rewrite round_half_even_exact by lia.
  assert (Hm : z * 2 ^ (1074 - e) < 2 ^ 53) by nia.
  replace (z * 2 ^ (1074 - e) =? 2 ^ 53) with false
    by (symmetry; apply Z.eqb_neq; lia).
  replace (2045 <? e) with false by (symmetry; apply Z.ltb_ge; lia).
  exists (z * 2 ^ (1074 - e)), (e - 1074).
  split; [reflexivity |]. split; [lia |].
  f_equal. f_equal. lia.
Qed.

Lemma to_Z_exact (z e : Z) :
  e <= 0 -> to_Z (Finite (z * 2 ^ (- e)) e) = Some z.
Proof.
  intros He. unfold to_Z.
  destruct (Z.leb_spec 0 e) as [H0 | Hneg].
  - replace e with 0 by lia. f_equal. change (2 ^ (- 0)) with 1.
    change (2 ^ 0) with 1. lia.
  - assert (0 < 2 ^ (- e)) by (apply Z.pow_pos_nonneg; lia).
    rewrite Z.mod_mul, Z.div_mul by lia. reflexivity.
Qed.

(** [Number(z)] is [z] for a bigint of at most 53 bits. *)
Lemma of_bigint_exact (z : Z) :
  Z.abs z <= 2 ^ 53 -> to_Z (of_bigint z) = Some z.
Proof.
  intros Hz. unfold of_bigint, binary64.
  destruct (Z.eqb_spec z 0) as [-> | Hne]; [reflexivity |].
  destruct (Z.ltb_spec 0 z) as [Hpos | Hneg].
  - destruct (Z.eq_dec z (2 ^ 53)) as [-> | Hlt]; [reflexivity |].
    destruct (round_pos_integer z ltac:(lia)) as (m & e & -> & He & ->).
    apply to_Z_exact; lia.
  - destruct (Z.eq_dec z (- 2 ^ 53)) as [-> | Hlt]; [reflexivity |].
    destruct (round_pos_integer (- z) ltac:(lia)) as (m & e & -> & He & ->).
    cbn [opp].
    replace (- (- z * 2 ^ (- e))) with (z * 2 ^ (- e)) by lia.
    apply to_Z_exact; lia.
Qed.

(** ** Strings *)

Lemma append_assoc (a b c : string) : (a ++ b) ++ c = a ++ b ++ c.
Proof. induction a as [| x a IH]; cbn; [reflexivity | now rewrite IH]. Qed.

Lemma append_nil_r (a : string) : a ++ "" = a.
Proof. induction a as [| x a IH]; cbn; [reflexivity | now rewrite IH]. Qed.

Lemma length_append (a b : string) :
  String.length (a ++ b) = (String.length a + String.length b)%nat.
Proof. induction a as [| x a IH]; cbn; [reflexivity | now rewrite IH]. Qed.

Lemma strlen_append (a b : string) : strlen (a ++ b) = strlen a + strlen b.
Proof. unfold strlen. rewrite length_append. lia. Qed.

Lemma strlen_nonneg (a : string) : 0 <= strlen a.
Proof. unfold strlen. lia. Qed.

Lemma take_nat_append (a b : string) : take_nat (String.length a) (a ++ b) = a.
Proof. induction a as [| x a IH]; cbn; [now destruct b | now rewrite IH]. Qed.

Lemma drop_nat_append (a b : string) : drop_nat (String.length a) (a ++ b) = b.
Proof. induction a as [| x a IH]; cbn; [now destruct b | exact IH]. Qed.

Lemma take_append (a b : string) : take (strlen a) (a ++ b) = a.
Proof. unfold take, strlen. rewrite Nat2Z.id. apply take_nat_append. Qed.

Lemma drop_append (a b : string) : drop (strlen a) (a ++ b) = b.
Proof. unfold drop, strlen. rewrite Nat2Z.id. apply drop_nat_append. Qed.

Lemma forallb_str_append (p : ascii -> bool) (a b : string) :
  forallb_str p (a ++ b) = forallb_str p a && forallb_str p b.
Proof.
  induction a as [| x a IH]; cbn; [reflexivity |].
  rewrite IH. now rewrite andb_assoc.
Qed.

Lemma length_repeat_char (c : ascii) (n : nat) :
  String.length (repeat_char c n) = n.
Proof. induction n as [| n IH]; cbn; [reflexivity | now rewrite IH]. Qed.

Lemma forallb_repeat_char (p : ascii -> bool) (c : ascii) (n : nat) :
  p c = true -> forallb_str p (repeat_char c n) = true.
Proof. intros H. induction n as [| n IH]; cbn; [reflexivity | now rewrite H]. Qed.

Lemma repeat_char_snoc (c : ascii) (n : nat) :
  repeat_char c n ++ String c "" = String c (repeat_char c n).
Proof. induction n as [| n IH]; cbn; [reflexivity | now rewrite IH]. Qed.

(** ** Decimal digits *)

Lemma digit_cases (d : Z) :
  0 <= d < 10 ->
  d = 0 \/ d = 1 \/ d = 2 \/ d = 3 \/ d = 4 \/ d = 5 \/ d = 6 \/ d = 7
  \/ d = 8 \/ d = 9.
Proof. lia. Qed.

Ltac each_digit d H :=
  destruct (digit_cases d H) as [-> | [-> | [-> | [-> | [-> | [-> | [-> | [-> | [-> | ->]]]]]]]]].

Lemma is_digit_digit_char (d : Z) :
  0 <= d < 10 -> is_digit (digit_char d) = true.
Proof. intros H. each_digit d H; reflexivity. Qed.

Lemma digit_value_digit_char (d : Z) :
  0 <= d < 10 -> digit_value (digit_char d) = d.
Proof. intros H. each_digit d H; reflexivity. Qed.

Lemma is_zero_digit_char (d : Z) :
  0 <= d < 10 -> is_zero_char (digit_char d) = (d =? 0).
Proof. intros H. each_digit d H; reflexivity. Qed.

Lemma is_digit_value (c : ascii) :
  is_digit c = true -> 0 <= digit_value c < 10.
Proof. unfold is_digit, digit_value. lia. Qed.

Lemma is_digit_not_dot (c : ascii) : is_digit c = true -> is_dot c = false.
Proof.
  unfold is_dot. intros H. destruct (Ascii.eqb_spec c "."%char) as [-> | _];
    [discriminate | reflexivity].
Qed.

Lemma is_zero_is_digit (c : ascii) : is_zero_char c = true -> is_digit c = true.
Proof.
  unfold is_zero_char. intros H. apply Ascii.eqb_eq in H. now subst.
Qed.

Lemma is_zero_char_value (c : ascii) :
  is_digit c = true -> is_zero_char c = (digit_value c =? 0).
Proof.
  intros H. unfold is_zero_char.
  destruct (Ascii.eqb_spec c "0"%char) as [-> | Hne]; [reflexivity |].
  symmetry. apply Z.eqb_neq. intros Hv. apply Hne.
  unfold digit_value in Hv.
  rewrite <- (ascii_nat_embedding c).
  replace (nat_of_ascii c) with 48%nat by lia. reflexivity.
Qed.

(** *** [digits] *)

Lemma digits_from_acc (fuel : nat) (n : Z) (acc : string) :
  digits_from fuel n acc = digits_from fuel n "" ++ acc.
Proof.
  revert n acc. induction fuel as [| fuel IH]; intros n acc; cbn; [reflexivity |].
  destruct (n <? 10); [reflexivity |].
  rewrite IH, (IH _ (String _ "")), append_assoc. reflexivity.
Qed.

Lemma digits_from_fuel (f1 f2 : nat) (n : Z) (acc : string) :
  0 <= n -> n < 2 ^ Z.of_nat (S f1) -> n < 2 ^ Z.of_nat (S f2) ->
  digits_from (S f1) n acc = digits_from (S f2) n acc.
Proof.
  revert f2 n acc. induction f1 as [| f1 IH]; intros f2 n acc Hn H1 H2.
  - cbn. replace (n <? 10) with true by (symmetry; apply Z.ltb_lt;
      change (2 ^ Z.of_nat 1) with 2 in H1; lia). reflexivity.
  - cbn [digits_from]. destruct (Z.ltb_spec n 10) as [| Hge]; [reflexivity |].
    destruct f2 as [| f2].
    + change (2 ^ Z.of_nat 1) with 2 in H2. lia.
    + apply IH.
      * apply Z.div_pos; lia.
      * rewrite Nat2Z.inj_succ, Z.pow_succ_r in H1 by lia.
        apply Z.div_lt_upper_bound; lia.
      * rewrite Nat2Z.inj_succ, Z.pow_succ_r in H2 by lia.
        apply Z.div_lt_upper_bound; lia.
Qed.

Lemma log2_fuel (n : Z) : 0 <= n -> n < 2 ^ Z.of_nat (S (Z.to_nat (Z.log2 n))).
Proof.
  intros Hn. rewrite Nat2Z.inj_succ, Z2Nat.id by apply Z.log2_nonneg.
  destruct (Z.eq_dec n 0) as [-> | Hne]; [reflexivity |].
  apply Z.log2_spec. lia.
Qed.

Lemma digits_small (n : Z) :
  n < 10 -> digits n = String (digit_char (n mod 10)) "".
Proof.
  intros H. unfold digits. cbn [digits_from].
  replace (n <? 10) with true by (symmetry; apply Z.ltb_lt; lia). reflexivity.
Qed.

Lemma digits_step (n : Z) :
  10 <= n -> digits n = digits (n / 10) ++ String (digit_char (n mod 10)) "".
Proof.
  intros H. unfold digits at 1. cbn [digits_from].
  replace (n <? 10) with false by (symmetry; apply Z.ltb_ge; lia).
  rewrite digits_from_acc. f_equal.
  assert (Hq : 0 <= n / 10) by (apply Z.div_pos; lia).
  destruct (Z.to_nat (Z.log2 n)) as [| f] eqn:Hf.
  - exfalso. assert (Z.log2 n = 0 \/ Z.log2 n < 0) as [H0 | H0] by lia.
    + pose proof (Z.log2_spec n ltac:(lia)) as Hs. rewrite H0 in Hs.
      change (2 ^ Z.succ 0) with 2 in Hs. lia.
    + pose proof (Z.log2_nonneg n). lia.
  - unfold digits. apply digits_from_fuel; [assumption | | apply log2_fuel; assumption].
    pose proof (log2_fuel n ltac:(lia)) as Hn. rewrite Hf in Hn.
    rewrite Nat2Z.inj_succ, Z.pow_succ_r in Hn by lia.
    apply Z.div_lt_upper_bound; lia.
Qed.

(** Induction on the decimal digits of a non-negative integer. *)
Lemma digits_ind (P : Z -> Prop) :
  (forall n, 0 <= n < 10 -> P n) ->
  (forall n, 10 <= n -> P (n / 10) -> P n) ->
  forall n, 0 <= n -> P n.
Proof.
  intros Hbase Hstep n Hn. revert n Hn.
  apply (Zlt_0_ind P). intros n IH Hn.
  destruct (Z.lt_ge_cases n 10) as [Hlt | Hge].
  - apply Hbase. lia.
  - apply Hstep; [assumption |]. apply IH. split.
    + apply Z.div_pos; lia.
    + apply Z.div_lt; lia.
Qed.

Lemma digits_are_digits (n : Z) :
  0 <= n -> forallb_str is_digit (digits n) = true.
Proof.
  revert n. apply digits_ind; intros n Hn.
  - rewrite digits_small by lia. cbn.
    rewrite is_digit_digit_char; [reflexivity | apply Z.mod_pos_bound; lia].
  - intros IH. rewrite digits_step, forallb_str_append, IH by assumption. cbn.
    rewrite is_digit_digit_char; [reflexivity | apply Z.mod_pos_bound; lia].
Qed.

Lemma digits_nonempty (n : Z) : digits n <> "".
Proof.
  unfold digits. cbn [digits_from]. destruct (n <? 10); [discriminate |].
  rewrite digits_from_acc. destruct (digits_from _ _ ""); discriminate.
Qed.

(** *** The value of a digit string *)

Lemma digits_value_acc_append (acc : Z) (a b : string) :
  digits_value_acc acc (a ++ b) = digits_value_acc (digits_value_acc acc a) b.
Proof. revert acc. induction a as [| x a IH]; intros acc; cbn; [reflexivity | apply IH]. Qed.

Lemma digits_value_acc_shift (acc : Z) (a : string) :
  digits_value_acc acc a = acc * 10 ^ strlen a + digits_value a.
Proof.
  unfold digits_value. revert acc.
  induction a as [| x a IH]; intros acc.
  - cbn. change (strlen "") with 0. change (10 ^ 0) with 1. lia.
  - cbn [digits_value_acc]. rewrite IH, (IH (10 * 0 + _)).
    replace (strlen (String x a)) with (strlen a + 1)
      by (unfold strlen; cbn [String.length]; lia).
    rewrite Z.pow_add_r by (try apply strlen_nonneg; lia).
    change (10 ^ 1) with 10. lia.
Qed.

Lemma digits_value_append (a b : string) :
  digits_value (a ++ b) = digits_value a * 10 ^ strlen b + digits_value b.
Proof.
  unfold digits_value at 1. rewrite digits_value_acc_append.
  rewrite digits_value_acc_shift. reflexivity.
Qed.

Lemma digits_value_acc_nonneg (acc : Z) (a : string) :
  0 <= acc -> forallb_str is_digit a = true -> 0 <= digits_value_acc acc a.
Proof.
  revert acc. induction a as [| x a IH]; intros acc Hacc Ha;
    cbn [digits_value_acc forallb_str] in *; [assumption |].
  apply andb_prop in Ha as [Hx Ha].
  apply IH; [| assumption]. pose proof (is_digit_value x Hx).
  unfold digit_value in *. lia.
Qed.

Lemma digits_value_nonneg (a : string) :
  forallb_str is_digit a = true -> 0 <= digits_value a.
Proof. apply digits_value_acc_nonneg. lia. Qed.

Lemma digits_value_digits (n : Z) : 0 <= n -> digits_value (digits n) = n.
Proof.
  revert n. apply digits_ind; intros n Hn.
  - rewrite digits_small by lia. unfold digits_value. cbn.
    rewrite digit_value_digit_char by (apply Z.mod_pos_bound; lia).
    rewrite Z.mod_small; lia.
  - intros IH. rewrite digits_step, digits_value_append, IH by assumption.
    unfold digits_value at 1. cbn.
    rewrite digit_value_digit_char by (apply Z.mod_pos_bound; lia).
    change (strlen (String _ "")) with 1. change (10 ^ 1) with 10.
    pose proof (Z.div_mod n 10 ltac:(lia)). lia.
Qed.

Lemma repeat_char_middle (c : ascii) (n : nat) (s : string) :
  repeat_char c n ++ String c s = String c (repeat_char c n ++ s).
Proof. induction n as [| n IH]; cbn; [reflexivity | now rewrite IH]. Qed.

(** *** The low-order digits of an integer *)

Lemma length_frac_digits (f : nat) (n : Z) : String.length (frac_digits f n) = f.
Proof.
  revert n. induction f as [| f IH]; intros n; cbn; [reflexivity |].
  rewrite length_append, IH. cbn. lia.
Qed.

Lemma strlen_frac_digits (f : nat) (n : Z) : strlen (frac_digits f n) = Z.of_nat f.
Proof. unfold strlen. now rewrite length_frac_digits. Qed.

Lemma frac_digits_are_digits (f : nat) (n : Z) :
  forallb_str is_digit (frac_digits f n) = true.
Proof.
  revert n. induction f as [| f IH]; intros n; cbn; [reflexivity |].
  rewrite forallb_str_append, IH. cbn.
  rewrite is_digit_digit_char; [reflexivity | apply Z.mod_pos_bound; lia].
Qed.

Lemma digits_value_frac_digits (f : nat) (n : Z) :
  digits_value (frac_digits f n) = n mod 10 ^ Z.of_nat f.
Proof.
  revert n. induction f as [| f IH]; intros n.
  - cbn. now rewrite Z.mod_1_r.
  - cbn [frac_digits]. rewrite digits_value_append, IH.
    unfold digits_value at 1. cbn [digits_value_acc].
    rewrite digit_value_digit_char by (apply Z.mod_pos_bound; lia).
    change (strlen (String _ "")) with 1. change (10 ^ 1) with 10.
    rewrite Nat2Z.inj_succ, Z.pow_succ_r by lia.
    rewrite Z.rem_mul_r by (try apply Z.pow_pos_nonneg; lia). lia.
Qed.

(** The digits of [n], padded with zeros to [f + 1] digits at least, are
    the digits of [n / 10^f] followed by the [f] low-order digits. *)
Lemma padded_digits (f : nat) (n : Z) :
  0 <= n ->
  repeat_char "0"%char (Z.to_nat (Z.of_nat f + 1 - strlen (digits n))) ++ digits n
  = digits (n / 10 ^ Z.of_nat f) ++ frac_digits f n.
Proof.
  revert n. induction f as [| f IH]; intros n Hn.
  - assert (0 < strlen (digits n)).
    { pose proof (digits_nonempty n). unfold strlen.
      destruct (digits n); [congruence | cbn; lia]. }
    replace (Z.to_nat (Z.of_nat 0 + 1 - strlen (digits n))) with 0%nat by lia.
    cbn. now rewrite Z.div_1_r, append_nil_r.
  - cbn [frac_digits]. rewrite <- append_assoc.
    replace (n / 10 ^ Z.of_nat (S f)) with (n / 10 / 10 ^ Z.of_nat f).
    2:{ rewrite Nat2Z.inj_succ, Z.pow_succ_r by lia.
        rewrite Z.div_div by (try apply Z.pow_pos_nonneg; lia). reflexivity. }
    rewrite <- IH by (apply Z.div_pos; lia).
    rewrite append_assoc. 
    destruct (Z.lt_ge_cases n 10) as [Hlt | Hge].
    + rewrite (digits_small n Hlt).
      rewrite Z.div_small by lia.
      change (digits 0) with "0".
      change (strlen (String _ "")) with 1. change (strlen "0") with 1.
      replace (Z.to_nat (Z.of_nat (S f) + 1 - 1)) with (S f) by lia.
      replace (Z.to_nat (Z.of_nat f + 1 - 1)) with f by lia.
      cbn [repeat_char append].
      symmetry. apply repeat_char_middle.
    + rewrite (digits_step n Hge), strlen_append.
      change (strlen (String _ "")) with 1.
      replace (Z.of_nat (S f) + 1 - (strlen (digits (n / 10)) + 1))
        with (Z.of_nat f + 1 - strlen (digits (n / 10))) by lia.
      reflexivity.
Qed.

(** *** [toFixed] in fixed notation *)

Lemma toFixed_integer_nonneg (m e f : Z) :
  0 <= m -> 0 <= f -> 0 <= toFixed_integer m e f.
Proof.
  intros Hm Hf. unfold toFixed_integer, round_half_up.
  assert (0 < 10 ^ f) by (apply Z.pow_pos_nonneg; lia).
  destruct (Z.leb_spec 0 e).
  - assert (0 < 2 ^ e) by (apply Z.pow_pos_nonneg; lia). nia.
  - assert (0 < 2 ^ (- e)) by (apply Z.pow_pos_nonneg; lia).
    apply Z.div_pos; nia.
Qed.

Lemma toFixed_digits_0 (m e : Z) :
  toFixed_digits m e 0 = digits (toFixed_integer m e 0).
Proof. reflexivity. Qed.

Lemma toFixed_digits_pos (m e f : Z) :
  0 <= m -> 0 < f ->
  toFixed_digits m e f
  = digits (toFixed_integer m e f / 10 ^ f) ++ "."
    ++ frac_digits (Z.to_nat f) (toFixed_integer m e f).
Proof.
  intros Hm Hf. unfold toFixed_digits. fold (toFixed_integer m e f).
  pose proof (toFixed_integer_nonneg m e f Hm ltac:(lia)) as HN.
  set (N := toFixed_integer m e f) in *.
  replace (f =? 0) with false by (symmetry; apply Z.eqb_neq; lia).
  assert (Hpad :
    (if strlen (digits N) <=? f
     then repeat_char "0"%char (Z.to_nat (f + 1 - strlen (digits N))) ++ digits N
     else digits N)
    = digits (N / 10 ^ f) ++ frac_digits (Z.to_nat f) N).
  { rewrite <- (Z2Nat.id f) at 2 3 by lia.
    rewrite <- padded_digits by assumption. rewrite Z2Nat.id by lia.
    destruct (Z.leb_spec (strlen (digits N)) f) as [| Hgt]; [reflexivity |].
    replace (Z.to_nat (f + 1 - strlen (digits N))) with 0%nat by lia.
    reflexivity. }
  rewrite Hpad, strlen_append, strlen_frac_digits, Z2Nat.id by lia.
  replace (strlen (digits (N / 10 ^ f)) + f - f)
    with (strlen (digits (N / 10 ^ f))) by lia.
  now rewrite take_append, drop_append.
Qed.

(** *** Trailing zeros *)

Lemma strip_zeros_spec (s : string) :
  exists j, s = strip_zeros s ++ repeat_char "0"%char j.
Proof.
  induction s as [| c r (j & IH)]; [exists 0%nat; reflexivity |].
  cbn [strip_zeros]. destruct (strip_zeros r) as [| d t] eqn:Hr.
  - cbn in IH. destruct (is_zero_char c) eqn:Hc.
    + exists (S j). cbn. apply Ascii.eqb_eq in Hc. subst c. now rewrite <- IH.
    + exists j. cbn. now rewrite <- IH.
  - exists j. cbn [append]. f_equal. exact IH.
Qed.

Lemma strip_zeros_empty (s : string) :
  strip_zeros s = "" <-> forallb_str is_zero_char s = true.
Proof.
  induction s as [| c r IH]; [cbn; tauto |].
  cbn [strip_zeros forallb_str].
  destruct (strip_zeros r) as [| d t] eqn:Hr.
  - destruct (is_zero_char c); cbn; [tauto |]. split; discriminate.
  - split; [discriminate |]. intros H. apply andb_prop in H as [_ H].
    apply IH in H. discriminate.
Qed.

Lemma strip_zeros_are_digits (s : string) :
  forallb_str is_digit s = true -> forallb_str is_digit (strip_zeros s) = true.
Proof.
  intros H. destruct (strip_zeros_spec s) as (j & Hj).
  rewrite Hj, forallb_str_append in H. now apply andb_prop in H.
Qed.

Lemma digits_value_zeros (j : nat) : digits_value (repeat_char "0"%char j) = 0.
Proof.
  unfold digits_value. induction j as [| j IH]; [reflexivity | exact IH].
Qed.

(** *** The replacement of [/\.?0+$/] *)

Lemma match_zeros_end_forallb (s : string) :
  match_zeros_end s = negb (String.eqb s "") && forallb_str is_zero_char s.
Proof. destruct s; reflexivity. Qed.

(** On a string without a dot the replacement removes the trailing zeros. *)
Lemma replace_trim_no_dot (s : string) :
  forallb_str (fun c => negb (is_dot c)) s = true ->
  replace_trim s = strip_zeros s.
Proof.
  induction s as [| c r IH]; [reflexivity |].
  cbn [forallb_str]. intros H. apply andb_prop in H as [Hc Hr].
  apply negb_true_iff in Hc.
  cbn [replace_trim match_trim_here strip_zeros]. rewrite Hc.
  rewrite (IH Hr). cbn [match_zeros_end forallb_str].
  destruct (strip_zeros r) as [| d t] eqn:Hs.
  - apply strip_zeros_empty in Hs. rewrite Hs, andb_true_r.
    destruct (is_zero_char c); reflexivity.
  - destruct (forallb_str is_zero_char r) eqn:Hall.
    + apply strip_zeros_empty in Hall. congruence.
    + now rewrite andb_false_r.
Qed.

Lemma digits_no_dot (s : string) :
  forallb_str is_digit s = true ->
  forallb_str (fun c => negb (is_dot c)) s = true.
Proof.
  induction s as [| c r IH]; [reflexivity |].
  cbn. intros H. apply andb_prop in H as [Hc Hr].
  now rewrite (is_digit_not_dot c Hc), IH.
Qed.

Lemma replace_trim_decimal (ip fp : string) :
  forallb_str is_digit ip = true ->
  forallb_str is_digit fp = true ->
  fp <> "" ->
  replace_trim (ip ++ "." ++ fp) = ip ++ trimmed_fraction fp.
Proof.
  intros Hip Hfp Hne.
  change ("." ++ fp) with (String "."%char fp).
  induction ip as [| c r IH].
  - cbn [append replace_trim match_trim_here].
    change (is_dot ".") with true. cbv iota.
    replace (match_zeros_end (String "." fp)) with false by reflexivity.
    rewrite orb_false_r, match_zeros_end_forallb.
    replace (String.eqb fp "") with false
      by (symmetry; apply String.eqb_neq; assumption).
    cbn [negb andb]. unfold trimmed_fraction.
    destruct (forallb_str is_zero_char fp) eqn:Hall.
    + apply strip_zeros_empty in Hall. now rewrite Hall.
    + rewrite (replace_trim_no_dot fp (digits_no_dot fp Hfp)).
      destruct (strip_zeros fp) eqn:Hs; [| reflexivity].
      apply strip_zeros_empty in Hs. congruence.
  - cbn [forallb_str] in Hip. apply andb_prop in Hip as [Hc Hr].
    cbn [append replace_trim match_trim_here].
    rewrite (is_digit_not_dot c Hc).
    replace (match_zeros_end (String c (r ++ String "." fp))) with false.
    + now rewrite (IH Hr).
    + cbn [match_zeros_end forallb_str]. rewrite forallb_str_append.
      cbn [forallb_str]. change (is_zero_char ".") with false.
      now rewrite andb_false_l, !andb_false_r.
Qed.

(** ** Reading a decimal string back *)

Lemma span_digits_append (ds rest : string) :
  forallb_str is_digit ds = true ->
  starts_with_digit rest = false ->
  span_digits (ds ++ rest) = (ds, rest).
Proof.
  intros Hds Hrest. induction ds as [| c r IH].
  - destruct rest as [| x rest]; [reflexivity |].
    cbn in *. now rewrite Hrest.
  - cbn [forallb_str] in Hds. apply andb_prop in Hds as [Hc Hr].
    cbn [append span_digits]. now rewrite Hc, (IH Hr).
Qed.

Lemma span_digits_all (ds : string) :
  forallb_str is_digit ds = true -> span_digits ds = (ds, "").
Proof.
  intros H. rewrite <- (append_nil_r ds) at 1.
  now apply span_digits_append.
Qed.

Lemma prefix_Infinity_digit (c : ascii) (r : string) :
  is_digit c = true -> String.prefix "Infinity" (String c r) = false.
Proof.
  intros H.
  change (String.prefix "Infinity" (String c r))
    with (if ascii_dec "I" c then String.prefix "nfinity" r else false).
  destruct (ascii_dec "I" c) as [<- | _]; [discriminate | reflexivity].
Qed.

Lemma parse_unsigned_decimal (ip fp : string) :
  ip <> "" -> fp <> "" ->
  forallb_str is_digit ip = true ->
  forallb_str is_digit fp = true ->
  parse_unsigned (ip ++ "." ++ fp)
  = decimal (digits_value (ip ++ fp)) (- strlen fp).
Proof.
  intros Hip Hfp Dip Dfp. unfold parse_unsigned.
  change ("." ++ fp) with (String "."%char fp).
  destruct ip as [| c r]; [congruence |].
  assert (Hc : is_digit c = true) by (cbn in Dip; now apply andb_prop in Dip).
  cbn [append]. rewrite (prefix_Infinity_digit c _ Hc).
  change (String c (r ++ String "." fp)) with (String c r ++ String "."%char fp).
  rewrite (span_digits_append _ _ Dip) by reflexivity.
  change (is_dot ".") with true. cbv iota.
  rewrite (span_digits_all fp Dfp).
  destruct fp as [| d t]; [congruence |].
  reflexivity.
Qed.

Lemma parseFloat_starts_with_digit (s : string) :
  starts_with_digit s = true -> parseFloat s = parse_unsigned s.
Proof.
  destruct s as [| c r]; [discriminate |]. cbn [starts_with_digit]. intros Hc.
  unfold parseFloat. cbn [trim_start].
  assert (Hws : is_whitespace c = false).
  { unfold is_digit in Hc. unfold is_whitespace. lia. }
  rewrite Hws.
  destruct (Ascii.eqb_spec c "-"%char) as [-> | _]; [discriminate |].
  destruct (Ascii.eqb_spec c "+"%char) as [-> | _]; [discriminate |].
  reflexivity.
Qed.

(** [fixed_toString] in terms of quotient and remainder. *)
Lemma fixed_toString_nonneg (a d : Z) :
  0 <= a -> 0 < d ->
  Ethers.fixed_toString a d
  = digits (a / 10 ^ d) ++ "."
    ++ match strip_zeros (frac_digits (Z.to_nat d) a) with
       | EmptyString => "0"
       | t => t
       end.
Proof.
  intros Ha Hd. unfold Ethers.fixed_toString.
  replace (a <? 0) with false by (symmetry; apply Z.ltb_ge; lia).
  rewrite Z.abs_eq by assumption.
  assert (Hstr :
    repeat_char "0"%char (Z.to_nat (d + 1 - strlen (digits a))) ++ digits a
    = digits (a / 10 ^ d) ++ frac_digits (Z.to_nat d) a).
  { pose proof (padded_digits (Z.to_nat d) a Ha) as H.
    now rewrite Z2Nat.id in H by lia. }
  rewrite Hstr, strlen_append, strlen_frac_digits, Z2Nat.id by lia.
  replace (strlen (digits (a / 10 ^ d)) + d - d)
    with (strlen (digits (a / 10 ^ d))) by lia.
  rewrite take_append, drop_append.
  reflexivity.
Qed.

(** Reading the string of [a / 10^d] back gives the double nearest to
    that quotient. *)
Lemma parseFloat_fixed_toString (a d : Z) :
  0 <= a -> 0 < d ->
  parseFloat (Ethers.fixed_toString a d) = binary64 a (10 ^ d).
Proof.
  intros Ha Hd. rewrite fixed_toString_nonneg by assumption.
  assert (Hpd : 0 < 10 ^ d) by (apply Z.pow_pos_nonneg; lia).
  assert (Hq : 0 <= a / 10 ^ d) by (apply Z.div_pos; lia).
  set (ip := digits (a / 10 ^ d)).
  set (fr := frac_digits (Z.to_nat d) a).
  assert (Dip : forallb_str is_digit ip = true) by (apply digits_are_digits; assumption).
  assert (Nip : ip <> "") by apply digits_nonempty.
  assert (Dfr : forallb_str is_digit fr = true) by apply frac_digits_are_digits.
  assert (Vip : digits_value ip = a / 10 ^ d) by (apply digits_value_digits; assumption).
  assert (Vfr : digits_value fr = a mod 10 ^ d).
  { unfold fr. rewrite digits_value_frac_digits, Z2Nat.id by lia. reflexivity. }
  assert (Lfr : strlen fr = d).
  { unfold fr. rewrite strlen_frac_digits, Z2Nat.id by lia. reflexivity. }
  pose proof (Z.div_mod a (10 ^ d) ltac:(lia)) as Hdm.
  destruct (strip_zeros_spec fr) as (j & Hj).
  pose proof (strip_zeros_are_digits fr Dfr) as Dst.
  assert (Hlen : strlen (strip_zeros fr) + Z.of_nat j = d).
  { rewrite <- Lfr. rewrite Hj at 2. rewrite strlen_append. unfold strlen.
    now rewrite length_repeat_char. }
  assert (Hval : digits_value fr = digits_value (strip_zeros fr) * 10 ^ Z.of_nat j).
  { rewrite Hj at 1. rewrite digits_value_append, digits_value_zeros.
    unfold strlen. rewrite length_repeat_char. lia. }
  assert (Hstart : forall t, starts_with_digit (ip ++ t) = true).
  { intros t. destruct ip as [| c r]; [congruence |].
    cbn in Dip |- *. now apply andb_prop in Dip. }
  rewrite parseFloat_starts_with_digit by apply Hstart.
  destruct (strip_zeros fr) as [| c t] eqn:Hs.
  - rewrite parse_unsigned_decimal; [| assumption | discriminate | assumption | reflexivity].
    unfold decimal. change (0 <=? - strlen "0") with false. cbv iota.
    rewrite Z.opp_involutive, digits_value_append.
    change (digits_value "0") with 0. change (strlen "0") with 1.
    change (10 ^ 1) with 10. rewrite Z.add_0_r.
    change (strlen "") with 0 in Hlen.
    change (digits_value "") with 0 in Hval.
    pose proof (binary64_scale (digits_value ip) 1 10) as E1.
    pose proof (binary64_scale (digits_value ip) 1 (10 ^ d)) as E2.
    rewrite Z.mul_1_l in E1, E2.
    rewrite E1, <- E2 by lia. f_equal. lia.
  - rewrite parse_unsigned_decimal; [| assumption | discriminate | assumption | assumption].
    set (st := String c t) in *.
    assert (0 < strlen st) by (unfold strlen, st; cbn [String.length]; lia).
    unfold decimal.
    replace (0 <=? - strlen st) with false by (symmetry; apply Z.leb_gt; lia).
    rewrite Z.opp_involutive, digits_value_append.
    assert (Hpj : 0 < 10 ^ Z.of_nat j) by (apply Z.pow_pos_nonneg; lia).
    assert (Hsplit : 10 ^ d = 10 ^ strlen st * 10 ^ Z.of_nat j).
    { rewrite <- Z.pow_add_r by lia. now rewrite Hlen. }
    replace a with ((digits_value ip * 10 ^ strlen st + digits_value st)
                    * 10 ^ Z.of_nat j) by nia.
    rewrite Hsplit.
    pose proof (digits_value_nonneg st Dst).
    assert (0 < 10 ^ strlen st) by (apply Z.pow_pos_nonneg; lia).
    symmetry. apply binary64_scale; nia.
Qed.

(** ** The unit converter *)

Lemma toFixed_fixed_notation (m e k : Z) :
  0 <= m ->
  geb (Finite m e) (decimal 1 21) = false ->
  toFixed (Finite m e) k = toFixed_digits m e k.
Proof.
  intros Hm Hlt. unfold toFixed.
  replace (m <? 0) with false by (symmetry; apply Z.ltb_ge; lia).
  rewrite Z.abs_eq, Hlt by assumption. reflexivity.
Qed.

Lemma replace_trim_toFixed (m e k : Z) :
  0 <= m -> 0 < k ->
  geb (Finite m e) (decimal 1 21) = false ->
  replace_trim (toFixed (Finite m e) k) = render_decimal (Finite m e) k.
Proof.
  intros Hm Hk Hlt.
  rewrite toFixed_fixed_notation, toFixed_digits_pos by assumption.
  unfold render_decimal.
  pose proof (toFixed_integer_nonneg m e k Hm ltac:(lia)) as HN.
  apply replace_trim_decimal.
  - apply digits_are_digits, Z.div_pos; [assumption | apply Z.pow_pos_nonneg; lia].
  - apply frac_digits_are_digits.
  - intros H. apply (f_equal String.length) in H.
    rewrite length_frac_digits in H. cbn in H. lia.
Qed.

Lemma toFixed_0 (m e : Z) :
  0 <= m ->
  geb (Finite m e) (decimal 1 21) = false ->
  toFixed (Finite m e) 0 = render_decimal (Finite m e) 0.
Proof.
  intros Hm Hlt. rewrite toFixed_fixed_notation by assumption.
  unfold render_decimal. rewrite toFixed_digits_0.
  change (10 ^ 0) with 1. rewrite Z.div_1_r.
  cbn [Z.to_nat frac_digits trimmed_fraction strip_zeros].
  now rewrite append_nil_r.
Qed.

(** The comparison of the double nearest to [a / d] with the double of a
    decimal literal whose value is [T / d]. *)
Lemma geb_quotient (a T d : Z) (literal : Number) :
  0 <= a -> a < d * 2 ^ 1023 -> 0 < T < d * 2 ^ 1023 -> 0 < d ->
  literal = binary64 T d ->
  nearest (T - 1) d < nearest T d ->
  geb (binary64 a d) literal = (T <=? a).
Proof.
  intros Ha Hab HT Hd -> Hsep. apply geb_binary64_threshold; lia.
Qed.

Lemma literal_1 (d : Z) : 0 < d -> decimal 1 0 = binary64 d d.
Proof.
  intros Hd. pose proof (binary64_scale 1 1 d) as E.
  rewrite !Z.mul_1_l in E. rewrite E by lia. reflexivity.
Qed.

(** A double that is at least 1 is at least 0.001. *)
Lemma geb_1_geb_milli (m e : Z) :
  -1074 <= e ->
  geb (Finite m e) (decimal 1 0) = true ->
  geb (Finite m e) (decimal 1 (-3)) = true.
Proof.
  intros He.
  replace (decimal 1 0) with (Finite 4503599627370496 (-52))
    by (vm_compute; reflexivity).
  replace (decimal 1 (-3)) with (Finite 4611686018427388 (-62))
    by (vm_compute; reflexivity).
  rewrite !geb_finite by lia. intros H. apply Z.leb_le in H. apply Z.leb_le.
  eapply Z.le_trans; [| exact H]. vm_compute. discriminate.
Qed.

Lemma separated_1e15 : nearest (10 ^ 15 - 1) (10 ^ 18) < nearest (10 ^ 15) (10 ^ 18).
Proof. vm_compute. reflexivity. Qed.

Lemma below_1e21_ether :
  nearest (fixed_limit * 10 ^ 18 - 1) (10 ^ 18) < nearest (10 ^ 39) (10 ^ 18).
Proof. vm_compute. reflexivity. Qed.

Lemma below_1e21_gwei :
  nearest (fixed_limit * 10 ^ 9 - 1) (10 ^ 9) < nearest (10 ^ 30) (10 ^ 9).
Proof. vm_compute. reflexivity. Qed.

Lemma geb_quotient_below (a B T d : Z) (literal : Number) :
  0 <= a <= B -> B < d * 2 ^ 1023 -> 0 < T < d * 2 ^ 1023 -> 0 < d ->
  literal = binary64 T d ->
  nearest B d < nearest T d ->
  geb (binary64 a d) literal = false.
Proof.
  intros Ha HB HT Hd -> Hsep.
  destruct (binary64_finite a d ltac:(lia) Hd ltac:(lia))
    as (m1 & e1 & -> & _ & He1 & Hv1).
  destruct (binary64_finite T d ltac:(lia) Hd ltac:(lia))
    as (m2 & e2 & -> & _ & He2 & Hv2).
  rewrite geb_finite, Hv1, Hv2 by assumption.
  apply Z.leb_gt.
  pose proof (nearest_mono a B d ltac:(lia) ltac:(lia) Hd). lia.
Qed.

Lemma separated_1e12 : nearest (10 ^ 12 - 1) (10 ^ 9) < nearest (10 ^ 12) (10 ^ 9).
Proof. vm_compute. reflexivity. Qed.

Lemma separated_1e9 : nearest (10 ^ 9 - 1) (10 ^ 9) < nearest (10 ^ 9) (10 ^ 9).
Proof. vm_compute. reflexivity. Qed.

Lemma formatUnits_in_range (a d : Z) :
  0 <= a < 2 ^ 511 -> Ethers.formatUnits a d = Ok (Ethers.fixed_toString a d).
Proof.
  intros Ha. unfold Ethers.formatUnits, Ethers.checkValue.
  replace (- 2 ^ 511 <=? a) with true by (symmetry; apply Z.leb_le; lia).
  replace (a <? 2 ^ 511) with true by (symmetry; apply Z.ltb_lt; lia).
  reflexivity.
Qed.

(** The tiers of [formatEthFromWei], in terms of the amount. *)
Lemma formatEthFromWei_tiers (a : Z) :
  0 <= a < fixed_limit * 10 ^ 18 ->
  Utils.formatEthFromWei a
  = Ok (render_decimal (binary64 a (10 ^ 18)) (if 10 ^ 15 <=? a then 6 else 9)).
Proof.
  intros Ha. unfold fixed_limit in Ha.
  unfold Utils.formatEthFromWei, Ethers.formatEther.
  rewrite formatUnits_in_range by lia.
  rewrite parseFloat_fixed_toString by lia.
  assert (Hb : a < 10 ^ 18 * 2 ^ 1023) by lia.
  assert (H2 : geb (binary64 a (10 ^ 18)) (decimal 1 (-3)) = (10 ^ 15 <=? a)).
  { apply geb_quotient; try lia.
    - symmetry. apply (binary64_scale 1 (10 ^ 3) (10 ^ 15)); lia.
    - exact separated_1e15. }
  assert (H3 : geb (binary64 a (10 ^ 18)) (decimal 1 21) = false).
  { apply (geb_quotient_below a (fixed_limit * 10 ^ 18 - 1) (10 ^ 39));
      try (unfold fixed_limit; lia).
    - symmetry. apply (binary64_scale (10 ^ 21) 1 (10 ^ 18)); lia.
    - exact below_1e21_ether. }
  destruct (binary64_finite a (10 ^ 18) ltac:(lia) ltac:(lia) Hb)
    as (m & e & Hx & Hm & He & _).
  rewrite Hx in *.
  destruct (geb (Finite m e) (decimal 1 0)) eqn:H1.
  - rewrite (geb_1_geb_milli m e He H1) in H2. rewrite <- H2.
    now rewrite replace_trim_toFixed by (lia || exact H3).
  - rewrite H2. destruct (10 ^ 15 <=? a); now rewrite replace_trim_toFixed by (lia || exact H3).
Qed.

(** The tiers of [formatGweiFromWei], in terms of the amount. *)
Lemma formatGweiFromWei_tiers (a : Z) :
  0 <= a < fixed_limit * 10 ^ 9 ->
  Utils.formatGweiFromWei a
  = Ok (render_decimal (binary64 a (10 ^ 9))
          (if 10 ^ 12 <=? a then 0 else if 10 ^ 9 <=? a then 3 else 6)).
Proof.
  intros Ha. unfold fixed_limit in Ha. unfold Utils.formatGweiFromWei.
  rewrite formatUnits_in_range by lia.
  rewrite parseFloat_fixed_toString by lia.
  assert (Hb : a < 10 ^ 9 * 2 ^ 1023) by lia.
  assert (H1 : geb (binary64 a (10 ^ 9)) (decimal 1000 0) = (10 ^ 12 <=? a)).
  { apply geb_quotient; try lia.
    - symmetry. apply (binary64_scale 1000 1 (10 ^ 9)); lia.
    - exact separated_1e12. }
  assert (H2 : geb (binary64 a (10 ^ 9)) (decimal 1 0) = (10 ^ 9 <=? a)).
  { apply geb_quotient; try lia.
    - apply literal_1. lia.
    - exact separated_1e9. }
  assert (H3 : geb (binary64 a (10 ^ 9)) (decimal 1 21) = false).
  { apply (geb_quotient_below a (fixed_limit * 10 ^ 9 - 1) (10 ^ 30));
      try (unfold fixed_limit; lia).
    - symmetry. apply (binary64_scale (10 ^ 21) 1 (10 ^ 9)); lia.
    - exact below_1e21_gwei. }
  rewrite H1, H2.
  destruct (binary64_finite a (10 ^ 9) ltac:(lia) ltac:(lia) Hb)
    as (m & e & Hx & Hm & _).
  rewrite Hx in *.
  destruct (10 ^ 12 <=? a).
  - now rewrite toFixed_0 by (lia || exact H3).
  - destruct (10 ^ 9 <=? a); now rewrite replace_trim_toFixed by (lia || exact H3).
Qed.

(** ** The total cost *)

(** What a successful estimation returns. *)
Lemma estimate_ok (JsonRpcProvider : value -> Estimator.Provider)
  (to : value) (valueEth : string) (rpcUrl : value)
  (r : Estimator.EstimationResult) :
  Estimator.estimateEthTransfer JsonRpcProvider to valueEth rpcUrl = Ok r ->
  exists (to_s : string) (weiValue gasLimit : Z) (fee : Estimator.FeeData),
    to = VString to_s
    /\ Ethers.parseEther valueEth = Ok weiValue
    /\ Estimator.getFeeData (JsonRpcProvider rpcUrl) = Ok fee
    /\ Estimator.estimateGas (JsonRpcProvider rpcUrl)
         {| Estimator.tx_to := to_s; Estimator.tx_value := weiValue;
            Estimator.tx_data := "0x" |} = Ok gasLimit
    /\ Some (Estimator.gasPriceWei r)
       = Estimator.or_else (Estimator.maxFeePerGas fee) (Estimator.gasPrice fee)
    /\ Estimator.gasPriceWei r <> 0
    /\ Estimator.totalWei r = gasLimit * Estimator.gasPriceWei r
    /\ Estimator.gasUnits r = of_bigint gasLimit.
Proof.
  unfold Estimator.estimateEthTransfer.
  destruct (Estimator.estimate _ _ _ _) as [r' | e] eqn:Hest.
  2:{ repeat match goal with
             | |- context [if ?b then _ else _] => destruct b
             end; discriminate. }
  intros H. injection H as <-.
  unfold Estimator.estimate in Hest.
  destruct to as [| | | | | to_s |]; try discriminate.
  destruct (String.eqb to_s ""); [discriminate |].
  destruct (negb (Estimator.match_recipient to_s)); [discriminate |].
  destruct (Ethers.parseEther valueEth) as [weiValue | ?]; [| discriminate].
  destruct (weiValue <? 0); [discriminate |].
  destruct (Estimator.getFeeData _) as [fee | ?]; [| discriminate].
  cbn [bind] in Hest.
  destruct (Estimator.estimateGas _ _) as [gasLimit | ?] eqn:Hgas; [| discriminate].
  cbn [bind] in Hest.
  destruct (Estimator.or_else _ _) as [gp |] eqn:Hgp; [| discriminate].
  destruct (Z.eqb_spec gp 0); [discriminate |].
  destruct (Utils.formatGweiFromWei gp) as [gwei | ?]; [| discriminate].
  cbn [bind] in Hest.
  destruct (Utils.formatEthFromWei _) as [txt | ?]; [| discriminate].
  cbn [bind] in Hest. injection Hest as <-.
  exists to_s, weiValue, gasLimit, fee. cbn.
  repeat split; auto.
Qed.

(** ** The input validator: positive numbers *)

Lemma round_pos_nonneg (n d : Z) :
  0 < n -> 0 < d ->
  round_pos n d = Infinity false
  \/ exists m e, round_pos n d = Finite m e /\ 0 <= m.
Proof.
  intros Hn Hd.
  assert (HN : 0 < n * 2 ^ 1074) by lia.
  destruct (significand_bounds _ d HN Hd) as (Hm & _).
  unfold round_pos. fold (exponent (n * 2 ^ 1074) d).
  fold (significand (n * 2 ^ 1074) d).
  destruct (2045 <? _); [left; reflexivity | right].
  destruct (_ =? 2 ^ 53); eexists _, _; (split; [reflexivity | lia]).
Qed.

Lemma binary64_nonneg (n d : Z) :
  0 <= n -> 0 < d ->
  binary64 n d = Infinity false
  \/ exists m e, binary64 n d = Finite m e /\ 0 <= m.
Proof.
  intros Hn Hd. unfold binary64.
  destruct (Z.eqb_spec n 0) as [-> | Hne].
  - right. exists 0, (-1074). split; [reflexivity | lia].
  - replace (0 <? n) with true by (symmetry; apply Z.ltb_lt; lia).
    apply round_pos_nonneg; lia.
Qed.

Lemma decimal_nonneg (n k : Z) :
  0 <= n ->
  decimal n k = Infinity false
  \/ exists m e, decimal n k = Finite m e /\ 0 <= m.
Proof.
  intros Hn. unfold decimal. destruct (Z.leb_spec 0 k).
  - apply binary64_nonneg; [| lia].
    assert (0 < 10 ^ k) by (apply Z.pow_pos_nonneg; lia). nia.
  - apply binary64_nonneg; [assumption | apply Z.pow_pos_nonneg; lia].
Qed.

Lemma decimal_zero (k : Z) : decimal 0 k = zero.
Proof. unfold decimal. destruct (0 <=? k); reflexivity. Qed.

(** What [span_digits] returns. *)
Lemma span_digits_spec (s : string) :
  s = fst (span_digits s) ++ snd (span_digits s)
  /\ forallb_str is_digit (fst (span_digits s)) = true
  /\ starts_with_digit (snd (span_digits s)) = false.
Proof.
  induction s as [| c r (IH1 & IH2 & IH3)]; [repeat split |].
  cbn [span_digits]. destruct (is_digit c) eqn:Hc.
  - destruct (span_digits r) as [ds t]. cbn [fst snd] in *.
    repeat split; cbn; [now rewrite <- IH1 | now rewrite Hc, IH2 | assumption].
  - cbn. repeat split. assumption.
Qed.

(** A number is greater than zero when it is finite with a positive
    significand, or plus infinity. *)
Lemma gtb_zero_finite (m e : Z) : gtb (Finite m e) zero = (0 <? m).
Proof.
  unfold gtb, ltb, zero, compare, compare_finite.
  assert (Hk : Z.min (-1074) e <= e) by lia.
  generalize dependent (Z.min (-1074) e). intros k Hk.
  assert (0 < 2 ^ (e - k)) by (apply Z.pow_pos_nonneg; lia).
  rewrite Z.mul_0_l.
  destruct (Z.ltb_spec 0 m) as [Hpos | Hneg].
  - replace (0 ?= m * 2 ^ (e - k)) with Lt; [reflexivity |].
    symmetry. apply Z.compare_lt_iff. nia.
  - destruct (0 ?= m * 2 ^ (e - k)) eqn:Hc; try reflexivity.
    apply -> Z.compare_lt_iff in Hc. exfalso. nia.
Qed.

Lemma isPositiveNumber_parse (v : value) :
  Utils.isPositiveNumber v
  = match v with
    | VString _ | VNumber _ => positive_finite (parseFloat_value v)
    | _ => false
    end.
Proof.
  unfold Utils.isPositiveNumber.
  destruct v; try reflexivity.
  - cbn [parseFloat_value]. destruct x as [| s | m e]; try reflexivity.
    cbn [isNaN isFinite negb andb positive_finite].
    now rewrite decimal_zero, gtb_zero_finite.
  - cbn [parseFloat_value]. destruct (parseFloat s) as [| sg | m e]; try reflexivity.
    cbn [isNaN isFinite negb andb positive_finite].
    now rewrite decimal_zero, gtb_zero_finite.
Qed.

(** The unsigned literal of a string never reads as a negative number. *)
Lemma parse_unsigned_nonneg (s : string) :
  positive_finite (opp (parse_unsigned s)) = false.
Proof.
  unfold parse_unsigned.
  destruct (String.prefix "Infinity" s); [reflexivity |].
  destruct (span_digits_spec s) as (_ & Dip & _).
  destruct (span_digits s) as [ip r1]. cbn [fst] in Dip.
  assert (Hfp : forall fp r2,
    forallb_str is_digit fp = true ->
    positive_finite
      (opp match ip, fp with
           | EmptyString, EmptyString => NaN
           | _, _ => decimal (digits_value (ip ++ fp)) (parse_exponent r2 - strlen fp)
           end) = false).
  { intros fp r2 Dfp.
    assert (Hv : 0 <= digits_value (ip ++ fp)).
    { apply digits_value_nonneg. now rewrite forallb_str_append, Dip, Dfp. }
    destruct (decimal_nonneg _ (parse_exponent r2 - strlen fp) Hv)
      as [E | (m & e & E & Hm)].
    - destruct ip, fp; try reflexivity; now rewrite E.
    - assert (positive_finite (opp (Finite m e)) = false).
      { cbn. apply Z.ltb_ge. lia. }
      destruct ip, fp; try reflexivity; now rewrite E. }
  destruct r1 as [| c r]; [apply (Hfp "" ""); reflexivity |].
  destruct (is_dot c); [| apply (Hfp "" (String c r)); reflexivity].
  destruct (span_digits_spec r) as (_ & Dfp & _).
  destruct (span_digits r) as [fp r2]. cbn [fst] in Dfp.
  destruct ip as [| a ip'].
  - destruct fp as [| b fp'].
    + apply (Hfp "" (String c r)). reflexivity.
    + apply (Hfp (String b fp') r2). assumption.
  - apply (Hfp fp r2). assumption.
Qed.

Lemma span_digits_no_digit (s : string) :
  starts_with_digit s = false -> span_digits s = ("", s).
Proof.
  destruct s as [| c r]; [reflexivity |]. cbn. now intros ->.
Qed.

Lemma parse_unsigned_not_numeric (s : string) :
  numeric_start s = false ->
  parse_unsigned s = NaN \/ parse_unsigned s = Infinity false.
Proof.
  intros H. unfold parse_unsigned.
  destruct (String.prefix "Infinity" s); [right; reflexivity | left].
  destruct s as [| c r]; [reflexivity |].
  cbn [numeric_start] in H. apply orb_false_elim in H as [Hc Hdot].
  rewrite span_digits_no_digit by exact Hc.
  destruct (is_dot c); [| reflexivity].
  cbn [andb] in Hdot. rewrite (span_digits_no_digit r Hdot). reflexivity.
Qed.

Lemma parseFloat_unsigned_part (s : string) :
  parseFloat s = NaN
  \/ parseFloat s = parse_unsigned (unsigned_part s)
  \/ parseFloat s = opp (parse_unsigned (unsigned_part s)).
Proof.
  unfold parseFloat, unsigned_part.
  destruct (trim_start s) as [| c r]; [left; reflexivity | right].
  destruct (Ascii.eqb c "-"); [right; reflexivity |].
  destruct (Ascii.eqb c "+"); left; reflexivity.
Qed.

(** Text that does not start with a numeric literal is refused. *)
Lemma isPositiveNumber_not_numeric (s : string) :
  numeric_start (unsigned_part s) = false ->
  Utils.isPositiveNumber (VString s) = false.
Proof.
  intros H. rewrite isPositiveNumber_parse. cbn [parseFloat_value].
  destruct (parse_unsigned_not_numeric _ H) as [E | E];
    destruct (parseFloat_unsigned_part s) as [-> | [-> | ->]];
    try reflexivity; now rewrite E.
Qed.

(** A string whose first character after the white space is a minus sign
    is refused. *)
Lemma isPositiveNumber_negative (s r : string) :
  trim_start s = String "-"%char r ->
  Utils.isPositiveNumber (VString s) = false.
Proof.
  intros H. rewrite isPositiveNumber_parse. cbn [parseFloat_value].
  unfold parseFloat. rewrite H. cbn. apply parse_unsigned_nonneg.
Qed.

(** *** Strings without a non-zero digit *)

Lemma trim_start_forallb (p : ascii -> bool) (s : string) :
  forallb_str p s = true -> forallb_str p (trim_start s) = true.
Proof.
  induction s as [| c r IH]; [reflexivity |].
  cbn [trim_start]. destruct (is_whitespace c); [| trivial].
  cbn [forallb_str]. intros H. apply andb_prop in H as [_ H]. now apply IH.
Qed.

Lemma unsigned_part_forallb (p : ascii -> bool) (s : string) :
  forallb_str p s = true -> forallb_str p (unsigned_part s) = true.
Proof.
  intros H. apply trim_start_forallb in H. unfold unsigned_part.
  destruct (trim_start s) as [| c r]; [reflexivity |].
  destruct (_ || _); [| assumption].
  cbn [forallb_str] in H. now apply andb_prop in H.
Qed.

Lemma span_digits_forallb (p : ascii -> bool) (s : string) :
  forallb_str p s = true ->
  forallb_str p (fst (span_digits s)) = true
  /\ forallb_str p (snd (span_digits s)) = true.
Proof.
  intros H. destruct (span_digits_spec s) as (E & _ & _).
  rewrite E, forallb_str_append in H. now apply andb_prop in H.
Qed.

Lemma zero_digits_value (s : string) :
  forallb_str is_digit s = true ->
  forallb_str no_nonzero_digit s = true ->
  digits_value s = 0.
Proof.
  intros Hd Hz.
  assert (Hall : forallb_str is_zero_char s = true).
  { induction s as [| c r IH]; [reflexivity |].
    cbn [forallb_str] in *.
    apply andb_prop in Hd as [Hc Hd]. apply andb_prop in Hz as [Hzc Hz].
    unfold no_nonzero_digit in Hzc. rewrite Hc in Hzc. cbn in Hzc.
    now rewrite Hzc, IH. }
  apply strip_zeros_empty in Hall.
  destruct (strip_zeros_spec s) as (j & E). rewrite Hall in E. cbn in E.
  rewrite E. apply digits_value_zeros.
Qed.

Lemma parse_unsigned_zero (s : string) :
  forallb_str no_nonzero_digit s = true ->
  positive_finite (parse_unsigned s) = false.
Proof.
  intros H. unfold parse_unsigned.
  destruct (String.prefix "Infinity" s); [reflexivity |].
  destruct (span_digits_spec s) as (_ & Dip & _).
  destruct (span_digits_forallb _ s H) as (Zip & Zr1).
  destruct (span_digits s) as [ip r1]. cbn [fst snd] in *.
  assert (Hfp : forall fp r2,
    forallb_str is_digit fp = true ->
    forallb_str no_nonzero_digit fp = true ->
    positive_finite
      match ip, fp with
      | EmptyString, EmptyString => NaN
      | _, _ => decimal (digits_value (ip ++ fp)) (parse_exponent r2 - strlen fp)
      end = false).
  { intros fp r2 Dfp Zfp.
    rewrite zero_digits_value, decimal_zero;
      [| now rewrite forallb_str_append, Dip, Dfp
       | now rewrite forallb_str_append, Zip, Zfp].
    destruct ip, fp; reflexivity. }
  destruct r1 as [| c r]; [apply (Hfp "" ""); reflexivity |].
  destruct (is_dot c); [| apply (Hfp "" (String c r)); reflexivity].
  cbn [forallb_str] in Zr1. apply andb_prop in Zr1 as [_ Zr].
  destruct (span_digits_spec r) as (_ & Dfp & _).
  destruct (span_digits_forallb _ r Zr) as (Zfp & _).
  destruct (span_digits r) as [fp r2]. cbn [fst] in *.
  destruct ip as [| a ip'].
  - destruct fp as [| b fp'].
    + apply (Hfp "" (String c r)); reflexivity.
    + apply (Hfp (String b fp') r2); assumption.
  - apply (Hfp fp r2); assumption.
Qed.

(** A string with no digit other than [0] (the empty string, text without
    digits, a zero however it is written) is refused. *)
Lemma isPositiveNumber_no_nonzero_digit (s : string) :
  forallb_str no_nonzero_digit s = true ->
  Utils.isPositiveNumber (VString s) = false.
Proof.
  intros H. rewrite isPositiveNumber_parse. cbn [parseFloat_value].
  destruct (parseFloat_unsigned_part s) as [-> | [-> | ->]].
  - reflexivity.
  - apply parse_unsigned_zero, unsigned_part_forallb, H.
  - apply parse_unsigned_nonneg.
Qed.

(** ** The input validator: addresses *)

Lemma prefix_2 (a b : ascii) (s : string) :
  String.prefix (String a (String b "")) s = true ->
  s = String a (String b (drop 2 s)).
Proof.
  destruct s as [| c [| d t]]; cbn [String.prefix]; try discriminate.
  - destruct (ascii_dec a c); discriminate.
  - destruct (ascii_dec a c) as [<- |]; [| discriminate].
    destruct (ascii_dec b d) as [<- |]; [| discriminate].
    reflexivity.
Qed.

Lemma prefix_2_append (a b : ascii) (t : string) :
  String.prefix (String a (String b "")) (String a (String b t)) = true.
Proof.
  cbn [String.prefix].
  destruct (ascii_dec a a); [| congruence].
  destruct (ascii_dec b b); [| congruence].
  now destruct t.
Qed.

Lemma hex40_length (s : string) : Ethers.hex40 s = true -> String.length s = 40%nat.
Proof.
  unfold Ethers.hex40. intros H. apply andb_prop in H as [H _].
  now apply Nat.eqb_eq.
Qed.

Lemma hex40_no_prefix (s : string) :
  Ethers.hex40 s = true -> String.prefix "0x" s = false.
Proof.
  intros H. destruct (String.prefix "0x" s) eqn:Hp; [| reflexivity].
  apply prefix_2 in Hp. rewrite Hp in H.
  unfold Ethers.hex40 in H. apply andb_prop in H as [_ H].
  cbn in H. discriminate.
Qed.

Lemma upper_lower_disjoint (c : ascii) :
  Ethers.is_upper_hex c && Ethers.is_lower_hex c = false.
Proof. unfold Ethers.is_upper_hex, Ethers.is_lower_hex. lia. Qed.

(** The pattern for mixed case finds a capital and a small hexadecimal
    letter. *)
Lemma match_mixed_case_spec (s : string) :
  Ethers.match_mixed_case s
  = existsb_str Ethers.is_upper_hex s && existsb_str Ethers.is_lower_hex s.
Proof.
  induction s as [| c r IH]; [reflexivity |].
  cbn [Ethers.match_mixed_case existsb_str]. rewrite IH.
  pose proof (upper_lower_disjoint c).
  destruct (Ethers.is_upper_hex c), (Ethers.is_lower_hex c),
    (existsb_str Ethers.is_upper_hex r), (existsb_str Ethers.is_lower_hex r);
    try reflexivity; discriminate.
Qed.

Lemma checksum_test (h : string) :
  negb (Ethers.match_mixed_case ("0x" ++ h))
  || String.eqb (Ethers.getChecksumAddress ("0x" ++ h)) ("0x" ++ h) = true
  <-> casing_ok h.
Proof.
  rewrite match_mixed_case_spec. unfold casing_ok.
  change (existsb_str Ethers.is_upper_hex ("0x" ++ h))
    with (existsb_str Ethers.is_upper_hex h).
  change (existsb_str Ethers.is_lower_hex ("0x" ++ h))
    with (existsb_str Ethers.is_lower_hex h).
  rewrite orb_true_iff, negb_true_iff, andb_false_iff, String.eqb_eq. tauto.
Qed.

Lemma hex40_spec (h : string) : Ethers.hex40 h = true <-> hex_digits_40 h.
Proof.
  unfold Ethers.hex40, hex_digits_40. now rewrite andb_true_iff, Nat.eqb_eq.
Qed.

Lemma strlen_eqb (s : string) (n : nat) :
  (strlen s =? Z.of_nat n) = true <-> String.length s = n.
Proof. unfold strlen. rewrite Z.eqb_eq. lia. Qed.

Lemma match_icap_spec (s : string) :
  Ethers.match_icap s = true
  /\ String.eqb (take 2 (drop 2 s)) (Ethers.ibanChecksum s) = true
  <-> icap_ok s.
Proof.
  unfold Ethers.match_icap, icap_ok. split.
  - intros (Hm & Hc). apply String.eqb_eq in Hc.
    apply andb_prop in Hm as [Hm HE]. apply andb_prop in Hm as [Hm HD].
    apply andb_prop in Hm as [Hm HC]. apply andb_prop in Hm as [HA HB].
    apply prefix_2 in HA. rewrite HA in *.
    change (drop 2 (String "X" (String "E" (drop 2 s)))) with (drop 2 s) in *.
    change (drop 4 (String "X" (String "E" (drop 2 s)))) with (drop 2 (drop 2 s)) in *.
    destruct (drop 2 s) as [| c1 [| c2 b]]; try discriminate.
    change (take 2 (String c1 (String c2 b))) with (String c1 (String c2 "")) in *.
    change (drop 2 (String c1 (String c2 b))) with b in *.
    cbn [forallb_str] in HB.
    apply andb_prop in HB as [D1 HB]. apply andb_prop in HB as [D2 _].
    exists c1, c2, b. repeat split; auto.
    apply orb_prop in HE as [H | H].
    + left. now apply (strlen_eqb b 30).
    + right. now apply (strlen_eqb b 31).
  - intros (c1 & c2 & b & -> & D1 & D2 & Hb & Hlen & Hc).
    change (drop 4 (String "X" (String "E" (String c1 (String c2 b))))) with b.
    change (take 2 (drop 2 (String "X" (String "E" (String c1 (String c2 b))))))
      with (String c1 (String c2 "")).
    rewrite Hc, String.eqb_refl, prefix_2_append.
    cbn [forallb_str]. rewrite D1, D2, Hb. cbn [andb].
    split; [| reflexivity].
    change (strlen (String c1 (String c2 "")) =? 2) with true. cbn [andb].
    destruct Hlen as [Hl | Hl].
    + replace (strlen b =? 30) with true; [reflexivity |].
      symmetry. now apply (strlen_eqb b 30).
    + replace (strlen b =? 31) with true; [apply orb_true_r |].
      symmetry. now apply (strlen_eqb b 31).
Qed.

Lemma icap_not_hex (s : string) :
  icap_ok s -> Ethers.match_address s = false.
Proof.
  intros (c1 & c2 & b & -> & _ & _ & _ & Hlen & _).
  unfold Ethers.match_address, Ethers.hex40.
  change (String.prefix "0x" _) with false. cbn [andb orb String.length].
  destruct Hlen as [-> | ->]; reflexivity.
Qed.

(** What [getAddress] accepts. *)
Lemma getAddress_ok_spec (s : string) :
  Ethers.getAddress_ok s = true
  <-> (exists h, (s = h \/ s = "0x" ++ h) /\ hex_digits_40 h /\ casing_ok h)
      \/ icap_ok s.
Proof.
  unfold Ethers.getAddress_ok. split.
  - destruct (Ethers.match_address s) eqn:Hm.
    + intros H. left. unfold Ethers.match_address in Hm.
      apply orb_prop in Hm as [Hm | Hm].
      * apply andb_prop in Hm as [Hp Hh]. rewrite Hp in H.
        apply prefix_2 in Hp. exists (drop 2 s).
        rewrite Hp in H at 1 2 3. apply checksum_test in H.
        split; [right; exact Hp |]. split; [now apply hex40_spec | exact H].
      * rewrite (hex40_no_prefix s Hm) in H. apply checksum_test in H.
        exists s. split; [now left |]. split; [now apply hex40_spec | exact H].
    + destruct (Ethers.match_icap s) eqn:Hi; [| discriminate].
      intros H. right. apply match_icap_spec. now split.
  - intros [(h & Hs & Hh & Hc) | Hi].
    + apply hex40_spec in Hh. apply checksum_test in Hc.
      destruct Hs as [-> | ->].
      * unfold Ethers.match_address. rewrite Hh, orb_true_r.
        now rewrite (hex40_no_prefix h Hh).
      * unfold Ethers.match_address.
        change (String.prefix "0x" ("0x" ++ h)) with (String.prefix "0x" (String "0" (String "x" h))).
        rewrite prefix_2_append.
        change (drop 2 ("0x" ++ h)) with h. rewrite Hh. cbn [andb orb].
        exact Hc.
    + rewrite (icap_not_hex s Hi). apply match_icap_spec in Hi as [-> ->].
      reflexivity.
Qed.

(** ** The claims about the fee estimator's result *)

(** C3 (amended): for every result of the fee estimator, [totalWei] is
    the exact integer product of [gasPriceWei] and the gas estimate
    [gasLimit] the node returned for the transaction (the recipient, the
    amount read from the input and no data); [gasUnits] is that estimate
    converted to a double, and it is the estimate itself, so that
    [totalWei] is the product of the two fields, whenever the estimate is
    at most [2^53] in absolute value. *)
Theorem total_is_exact_product
  (JsonRpcProvider : value -> Estimator.Provider)
  (to : value) (valueEth : string) (rpcUrl : value)
  (r : Estimator.EstimationResult) :
  Estimator.estimateEthTransfer JsonRpcProvider to valueEth rpcUrl = Ok r ->
  exists (to_s : string) (weiValue gasLimit : Z),
    to = VString to_s
    /\ Ethers.parseEther valueEth = Ok weiValue
    /\ Estimator.estimateGas (JsonRpcProvider rpcUrl)
         {| Estimator.tx_to := to_s; Estimator.tx_value := weiValue;
            Estimator.tx_data := "0x" |} = Ok gasLimit
    /\ Estimator.gasUnits r = of_bigint gasLimit
    /\ Estimator.totalWei r = gasLimit * Estimator.gasPriceWei r
    /\ (Z.abs gasLimit <= 2 ^ 53 ->
        to_Z (Estimator.gasUnits r) = Some gasLimit).
Proof.
  intros H.
  destruct (estimate_ok _ _ _ _ _ H)
    as (to_s & weiValue & gasLimit & fee
        & Hto & Hparse & _ & Hgas & _ & _ & Htotal & Hunits).
  exists to_s, weiValue, gasLimit.
  split; [exact Hto |]. split; [exact Hparse |]. split; [exact Hgas |].
  split; [exact Hunits |]. split; [exact Htotal |].
  intros Hsmall. rewrite Hunits. now apply of_bigint_exact.
Qed.

Lemma total_is_exact_product_witness :
  exists (to_s : string) (weiValue gasLimit : Z),
    VString "0xd8dA6BF26964aF9D7eEd9e03E53415D37aA96045" = VString to_s
    /\ Ethers.parseEther "0.1" = Ok weiValue
    /\ Estimator.estimateGas (sample_node (VString "https://mainnet.base.org"))
         {| Estimator.tx_to := to_s; Estimator.tx_value := weiValue;
            Estimator.tx_data := "0x" |} = Ok gasLimit
    /\ Estimator.gasUnits sample_result = of_bigint gasLimit
    /\ Estimator.totalWei sample_result
       = gasLimit * Estimator.gasPriceWei sample_result
    /\ (Z.abs gasLimit <= 2 ^ 53 ->
        to_Z (Estimator.gasUnits sample_result) = Some gasLimit).
Proof.
  apply (total_is_exact_product sample_node
           (VString "0xd8dA6BF26964aF9D7eEd9e03E53415D37aA96045") "0.1"
           (VString "https://mainnet.base.org") sample_result).
  vm_compute. reflexivity.
Defined.

(** C3, as stated, fails: with a gas estimate of [2^53 + 1] and a gas
    price of 1 wei the estimator returns [gasUnits = 2^53] and
    [totalWei = 2^53 + 1], which is not the product of the two fields. *)
Lemma total_is_not_product_of_fields :
  exists r : Estimator.EstimationResult,
    Estimator.estimateEthTransfer huge_estimate_node
      (VString "0xd8dA6BF26964aF9D7eEd9e03E53415D37aA96045") "0.1"
      (VString "https://mainnet.base.org") = Ok r
    /\ to_Z (Estimator.gasUnits r) = Some (2 ^ 53)
    /\ Estimator.gasPriceWei r = 1
    /\ Estimator.totalWei r = 2 ^ 53 + 1
    /\ Estimator.totalWei r <> 2 ^ 53 * Estimator.gasPriceWei r.
Proof.
  eexists. split; [vm_compute; reflexivity |].
  repeat split; try (vm_compute; reflexivity).
  vm_compute. discriminate.
Qed.

(** ** The claims about the unit converter *)

(** The digits of the fraction after trimming are at most those before
    it, and the last of them is not a zero. *)
Lemma strip_zeros_length (s : string) : strlen (strip_zeros s) <= strlen s.
Proof.
  destruct (strip_zeros_spec s) as (j & E). rewrite E at 2.
  rewrite strlen_append. pose proof (strlen_nonneg (repeat_char "0" j)). lia.
Qed.

Lemma strip_zeros_idempotent (s : string) :
  strip_zeros (strip_zeros s) = strip_zeros s.
Proof.
  induction s as [| c r IH]; [reflexivity |].
  cbn [strip_zeros]. destruct (strip_zeros r) as [| d t] eqn:Hr.
  - destruct (is_zero_char c) eqn:Hc; [reflexivity |]. cbn. now rewrite Hc.
  - cbn [strip_zeros] in *. rewrite IH. reflexivity.
Qed.

(** The integer [toFixed] prints is within one half of the scaled value. *)
Lemma round_half_up_near (n d : Z) :
  0 < d ->
  2 * n - d < 2 * d * round_half_up n d <= 2 * n + d.
Proof.
  intros Hd. unfold round_half_up.
  pose proof (Z.div_mod (2 * n + d) (2 * d) ltac:(lia)) as E.
  pose proof (Z.mod_pos_bound (2 * n + d) (2 * d) ltac:(lia)) as B.
  lia.
Qed.

(** The significand of a double is within one half of the scaled
    quotient. *)
Lemma round_half_even_error (n D : Z) :
  0 < D ->
  2 * n - D <= 2 * D * round_half_even n D <= 2 * n + D.
Proof.
  intros HD. unfold round_half_even.
  pose proof (Z.div_mod n D ltac:(lia)) as E.
  pose proof (Z.mod_pos_bound n D ltac:(lia)) as B.
  destruct (Z.compare_spec (2 * (n mod D)) D);
    [destruct (Z.even (n / D)) | |]; nia.
Qed.

(** C6 (amended): for every amount [a] with
    [0 <= a < (10^21 - 65536) * 10^18], that is, whose quotient by [10^18]
    rounds to a double below [10^21], [formatEthFromWei] returns the
    decimal string of the double nearest to [a / 10^18] with up to 6
    decimal places when [a >= 10^15] (a quotient of at least 0.001) and up
    to 9 otherwise, without trailing zeros and without a trailing dot;
    and it returns "1" for [10^18] and "0.1" for [10^17]. *)
Theorem formatEthFromWei_renders (a : Z) :
  0 <= a < fixed_limit * 10 ^ 18 ->
  Utils.formatEthFromWei a
  = Ok (render_decimal (binary64 a (10 ^ 18)) (if 10 ^ 15 <=? a then 6 else 9))
  /\ Utils.formatEthFromWei (10 ^ 18) = Ok "1"
  /\ Utils.formatEthFromWei (10 ^ 17) = Ok "0.1".
Proof.
  intros Ha. split; [now apply formatEthFromWei_tiers |].
  split; vm_compute; reflexivity.
Qed.

Lemma formatEthFromWei_renders_witness :
  Utils.formatEthFromWei 39837000000000
  = Ok (render_decimal (binary64 39837000000000 (10 ^ 18))
          (if 10 ^ 15 <=? 39837000000000 then 6 else 9))
  /\ Utils.formatEthFromWei (10 ^ 18) = Ok "1"
  /\ Utils.formatEthFromWei (10 ^ 17) = Ok "0.1".
Proof.
  apply (formatEthFromWei_renders 39837000000000).
  vm_compute. split; [discriminate | reflexivity].
Defined.

(** C6, as stated, fails, in the two ways the amended claim differs from
    it.  The quotient is rounded to a double before it is printed:
    [(2^53 + 1) * 10^18] wei, exactly [2^53 + 1] ether, is printed as
    [2^53], and [999999499999999999] wei, which is 0.999999 ether with
    six decimals, is printed as "1".  And from [10^21] on the number is
    printed in exponent notation: [1.5 * 10^39] wei, exactly
    [1.5 * 10^21] ether, is printed as "1.5e+21". *)
Lemma formatEthFromWei_diverges :
  (Utils.formatEthFromWei ((2 ^ 53 + 1) * 10 ^ 18) = Ok "9007199254740992"
   /\ ((2 ^ 53 + 1) * 10 ^ 18) mod 10 ^ 18 = 0
   /\ digits ((2 ^ 53 + 1) * 10 ^ 18 / 10 ^ 18) = "9007199254740993")
  /\ (Utils.formatEthFromWei 999999499999999999 = Ok "1"
      /\ round_half_up 999999499999999999 (10 ^ 12) = 999999
      /\ 999999499999999999 / 10 ^ 12 = 999999)
  /\ (Utils.formatEthFromWei (15 * 10 ^ 38) = Ok "1.5e+21"
      /\ (15 * 10 ^ 38) mod 10 ^ 18 = 0
      /\ digits (15 * 10 ^ 38 / 10 ^ 18) = "1500000000000000000000").
Proof.
  repeat match goal with |- _ /\ _ => split end; vm_compute; reflexivity.
Qed.

(** In exponent notation the trimming of the zeros goes wrong as well: it
    removes the zeros at the end of the exponent, so that [10^48] wei,
    [10^30] ether, is printed as "1e+3", which reads as a thousand.  The
    amended claim says nothing about these amounts. *)
Example formatEthFromWei_exponent_trimmed :
  Utils.formatEthFromWei (10 ^ 48) = Ok "1e+3"
  /\ digits (10 ^ 48 / 10 ^ 18) = "1000000000000000000000000000000"
  /\ parseFloat "1e+3" = of_bigint 1000.
Proof.
  repeat match goal with |- _ /\ _ => split end; vm_compute; reflexivity.
Qed.

(** The double nearest to [n / d] is within half a unit in the last place
    of it: with [N = n * 2^1074] and the exponent [e] of the result,
    [|nearest n d - N / d| <= 2^e / 2]. *)
Lemma nearest_error (n d : Z) :
  0 < n -> 0 < d ->
  2 * (n * 2 ^ 1074) - d * 2 ^ exponent (n * 2 ^ 1074) d
  <= 2 * d * nearest n d
  <= 2 * (n * 2 ^ 1074) + d * 2 ^ exponent (n * 2 ^ 1074) d.
Proof.
  intros Hn Hd. unfold nearest, significand.
  replace (n =? 0) with false by (symmetry; apply Z.eqb_neq; lia).
  assert (HN : 0 < n * 2 ^ 1074) by lia.
  destruct (exponent_spec _ d HN Hd) as (He & _ & _).
  set (e := exponent (n * 2 ^ 1074) d) in *.
  assert (HD : 0 < d * 2 ^ e).
  { apply Z.mul_pos_pos; [lia | apply Z.pow_pos_nonneg; lia]. }
  pose proof (round_half_even_error (n * 2 ^ 1074) (d * 2 ^ e) HD). lia.
Qed.

(** The bound of the amounts is the best one: at the bound itself the
    quotient rounds to [10^21], and the output is in exponent notation. *)
Example formatEthFromWei_at_limit :
  Utils.formatEthFromWei (fixed_limit * 10 ^ 18) = Ok "1e+21"
  /\ Utils.formatEthFromWei (fixed_limit * 10 ^ 18 - 1)
     = Ok "999999999999999868928".
Proof. split; vm_compute; reflexivity. Qed.

(** C7 (amended): for every amount [a] with
    [0 <= a < (10^21 - 65536) * 10^9], that is, whose quotient by [10^9]
    rounds to a double below [10^21], [formatGweiFromWei] returns the
    decimal string of the double nearest to [a / 10^9] with 0 decimal
    places when [a >= 10^12] (a quotient of at least 1000), up to 3 when
    [a >= 10^9] (at least 1) and up to 6 otherwise, without trailing zeros
    in the fraction and without a trailing dot; and it returns "1" for
    [10^9] and "1.5" for [1.5 * 10^9]. *)
Theorem formatGweiFromWei_renders (a : Z) :
  0 <= a < fixed_limit * 10 ^ 9 ->
  Utils.formatGweiFromWei a
  = Ok (render_decimal (binary64 a (10 ^ 9))
          (if 10 ^ 12 <=? a then 0 else if 10 ^ 9 <=? a then 3 else 6))
  /\ Utils.formatGweiFromWei (10 ^ 9) = Ok "1"
  /\ Utils.formatGweiFromWei 1500000000 = Ok "1.5".
Proof.
  intros Ha. split; [now apply formatGweiFromWei_tiers |].
  split; vm_compute; reflexivity.
Qed.

Lemma formatGweiFromWei_renders_witness :
  Utils.formatGweiFromWei 1897000
  = Ok (render_decimal (binary64 1897000 (10 ^ 9))
          (if 10 ^ 12 <=? 1897000 then 0
           else if 10 ^ 9 <=? 1897000 then 3 else 6))
  /\ Utils.formatGweiFromWei (10 ^ 9) = Ok "1"
  /\ Utils.formatGweiFromWei 1500000000 = Ok "1.5".
Proof.
  apply (formatGweiFromWei_renders 1897000).
  vm_compute. split; [discriminate | reflexivity].
Defined.

(** C7, as stated, fails, in the two ways the amended claim differs from
    it.  The quotient is rounded to a double before it is printed:
    [(2^53 + 1) * 10^9] wei, exactly [2^53 + 1] gwei, is printed as
    [2^53].  And from [10^21] on the number is printed in exponent
    notation: [1.5 * 10^30] wei, exactly [1.5 * 10^21] gwei, is printed
    as "1.5e+21", and so is the first amount out of the range of the
    amended claim, as "1e+21". *)
Lemma formatGweiFromWei_diverges :
  (Utils.formatGweiFromWei ((2 ^ 53 + 1) * 10 ^ 9) = Ok "9007199254740992"
   /\ ((2 ^ 53 + 1) * 10 ^ 9) mod 10 ^ 9 = 0
   /\ digits ((2 ^ 53 + 1) * 10 ^ 9 / 10 ^ 9) = "9007199254740993")
  /\ (Utils.formatGweiFromWei (15 * 10 ^ 29) = Ok "1.5e+21"
      /\ (15 * 10 ^ 29) mod 10 ^ 9 = 0
      /\ digits (15 * 10 ^ 29 / 10 ^ 9) = "1500000000000000000000")
  /\ (Utils.formatGweiFromWei (fixed_limit * 10 ^ 9) = Ok "1e+21"
      /\ (fixed_limit * 10 ^ 9) mod 10 ^ 9 = 0
      /\ digits (fixed_limit * 10 ^ 9 / 10 ^ 9) = "999999999999999934464").
Proof.
  repeat match goal with |- _ /\ _ => split end; vm_compute; reflexivity.
Qed.

(** ** The claim about positive numbers *)

Lemma positive_finite_spec (x : Number) :
  positive_finite x = true <-> exists m e, x = Finite m e /\ 0 < m.
Proof.
  split.
  - destruct x as [| s | m e]; try discriminate.
    cbn. intros H. apply Z.ltb_lt in H. eauto.
  - intros (m & e & -> & H). cbn. now apply Z.ltb_lt.
Qed.

(** The validator in terms of [parseFloat]: [isPositiveNumber] returns
    true exactly for a string or a number that [parseFloat] reads as a
    finite number greater than zero (for a string, from the literal at its
    start, whatever follows).  It
    returns false for the empty string, for text that does not start
    (after white space and a sign) with a numeric literal, for a string
    with no digit other than 0, for a string whose first character after
    the white space is a minus sign, for a number that is zero or
    negative, and for a value that is neither a string nor a number. *)
Theorem isPositiveNumber_spec :
  (forall v, Utils.isPositiveNumber v = true <->
             ((exists s, v = VString s) \/ (exists x, v = VNumber x))
             /\ exists m e, parseFloat_value v = Finite m e /\ 0 < m)
  /\ Utils.isPositiveNumber (VString "") = false
  /\ (forall s, numeric_start (unsigned_part s) = false ->
                Utils.isPositiveNumber (VString s) = false)
  /\ (forall s, forallb_str no_nonzero_digit s = true ->
                Utils.isPositiveNumber (VString s) = false)
  /\ (forall s r, trim_start s = String "-"%char r ->
                  Utils.isPositiveNumber (VString s) = false)
  /\ (forall m e, m <= 0 -> Utils.isPositiveNumber (VNumber (Finite m e)) = false)
  /\ (forall v, (forall s, v <> VString s) -> (forall x, v <> VNumber x) ->
                Utils.isPositiveNumber v = false)
  /\ Utils.isPositiveNumber (VString "0.1") = true
  /\ Utils.isPositiveNumber (VString "1.5") = true
  /\ Utils.isPositiveNumber (VString "-1") = false
  /\ Utils.isPositiveNumber (VString "abc") = false
  /\ Utils.isPositiveNumber (VString "0") = false.
Proof.
  split.
  { intros v. rewrite isPositiveNumber_parse. split.
    - destruct v; try discriminate; intros H; apply positive_finite_spec in H;
        (split; [eauto | exact H]).
    - intros ([(s & ->) | (x & ->)] & H); now apply positive_finite_spec. }
  split; [reflexivity |].
  split; [exact isPositiveNumber_not_numeric |].
  split; [exact isPositiveNumber_no_nonzero_digit |].
  split; [exact isPositiveNumber_negative |].
  split.
  { intros m e Hm. rewrite isPositiveNumber_parse. cbn. apply Z.ltb_ge. lia. }
  split.
  { intros v Hs Hn. destruct v; try reflexivity.
    - now destruct (Hn x).
    - now destruct (Hs s). }
  repeat split; vm_compute; reflexivity.
Qed.

(** ** The claim about addresses *)

(** C9 (amended): [isValidAddress] returns true exactly for a string that
    is either forty hexadecimal digits, with or without the prefix [0x],
    whose letters are all small, or all capital, or capital where the
    checksum says; or an ICAP address with valid check digits.  Any other
    string and any value that is not a string give false. *)
Theorem isValidAddress_spec (v : value) :
  Utils.isValidAddress v = true <->
  exists s, v = VString s
            /\ ((exists h, (s = h \/ s = "0x" ++ h)
                           /\ hex_digits_40 h /\ casing_ok h)
                \/ icap_ok s).
Proof.
  unfold Utils.isValidAddress, Ethers.isAddress. split.
  - destruct v; try discriminate. intros H. exists s. split; [reflexivity |].
    now apply getAddress_ok_spec.
  - intros (s & -> & H). now apply getAddress_ok_spec.
Qed.

(** C9, as stated, fails: forty hexadecimal digits without the prefix
    are accepted. *)
Lemma isValidAddress_without_prefix :
  Utils.isValidAddress (VString "d8da6bf26964af9d7eed9e03e53415d37aa96045") = true
  /\ String.length "d8da6bf26964af9d7eed9e03e53415d37aa96045" = 40%nat
  /\ String.prefix "0x" "d8da6bf26964af9d7eed9e03e53415d37aa96045" = false.
Proof. repeat split; vm_compute; reflexivity. Qed.

(** For a string with the prefix the validator is the check the
    specification describes. *)
Lemma isValidAddress_prefixed (h : string) :
  Utils.isValidAddress (VString ("0x" ++ h)) = true
  <-> hex_digits_40 h /\ casing_ok h.
Proof.
  unfold Utils.isValidAddress, Ethers.isAddress.
  rewrite getAddress_ok_spec. split.
  - intros [(h' & [E | E] & Hh & Hc) | (c1 & c2 & b & E & _)].
    + exfalso. subst h'. destruct Hh as [_ Hh]. cbn in Hh. discriminate.
    + injection E as <-. now split.
    + discriminate.
  - intros (Hh & Hc). left. exists h. auto.
Qed.

Lemma isValidAddress_not_string (v : value) :
  (forall s, v <> VString s) -> Utils.isValidAddress v = false.
Proof. intros H. destruct v; try reflexivity. now destruct (H s). Qed.

Example isValidAddress_examples :
  Utils.isValidAddress (VString "0xd8dA6BF26964aF9D7eEd9e03E53415D37aA96045") = true
  /\ Utils.isValidAddress (VString "0x000000000000000000000000000000000000dead") = true
  /\ Utils.isValidAddress (VString "0x742D35cC6634c0532925a3b8D4c9Db96C4B5Da5e") = true
  /\ Utils.isValidAddress (VString "0xD8dA6BF26964aF9D7eEd9e03E53415D37aA96045") = false
  /\ Utils.isValidAddress (VString "XE7338O073KYGTWWZN0F2WZ0R8PX5ZPPZS") = true
  /\ Utils.isValidAddress (VString "invalid-address") = false
  /\ Utils.isValidAddress (VString "0x123") = false
  /\ Utils.isValidAddress (VString "0xGGGGGGGGGGGGGGGGGGGGGGGGGGGGGGGGGGGGGGGG") = false
  /\ Utils.isValidAddress (VString "") = false.
Proof. repeat split; vm_compute; reflexivity. Qed.

(** ** The command dispatcher *)

Section TransferCommand.

Variable host : Cli.Host.
Variable options : Cli.Options.

Hypothesis valid_to : Utils.isValidAddress (VString (Cli.to options)) = true.
Hypothesis valid_value : Utils.isPositiveNumber (VString (Cli.value options)) = true.
Hypothesis valid_network :
  existsb (String.eqb (Cli.network options)) Cli.validNetworks = true.

Lemma valid_network_rpcUrl :
  exists url, Utils.getRpcUrl (Cli.network options) = Ok (VString url).
Proof.
  unfold Cli.validNetworks in valid_network. simpl in valid_network.
  destruct (String.eqb_spec (Cli.network options) "base") as [-> | _].
  - eexists. reflexivity.
  - destruct (String.eqb_spec (Cli.network options) "base-sepolia") as [-> | _].
    + eexists. reflexivity.
    + discriminate.
Qed.

Lemma handleTransfer_settled :
  Cli.handleTransfer host options =
  match
    (rpcUrl <- Utils.getRpcUrl (Cli.network options) ;;
     Cli.promise_all (Cli.price_settles_first host)
       (Price.getEthUsdPrice (Cli.http_get host))
       (Estimator.estimateEthTransfer (Cli.JsonRpcProvider host)
          (VString (Cli.to options)) (Cli.value options) rpcUrl))
  with
  | Ok (ethPrice, estimation) =>
      {| Cli.stdout := Cli.displayResults host estimation ethPrice;
         Cli.stderr := [];
         Cli.exitCode := 0 |}
  | Throw error => Cli.exit1 [ "Error: " ++ message error ]
  end.
Proof.
  unfold Cli.handleTransfer.
  rewrite valid_to, valid_value, valid_network. reflexivity.
Qed.

End TransferCommand.

(** Whatever makes the request fail, the price fetcher fails. *)
Lemma getEthUsdPrice_rejected (e : error) :
  exists e', Price.getEthUsdPrice (Price.Rejected e) = Throw e'.
Proof.
  unfold Price.getEthUsdPrice. cbn [Price.fetch_and_validate].
  repeat match goal with
         | |- context [if ?b then _ else _] => destruct b
         | |- context [match ?o with Some _ => _ | None => _ end] => destruct o
         end; eauto.
Qed.

(** C1 (as the code has it): when the inputs are valid and the fee
    estimation succeeds but the price fetch fails, the command prints
    nothing on the standard output, writes the message of the price
    failure to the standard error and exits with code 1: no line with the
    gas cost and no [N/A] is printed. *)
Theorem price_failure_is_fatal
  (host : Cli.Host) (options : Cli.Options) (rpcUrl : value)
  (e : error) (r : Estimator.EstimationResult) :
  Utils.isValidAddress (VString (Cli.to options)) = true ->
  Utils.isPositiveNumber (VString (Cli.value options)) = true ->
  existsb (String.eqb (Cli.network options)) Cli.validNetworks = true ->
  Utils.getRpcUrl (Cli.network options) = Ok rpcUrl ->
  Price.getEthUsdPrice (Cli.http_get host) = Throw e ->
  Estimator.estimateEthTransfer (Cli.JsonRpcProvider host)
    (VString (Cli.to options)) (Cli.value options) rpcUrl = Ok r ->
  Cli.handleTransfer host options =
  {| Cli.stdout := []; Cli.stderr := ["Error: " ++ message e]; Cli.exitCode := 1 |}.
Proof.
  intros Hto Hval Hnet Hurl Hprice Hest.
  rewrite handleTransfer_settled by assumption.
  rewrite Hurl. cbn [bind]. rewrite Hprice, Hest. reflexivity.
Qed.

(** The command exits with code 0 only when the price was fetched. *)
Lemma exit0_needs_price (host : Cli.Host) (options : Cli.Options) :
  Cli.exitCode (Cli.handleTransfer host options) = 0 ->
  exists price, Price.getEthUsdPrice (Cli.http_get host) = Ok price.
Proof.
  unfold Cli.handleTransfer.
  destruct (Utils.isValidAddress _); [| discriminate].
  destruct (Utils.isPositiveNumber _); [| discriminate].
  destruct (existsb _ _); [| discriminate].
  cbn [negb].
  destruct (Utils.getRpcUrl _) as [url | e]; [| discriminate].
  cbn [bind].
  destruct (Price.getEthUsdPrice _) as [price | e]; [eauto |].
  destruct (Estimator.estimateEthTransfer _ _ _ _); discriminate.
Qed.

Lemma price_failure_is_fatal_witness :
  Cli.handleTransfer timeout_host sample_options =
  {| Cli.stdout := [];
     Cli.stderr := ["Error: Price API request timed out. Please try again."];
     Cli.exitCode := 1 |}.
Proof.
  eapply (price_failure_is_fatal timeout_host sample_options
            (VString "https://mainnet.base.org")
            (Error "Price API request timed out. Please try again."));
    vm_compute; reflexivity.
Defined.

(** ** The fee estimator *)

Lemma match_recipient_nonempty (s : string) :
  Estimator.match_recipient s = true -> String.eqb s "" = false.
Proof. destruct s; [discriminate | reflexivity]. Qed.

(** C2 (as the code has it): when the recipient and the amount are valid
    and the fee data are obtained, a failure of the remote gas-estimate
    call makes the estimator fail: no result with the fallback value 21000
    is returned. *)
Theorem estimate_failure_is_fatal
  (JsonRpcProvider : value -> Estimator.Provider)
  (to valueEth : string) (rpcUrl : value)
  (weiValue : Z) (fee : Estimator.FeeData) (e : error) :
  Estimator.match_recipient to = true ->
  Ethers.parseEther valueEth = Ok weiValue ->
  0 <= weiValue ->
  Estimator.getFeeData (JsonRpcProvider rpcUrl) = Ok fee ->
  Estimator.estimateGas (JsonRpcProvider rpcUrl)
    {| Estimator.tx_to := to; Estimator.tx_value := weiValue;
       Estimator.tx_data := "0x" |} = Throw e ->
  exists e', Estimator.estimateEthTransfer JsonRpcProvider (VString to)
               valueEth rpcUrl = Throw e'.
Proof.
  intros Hto Hparse Hpos Hfee Hgas.
  unfold Estimator.estimateEthTransfer, Estimator.estimate.
  rewrite (match_recipient_nonempty _ Hto), Hto, Hparse. cbn [negb].
  replace (weiValue <? 0) with false by (symmetry; apply Z.ltb_ge; exact Hpos).
  rewrite Hfee. cbn [bind]. rewrite Hgas. cbn [bind].
  repeat match goal with
         | |- context [if ?b then _ else _] => destruct b
         end; eauto.
Qed.

Lemma estimate_failure_is_fatal_witness :
  exists e', Estimator.estimateEthTransfer failing_estimate_node
               (VString "0xd8dA6BF26964aF9D7eEd9e03E53415D37aA96045")
               "0.1" (VString "https://mainnet.base.org") = Throw e'.
Proof.
  eapply (estimate_failure_is_fatal failing_estimate_node
            "0xd8dA6BF26964aF9D7eEd9e03E53415D37aA96045" "0.1"
            (VString "https://mainnet.base.org") (10 ^ 17));
    [ reflexivity | reflexivity | lia | reflexivity | reflexivity ].
Defined.

(** The error the caller sees there is the one of the node. *)
Example estimate_failure_message :
  Estimator.estimateEthTransfer failing_estimate_node
    (VString "0xd8dA6BF26964aF9D7eEd9e03E53415D37aA96045")
    "0.1" (VString "https://mainnet.base.org")
  = Throw (Error "execution reverted").
Proof. reflexivity. Qed.

(** ** The network resolver *)

Example getRpcUrl_base :
  Utils.getRpcUrl "base" = Ok (VString "https://mainnet.base.org").
Proof. reflexivity. Qed.

Example getRpcUrl_base_sepolia :
  Utils.getRpcUrl "base-sepolia" = Ok (VString "https://sepolia.base.org").
Proof. reflexivity. Qed.

Example getNetworkConfig_base :
  exists c, Utils.getNetworkConfig "base" = Ok (Own c)
            /\ Utils.rpcUrl c = "https://mainnet.base.org"
            /\ Utils.chainId c = 8453.
Proof. eexists. repeat split. Qed.

(** An identifier that is neither in the table nor a key of
    [Object.prototype] is refused, with the list of the supported ones. *)
Lemma getRpcUrl_unsupported (network : string) :
  network <> "base" -> network <> "base-sepolia" ->
  existsb (String.eqb network) object_prototype_keys = false ->
  Utils.getRpcUrl network =
  Throw (Error ("Unsupported network: " ++ network
                ++ ". Supported networks: base, base-sepolia")).
Proof.
  intros H1 H2 H3. unfold Utils.getRpcUrl, get_property.
  cbn [Utils.NETWORK_CONFIG own_property].
  destruct (String.eqb_spec "base" network); [congruence |].
  destruct (String.eqb_spec "base-sepolia" network); [congruence |].
  rewrite H3. reflexivity.
Qed.

(** C10 (as the code has it): the identifier [constructor] is not in the
    table, and yet the resolver does not fail for it: the look-up finds
    the property the table inherits, and [undefined] is returned. *)
Theorem getRpcUrl_inherited_key :
  Utils.getRpcUrl "constructor" = Ok VUndefined.
Proof. reflexivity. Qed.

(** ** The trailing-zero trimmer *)

Lemma eqb_cons (c : ascii) (a b : string) :
  String.eqb (String c a) (String c b) = String.eqb a b.
Proof. cbn. now rewrite Ascii.eqb_refl. Qed.

Lemma chop_dot_cons (c d : ascii) (t : string) :
  chop_dot (String c (String d t)) = String c (chop_dot (String d t)).
Proof. reflexivity. Qed.

(** What the replacement of [/\.?0+$/] does to any string: a string that
    does not end in a zero is left as it is, and otherwise the trailing
    zeros go, and with them a dot just before them. *)
Lemma replace_trim_spec (s : string) :
  replace_trim s
  = if String.eqb (strip_zeros s) s then s else chop_dot (strip_zeros s).
Proof.
  induction s as [| c r IH]; [reflexivity |].
  cbn [replace_trim match_trim_here strip_zeros].
  rewrite !match_zeros_end_forallb.
  cbn [forallb_str].
  change (String.eqb (String c r) "") with false. cbn [negb andb].
  assert (Hstep :
    (if is_dot c
     then negb (String.eqb r "") && forallb_str is_zero_char r
          || is_zero_char c && forallb_str is_zero_char r
     else is_zero_char c && forallb_str is_zero_char r)
    = forallb_str is_zero_char r
      && (is_zero_char c || (is_dot c && negb (String.eqb r "")))).
  { destruct (is_dot c) eqn:Hdot.
    - assert (Hz : is_zero_char c = false).
      { unfold is_dot in Hdot. apply Ascii.eqb_eq in Hdot. now subst c. }
      rewrite Hz. cbn. rewrite orb_false_r. apply andb_comm.
    - cbn. rewrite orb_false_r. apply andb_comm. }
  rewrite Hstep. clear Hstep.
  destruct (strip_zeros r) as [| d t] eqn:Hs.
  - pose proof Hs as Hall. apply strip_zeros_empty in Hall. rewrite Hall.
    cbn [andb]. rewrite IH.
    destruct (is_zero_char c) eqn:Hz; [reflexivity |]. cbn [orb].
    destruct r as [| x r'].
    + change (String.eqb "" "") with true. cbn [negb].
      now rewrite andb_false_r, String.eqb_refl.
    + change (String.eqb (String x r') "") with false. rewrite andb_true_r.
      change (String.eqb "" (String x r')) with false.
      change (String.eqb (String c "") (String c (String x r'))) with
        (String.eqb (String c "") (String c (String x r'))).
      rewrite eqb_cons. change (String.eqb "" (String x r')) with false.
      cbn [chop_dot]. destruct (is_dot c); reflexivity.
  - assert (Hall : forallb_str is_zero_char r = false).
    { destruct (forallb_str is_zero_char r) eqn:Hall; [| reflexivity].
      apply strip_zeros_empty in Hall. congruence. }
    rewrite Hall. cbn [andb]. rewrite IH, eqb_cons, chop_dot_cons.
    destruct (String.eqb (String d t) r); reflexivity.
Qed.

(** On a decimal string, digits, a dot and digits, the trimmer removes the
    trailing zeros of the fraction, and the dot with a fraction of zeros. *)
Lemma trimDecimals_decimal (ip fp : string) :
  forallb_str is_digit ip = true ->
  forallb_str is_digit fp = true ->
  fp <> "" ->
  Utils.trimDecimals (VString (ip ++ "." ++ fp))
  = VString (ip ++ trimmed_fraction fp).
Proof.
  intros Hip Hfp Hne. cbn [Utils.trimDecimals].
  now rewrite replace_trim_decimal.
Qed.

(** C4 (as the code has it): a string without a decimal point loses its
    trailing zeros. *)
Theorem trimDecimals_integer_zeros :
  Utils.trimDecimals (VString "100") = VString "1".
Proof. reflexivity. Qed.

(** C5 (as the code has it): the trimmer is not idempotent, on a decimal
    string and on an output of [formatEthFromWei]. *)
Theorem trimDecimals_twice :
  Utils.trimDecimals (VString "100.0") = VString "100"
  /\ Utils.trimDecimals (Utils.trimDecimals (VString "100.0")) = VString "1"
  /\ Utils.formatEthFromWei (10 ^ 19) = Ok "10"
  /\ Utils.trimDecimals (VString "10") = VString "1".
Proof. repeat split; vm_compute; reflexivity. Qed.

(* ================================================================== *)
(** * Further properties of the code *)
(* ================================================================== *)

(** ** The price fetcher *)

Lemma leb_zero_finite (m e : Z) : leb (Finite m e) (decimal 0 0) = (m <=? 0).
Proof.
  change (decimal 0 0) with zero. unfold leb, compare, zero, compare_finite.
  assert (H : 0 < 2 ^ (e - Z.min e (-1074))) by (apply Z.pow_pos_nonneg; lia).
  rewrite Z.mul_0_l.
  destruct (Z.compare_spec (m * 2 ^ (e - Z.min e (-1074))) 0);
    symmetry; [apply Z.leb_le | apply Z.leb_le | apply Z.leb_gt]; nia.
Qed.

Lemma positive_finite_truthy (x : Number) :
  positive_finite x = true -> truthy_number x = true.
Proof.
  destruct x as [| s | m e]; try discriminate. cbn. intros H.
  apply Z.ltb_lt in H. apply negb_true_iff, Z.eqb_neq. lia.
Qed.

(** The test of the price, [usd <= 0 || !isFinite(usd)]. *)
Lemma price_check (x : Number) :
  leb x (decimal 0 0) || negb (isFinite x) = negb (positive_finite x).
Proof.
  destruct x as [| s | m e]; [reflexivity | |].
  - cbn [isFinite negb positive_finite]. now rewrite orb_true_r.
  - rewrite leb_zero_finite. cbn [isFinite negb positive_finite].
    rewrite orb_false_r. rewrite Z.ltb_antisym. now rewrite negb_involutive.
Qed.

(** Only an object has a field, and an object is truthy. *)
Lemma json_get_truthy (v w : json) (key : string) :
  json_get v key = Some w -> json_truthy v = true.
Proof. destruct v; try discriminate. reflexivity. Qed.

(** X1: the price fetcher returns a price exactly when the request is
    answered with a body whose [ethereum.usd] field is a number that is
    finite and greater than zero, and the price is that number: a failed
    request never gives a price, and no price is ever zero, negative,
    infinite or [NaN]. *)
Theorem getEthUsdPrice_ok (http : Price.axios_outcome) (price : Number) :
  Price.getEthUsdPrice http = Ok price <->
  exists data ethereum,
    http = Price.Response data
    /\ json_get data "ethereum" = Some ethereum
    /\ json_get ethereum "usd" = Some (JNumber price)
    /\ positive_finite price = true.
Proof.
  split.
  - unfold Price.getEthUsdPrice.
    destruct (Price.fetch_and_validate http) as [p | e] eqn:Hf.
    2:{ repeat match goal with
               | |- context [if ?b then _ else _] => destruct b
               | |- context [match ?o with Some _ => _ | None => _ end] => destruct o
               end; discriminate. }
    intros [= ->]. destruct http as [data | e]; [| discriminate].
    cbn [Price.fetch_and_validate] in Hf.
    destruct (negb (json_truthy data) || _ || _); [discriminate |].
    destruct (json_get data "ethereum") as [eth |] eqn:He; [| discriminate].
    destruct (json_get eth "usd") as [[| | x | | |] |] eqn:Hu; try discriminate.
    rewrite price_check in Hf.
    destruct (positive_finite x) eqn:Hx; [| discriminate].
    injection Hf as ->. exists data, eth. auto.
  - intros (data & eth & -> & He & Hu & Hp).
    unfold Price.getEthUsdPrice. cbn [Price.fetch_and_validate].
    rewrite He, Hu, price_check, Hp. cbn [json_truthy].
    rewrite (positive_finite_truthy _ Hp).
    destruct data; try discriminate. destruct eth; try discriminate.
    reflexivity.
Qed.

(** X2: what the price fetcher does with an answered request depends on
    the [ethereum.usd] field of the body alone.  When the field is missing
    or falsy (a price of zero included) the failure is "Invalid response
    format from price API"; when it is truthy but not a finite number
    greater than zero (a negative number, a string, an object) the failure
    is "Invalid ETH price received from API"; and both messages reach the
    caller as they are thrown, the handler of the function leaves them
    alone. *)
Theorem getEthUsdPrice_response (data : json) :
  Price.getEthUsdPrice (Price.Response data)
  = match usd_field data with
    | Some (JNumber x) =>
        if positive_finite x then Ok x
        else if truthy_number x
             then Throw (Error "Invalid ETH price received from API")
             else Throw (Error "Invalid response format from price API")
    | Some usd =>
        if json_truthy usd
        then Throw (Error "Invalid ETH price received from API")
        else Throw (Error "Invalid response format from price API")
    | None => Throw (Error "Invalid response format from price API")
    end.
Proof.
  unfold Price.getEthUsdPrice, usd_field. cbn [Price.fetch_and_validate].
  destruct (json_get data "ethereum") as [eth |] eqn:He.
  2:{ rewrite orb_true_r. reflexivity. }
  rewrite (json_get_truthy _ _ _ He). cbn [negb orb].
  destruct (json_get eth "usd") as [usd |] eqn:Hu.
  2:{ rewrite orb_true_r. reflexivity. }
  rewrite (json_get_truthy _ _ _ Hu). cbn [negb orb].
  destruct usd as [| b | x | s | items | fields]; cbn [json_truthy negb].
  - reflexivity.
  - destruct b; reflexivity.
  - rewrite price_check.
    destruct (positive_finite x) eqn:Hx.
    + now rewrite (positive_finite_truthy _ Hx).
    + destruct (truthy_number x); reflexivity.
  - destruct (String.eqb s ""); reflexivity.
  - reflexivity.
  - reflexivity.
Qed.

(** ** The two look-ups of the network table *)

(** X3: [getRpcUrl] and [getNetworkConfig] agree on every identifier.
    Where [getNetworkConfig] returns an entry of the table, the identifier
    is [base] (chain 8453) or [base-sepolia] (chain 84532) and [getRpcUrl]
    returns the URL of that entry; where it returns an inherited property,
    the identifier is a key of [Object.prototype] and [getRpcUrl] returns
    [undefined]; and where it fails, [getRpcUrl] fails with the same
    message followed by the list of the supported networks. *)
Theorem getRpcUrl_getNetworkConfig (network : string) :
  match Utils.getNetworkConfig network with
  | Ok (Own config) =>
      Utils.getRpcUrl network = Ok (VString (Utils.rpcUrl config))
      /\ ((network = "base" /\ Utils.chainId config = 8453)
          \/ (network = "base-sepolia" /\ Utils.chainId config = 84532))
  | Ok Inherited =>
      Utils.getRpcUrl network = Ok VUndefined
      /\ In network object_prototype_keys
  | Throw e =>
      Utils.getRpcUrl network
      = Throw (Error (message e ++ ". Supported networks: base, base-sepolia"))
      /\ message e = "Unsupported network: " ++ network
  end.
Proof.
  unfold Utils.getNetworkConfig, Utils.getRpcUrl, get_property.
  cbn [Utils.NETWORK_CONFIG own_property].
  destruct (String.eqb_spec "base" network) as [<- | _].
  { split; [reflexivity | left; split; reflexivity]. }
  destruct (String.eqb_spec "base-sepolia" network) as [<- | _].
  { split; [reflexivity | right; split; reflexivity]. }
  destruct (existsb (String.eqb network) object_prototype_keys) eqn:Hk.
  - split; [reflexivity |].
    apply existsb_exists in Hk. destruct Hk as (k & Hin & Hk).
    apply String.eqb_eq in Hk. now subst k.
  - split; [| reflexivity]. cbn [message Error].
    now rewrite append_assoc.
Qed.

(** ** The trailing-zero trimmer on any string *)

Lemma ends_with_cons (p : ascii -> bool) (c d : ascii) (t : string) :
  ends_with p (String c (String d t)) = ends_with p (String d t).
Proof. reflexivity. Qed.

Lemma strip_zeros_ends (s : string) :
  ends_with is_zero_char (strip_zeros s) = false.
Proof.
  induction s as [| c r IH]; [reflexivity |].
  cbn [strip_zeros]. destruct (strip_zeros r) as [| d t].
  - destruct (is_zero_char c) eqn:Hc; [reflexivity | exact Hc].
  - rewrite ends_with_cons. exact IH.
Qed.

Lemma chop_dot_cases (u : string) :
  u = chop_dot u ++ "." \/ (chop_dot u = u /\ ends_with is_dot u = false).
Proof.
  induction u as [| c r IH]; [right; split; reflexivity |].
  destruct r as [| d t].
  - cbn [chop_dot ends_with]. destruct (is_dot c) eqn:Hc.
    + left. unfold is_dot in Hc. apply Ascii.eqb_eq in Hc. now subst c.
    + right. split; reflexivity.
  - rewrite chop_dot_cons, ends_with_cons.
    destruct IH as [IH | [IH1 IH2]].
    + left. cbn [append]. now rewrite <- IH.
    + right. split; [now rewrite IH1 | exact IH2].
Qed.

Lemma ends_with_or (p q : ascii -> bool) (s : string) :
  ends_with (fun c => p c || q c) s = ends_with p s || ends_with q s.
Proof.
  induction s as [| c r IH]; [reflexivity |].
  destruct r as [| d t]; [reflexivity |].
  rewrite !ends_with_cons. exact IH.
Qed.

(** X4: what [trimDecimals] removes from a string, whatever the string.
    The result is a prefix of the input, and what is cut off the end is
    one of three things: nothing, when the input does not end in a zero;
    a run of one or more zeros, and then the result ends neither in a zero
    nor in a dot; or a dot followed by one or more zeros.  Nothing but
    zeros and one dot is ever removed, and no digit other than zero. *)
Theorem trimDecimals_removes (s : string) :
  exists kept removed,
    s = kept ++ removed
    /\ Utils.trimDecimals (VString s) = VString kept
    /\ ((removed = "" /\ ends_with is_zero_char s = false)
        \/ (exists j, removed = repeat_char "0"%char (S j)
                      /\ ends_with is_zero_or_dot kept = false)
        \/ (exists j, removed = "." ++ repeat_char "0"%char (S j))).
Proof.
  cbn [Utils.trimDecimals]. rewrite replace_trim_spec.
  destruct (strip_zeros_spec s) as (j & Hj).
  pose proof (strip_zeros_ends s) as Hends.
  destruct j as [| j].
  - cbn [repeat_char] in Hj. rewrite append_nil_r in Hj.
    rewrite <- Hj, String.eqb_refl. exists s, "".
    split; [now rewrite append_nil_r |]. split; [reflexivity |].
    left. split; [reflexivity |]. now rewrite Hj.
  - destruct (String.eqb_spec (strip_zeros s) s) as [E | _].
    { exfalso. pose proof (f_equal String.length Hj) as L.
      rewrite length_append, length_repeat_char, E in L. lia. }
    destruct (chop_dot_cases (strip_zeros s)) as [Hd | [Hd Hnd]].
    + exists (chop_dot (strip_zeros s)), ("." ++ repeat_char "0"%char (S j)).
      split; [| split; [reflexivity | right; right; now exists j]].
      rewrite Hj at 1. rewrite Hd at 1. now rewrite <- append_assoc.
    + exists (strip_zeros s), (repeat_char "0"%char (S j)).
      split; [exact Hj |]. split; [now rewrite Hd |].
      right. left. exists j. split; [reflexivity |].
      unfold is_zero_or_dot. now rewrite ends_with_or, Hends, Hnd.
Qed.

(** ** Amounts that are printed exactly *)

(** A quotient [n / d] that has [k] decimals, [n / d = t / 10^k], with
    [t] below [2^52]: the double nearest to it, scaled by [10^k], rounds
    back to [t]. *)
Lemma toFixed_integer_exact (n d k t m e : Z) :
  0 < n -> 0 < d -> 0 <= k <= 300 ->
  n * 10 ^ k = t * d -> t < 2 ^ 52 ->
  -1074 <= e ->
  scaled_value m e = nearest n d ->
  toFixed_integer m e k = t.
Proof.
  intros Hn Hd Hk Ht Ht52 He HS.
  pose proof (nearest_error n d Hn Hd) as Herr.
  assert (HN : 0 < n * 2 ^ 1074) by lia.
  destruct (exponent_spec _ d HN Hd) as (HE0 & _ & HE).
  set (E := exponent (n * 2 ^ 1074) d) in *.
  set (P := 2 ^ 1074) in *.
  assert (HP : 0 < P) by (subst P; lia).
  assert (H10 : 0 < 10 ^ k) by (apply Z.pow_pos_nonneg; lia).
  assert (H2E : 0 < 2 ^ E) by (apply Z.pow_pos_nonneg; lia).
  assert (Hsmall : 2 ^ E * 10 ^ k < P).
  { destruct (Z.eq_dec E 0) as [-> | HEne].
    - rewrite Z.pow_0_r, Z.mul_1_l. subst P.
      apply Z.le_lt_trans with (10 ^ 300).
      + apply Z.pow_le_mono_r; lia.
      + vm_compute. reflexivity.
    - assert (HE' : d * 2 ^ E * 2 ^ 52 <= n * P) by (apply HE; lia).
      assert (H1 : d * (2 ^ E * 10 ^ k * 2 ^ 52) <= d * (t * P)).
      { replace (d * (t * P)) with (n * 10 ^ k * P) by (rewrite Ht; ring).
        replace (d * (2 ^ E * 10 ^ k * 2 ^ 52))
          with (d * 2 ^ E * 2 ^ 52 * 10 ^ k) by ring.
        replace (n * 10 ^ k * P) with (n * P * 10 ^ k) by ring.
        apply Z.mul_le_mono_nonneg_r; lia. }
      apply Z.mul_le_mono_pos_l in H1; [| exact Hd].
      assert (H2 : t * P < 2 ^ 52 * P) by (apply Z.mul_lt_mono_pos_r; lia).
      assert (H3 : 2 ^ E * 10 ^ k * 2 ^ 52 < P * 2 ^ 52) by lia.
      apply Z.mul_lt_mono_pos_r in H3; lia. }
  set (S := nearest n d) in *.
  assert (Hlo : (2 * t - 1) * P < 2 * S * 10 ^ k).
  { assert (A : d * ((2 * t - 1) * P) < d * (2 * S * 10 ^ k)).
    { replace (d * (2 * S * 10 ^ k)) with (2 * d * S * 10 ^ k) by ring.
      replace (d * ((2 * t - 1) * P)) with (2 * (t * d) * P - d * P) by ring.
      rewrite <- Ht.
      assert (B : (2 * (n * P) - d * 2 ^ E) * 10 ^ k <= 2 * d * S * 10 ^ k)
        by (apply Z.mul_le_mono_nonneg_r; lia).
      assert (C : d * (2 ^ E * 10 ^ k) < d * P)
        by (apply Z.mul_lt_mono_pos_l; lia).
      lia. }
    apply Z.mul_lt_mono_pos_l in A; lia. }
  assert (Hhi : 2 * S * 10 ^ k < (2 * t + 1) * P).
  { assert (A : d * (2 * S * 10 ^ k) < d * ((2 * t + 1) * P)).
    { replace (d * (2 * S * 10 ^ k)) with (2 * d * S * 10 ^ k) by ring.
      replace (d * ((2 * t + 1) * P)) with (2 * (t * d) * P + d * P) by ring.
      rewrite <- Ht.
      assert (B : 2 * d * S * 10 ^ k <= (2 * (n * P) + d * 2 ^ E) * 10 ^ k)
        by (apply Z.mul_le_mono_nonneg_r; lia).
      assert (C : d * (2 ^ E * 10 ^ k) < d * P)
        by (apply Z.mul_lt_mono_pos_l; lia).
      lia. }
    apply Z.mul_lt_mono_pos_l in A; lia. }
  clearbody S. clear Herr HE HE0 Hsmall H2E. subst S.
  unfold scaled_value in Hlo, Hhi. unfold toFixed_integer.
  destruct (Z.leb_spec 0 e) as [He0 | He0].
  - assert (HPe : 2 ^ (e + 1074) = 2 ^ e * P).
    { subst P. rewrite Z.pow_add_r by lia. reflexivity. }
    rewrite HPe in Hlo, Hhi.
    set (x := m * 10 ^ k * 2 ^ e).
    replace (2 * (m * (2 ^ e * P)) * 10 ^ k) with (2 * x * P) in Hlo, Hhi
      by (subst x; ring).
    apply Z.mul_lt_mono_pos_r in Hlo, Hhi; lia.
  - set (Q := 2 ^ (- e)). set (R := 2 ^ (e + 1074)) in *.
    assert (HQ : 0 < Q) by (subst Q; apply Z.pow_pos_nonneg; lia).
    assert (HR : 0 < R) by (subst R; apply Z.pow_pos_nonneg; lia).
    assert (HPQ : P = R * Q).
    { subst P Q R. rewrite <- Z.pow_add_r by lia. f_equal. lia. }
    rewrite HPQ in Hlo, Hhi.
    set (x := m * 10 ^ k).
    replace (2 * (m * R) * 10 ^ k) with (R * (2 * x)) in Hlo, Hhi
      by (subst x; ring).
    replace ((2 * t - 1) * (R * Q)) with (R * ((2 * t - 1) * Q)) in Hlo by ring.
    replace ((2 * t + 1) * (R * Q)) with (R * ((2 * t + 1) * Q)) in Hhi by ring.
    apply Z.mul_lt_mono_pos_l in Hlo, Hhi; try exact HR.
    pose proof (round_half_up_near x Q HQ) as Hr.
    set (r := round_half_up x Q) in *.
    assert (r < t + 1) by nia.
    assert (t - 1 < r) by nia.
    lia.
Qed.

(** An amount [a] of units of [10^-D] that is [t] units of [10^-k]. *)
Lemma render_decimal_exact (a D k t : Z) :
  0 <= t < 2 ^ 52 -> 0 <= k <= 300 -> 0 <= D <= 300 ->
  a * 10 ^ k = t * 10 ^ D ->
  render_decimal (binary64 a (10 ^ D)) k = decimal_string t k.
Proof.
  intros Ht Hk HD Ha.
  assert (H10D : 0 < 10 ^ D) by (apply Z.pow_pos_nonneg; lia).
  assert (H10k : 0 < 10 ^ k) by (apply Z.pow_pos_nonneg; lia).
  destruct (Z.eq_dec t 0) as [-> | Hne].
  - assert (a = 0) by nia. subst a. reflexivity.
  - assert (Hpos : 0 < a) by nia.
    assert (Hlt : a < 10 ^ D * 2 ^ 1023).
    { assert (a <= a * 10 ^ k) by nia.
      assert (t * 10 ^ D < 2 ^ 52 * 10 ^ D) by (apply Z.mul_lt_mono_pos_r; lia).
      assert (2 ^ 52 * 10 ^ D <= 10 ^ D * 2 ^ 1023).
      { rewrite (Z.mul_comm (2 ^ 52)). apply Z.mul_le_mono_nonneg_l; lia. }
      lia. }
    destruct (binary64_finite a (10 ^ D) ltac:(lia) H10D Hlt)
      as (m & e & -> & Hm & He & HS).
    unfold render_decimal, decimal_string.
    rewrite (toFixed_integer_exact a (10 ^ D) k t m e); auto; lia.
Qed.

(** An amount [a] of wei that is [t] units of [10^-k] ether, for the
    number [k] of decimals of its tier. *)
Lemma formatEthFromWei_of_decimals (a t k : Z) :
  0 <= t < 2 ^ 52 ->
  0 <= a < fixed_limit * 10 ^ 18 ->
  k = (if 10 ^ 15 <=? a then 6 else 9) ->
  a * 10 ^ k = t * 10 ^ 18 ->
  Utils.formatEthFromWei a = Ok (decimal_string t k).
Proof.
  intros Ht Ha Hk E. rewrite formatEthFromWei_tiers by exact Ha.
  rewrite <- Hk. f_equal. apply render_decimal_exact; try lia.
  destruct (10 ^ 15 <=? a); lia.
Qed.

(** X5: [formatEthFromWei] prints exactly, with no error from the
    conversion to a double, every amount that has no more decimals than
    its tier shows: a whole number [t] of micro-ether from a thousandth of
    an ether up to [2^52] micro-ether (some 4.5 billion ether), and a whole
    number [t] of gwei below a thousandth of an ether.  The output is the
    decimal expansion of the amount in ether, without trailing zeros. *)
Theorem formatEthFromWei_exact (t k : Z) :
  (k = 6 /\ 10 ^ 3 <= t < 2 ^ 52) \/ (k = 9 /\ 0 <= t < 10 ^ 6) ->
  Utils.formatEthFromWei (t * 10 ^ (18 - k)) = Ok (decimal_string t k).
Proof.
  intros [(-> & Ht) | (-> & Ht)];
    apply formatEthFromWei_of_decimals; try (unfold fixed_limit; lia).
  - destruct (Z.leb_spec (10 ^ 15) (t * 10 ^ (18 - 6))); [reflexivity | lia].
  - destruct (Z.leb_spec (10 ^ 15) (t * 10 ^ (18 - 9))); [lia | reflexivity].
Qed.

Lemma formatEthFromWei_exact_witness :
  Utils.formatEthFromWei (1234500 * 10 ^ (18 - 6)) = Ok (decimal_string 1234500 6).
Proof.
  apply (formatEthFromWei_exact 1234500 6).
  left. split; [reflexivity | lia].
Defined.

(** X6: [formatGweiFromWei] prints exactly every amount that has no more
    decimals than its tier shows: a whole number [t] of gwei from 1000
    gwei up to [2^52] gwei, a whole number of thousandths of a gwei from 1
    gwei up to 1000 gwei, and a whole number of thousands of wei below 1
    gwei.  The output is the decimal expansion of the amount in gwei,
    without trailing zeros. *)
Theorem formatGweiFromWei_exact (t k : Z) :
  (k = 0 /\ 10 ^ 3 <= t < 2 ^ 52)
  \/ (k = 3 /\ 10 ^ 3 <= t < 10 ^ 6)
  \/ (k = 6 /\ 0 <= t < 10 ^ 6) ->
  Utils.formatGweiFromWei (t * 10 ^ (9 - k)) = Ok (decimal_string t k).
Proof.
  intros [(-> & Ht) | [(-> & Ht) | (-> & Ht)]].
  - rewrite formatGweiFromWei_tiers.
    2:{ change (9 - 0) with 9. unfold fixed_limit. lia. }
    replace (10 ^ 12 <=? t * 10 ^ (9 - 0)) with true
      by (symmetry; apply Z.leb_le; change (9 - 0) with 9; lia).
    f_equal. apply render_decimal_exact; lia.
  - rewrite formatGweiFromWei_tiers.
    2:{ change (9 - 3) with 6. unfold fixed_limit. lia. }
    replace (10 ^ 12 <=? t * 10 ^ (9 - 3)) with false
      by (symmetry; apply Z.leb_gt; change (9 - 3) with 6; lia).
    replace (10 ^ 9 <=? t * 10 ^ (9 - 3)) with true
      by (symmetry; apply Z.leb_le; change (9 - 3) with 6; lia).
    f_equal. apply render_decimal_exact; lia.
  - rewrite formatGweiFromWei_tiers.
    2:{ change (9 - 6) with 3. unfold fixed_limit. lia. }
    replace (10 ^ 12 <=? t * 10 ^ (9 - 6)) with false
      by (symmetry; apply Z.leb_gt; change (9 - 6) with 3; lia).
    replace (10 ^ 9 <=? t * 10 ^ (9 - 6)) with false
      by (symmetry; apply Z.leb_gt; change (9 - 6) with 3; lia).
    f_equal. apply render_decimal_exact; lia.
Qed.

Lemma formatGweiFromWei_exact_witness :
  Utils.formatGweiFromWei (1897 * 10 ^ (9 - 6)) = Ok (decimal_string 1897 6).
Proof.
  apply (formatGweiFromWei_exact 1897 6).
  right. right. split; [reflexivity | lia].
Defined.

Example decimal_string_examples :
  decimal_string 1234500 6 = "1.2345"
  /\ decimal_string 1897 6 = "0.001897"
  /\ decimal_string 5000000 6 = "5"
  /\ decimal_string 21000 0 = "21000".
Proof. repeat split; vm_compute; reflexivity. Qed.

(** ** Reading a printed amount back *)

Lemma is_digit_not_minus (c : ascii) :
  is_digit c = true -> Ascii.eqb c "-"%char = false.
Proof.
  intros H. destruct (Ascii.eqb_spec c "-"%char) as [-> | _];
    [discriminate | reflexivity].
Qed.

Lemma repeat_char_add (c : ascii) (a b : nat) :
  repeat_char c (a + b) = repeat_char c a ++ repeat_char c b.
Proof. induction a as [| a IH]; cbn; [reflexivity | now rewrite IH]. Qed.

Lemma strlen_repeat_char (c : ascii) (n : nat) :
  strlen (repeat_char c n) = Z.of_nat n.
Proof. unfold strlen. now rewrite length_repeat_char. Qed.

Lemma take_all (s : string) : take (strlen s) s = s.
Proof. rewrite <- (append_nil_r s) at 2. apply take_append. Qed.

Lemma drop_all (s : string) : drop (strlen s) s = "".
Proof. rewrite <- (append_nil_r s) at 2. apply drop_append. Qed.

(** The pattern of the unit parser on a decimal numeral. *)
Lemma match_fixed_decimal (ip tf : string) :
  ip <> "" ->
  forallb_str is_digit ip = true ->
  forallb_str is_digit tf = true ->
  Ethers.match_fixed (decimal_numeral ip tf) = Some (false, ip, tf).
Proof.
  intros Hne Dip Dtf. unfold Ethers.match_fixed, decimal_numeral.
  destruct ip as [| c r]; [congruence |].
  assert (Hc : is_digit c = true) by (cbn in Dip; now apply andb_prop in Dip).
  cbn [append]. rewrite (is_digit_not_minus c Hc).
  match goal with
  | |- context [span_digits (String c ?u)] =>
      change (String c u)
        with (String c r ++ match tf with
                            | EmptyString => ""
                            | String a s => "." ++ String a s
                            end)
  end.
  rewrite (span_digits_append _ _ Dip) by (now destruct tf).
  destruct tf as [| d t]; [reflexivity |].
  change ("." ++ String d t) with (String "."%char (String d t)).
  unfold is_dot. rewrite Ascii.eqb_refl.
  rewrite (span_digits_all _ Dtf). reflexivity.
Qed.

Lemma match_fixed_signed (neg : bool) (ip fp : string) :
  ip <> "" ->
  forallb_str is_digit ip = true ->
  forallb_str is_digit fp = true ->
  Ethers.match_fixed ((if neg then "-" else "") ++ decimal_numeral ip fp)
  = Some (neg, ip, fp).
Proof.
  intros Hne Dip Dfp.
  destruct neg; [| exact (match_fixed_decimal ip fp Hne Dip Dfp)].
  pose proof (match_fixed_decimal ip fp Hne Dip Dfp) as H.
  unfold decimal_numeral in *. unfold Ethers.match_fixed in *.
  destruct ip as [| c r]; [congruence |].
  assert (Hc : is_digit c = true) by (cbn in Dip; now apply andb_prop in Dip).
  cbn [append] in *. rewrite (is_digit_not_minus c Hc) in H.
  rewrite Ascii.eqb_refl.
  destruct (span_digits _) as [whole s2].
  destruct (span_digits _) as [frac s4].
  destruct s4; [| discriminate]. now injection H as -> ->.
Qed.

(** The value [parseEther] reads from a decimal numeral with at most 18
    decimals, with or without a minus sign. *)
Lemma parseEther_signed (neg : bool) (ip fp : string) :
  ip <> "" ->
  forallb_str is_digit ip = true ->
  forallb_str is_digit fp = true ->
  strlen fp <= 18 ->
  digits_value (ip ++ fp) * 10 ^ (18 - strlen fp) < 2 ^ 511 ->
  Ethers.parseEther ((if neg then "-" else "") ++ decimal_numeral ip fp)
  = Ok (if neg then - (digits_value (ip ++ fp) * 10 ^ (18 - strlen fp))
        else digits_value (ip ++ fp) * 10 ^ (18 - strlen fp)).
Proof.
  intros Hne Dip Dfp HL Hmax.
  unfold Ethers.parseEther, Ethers.parseUnits.
  rewrite (match_fixed_signed neg ip fp Hne Dip Dfp).
  assert (Lip : 0 < strlen ip).
  { unfold strlen. destruct ip; [congruence | cbn; lia]. }
  pose proof (strlen_nonneg fp) as Lfp.
  replace (strlen ip + strlen fp =? 0) with false
    by (symmetry; apply Z.eqb_neq; lia).
  set (padded := fp ++ repeat_char "0"%char (Z.to_nat (18 - strlen fp))).
  assert (Lpad : strlen padded = 18).
  { subst padded. rewrite strlen_append, strlen_repeat_char. lia. }
  assert (Hdrop : drop 18 padded = "") by (rewrite <- Lpad; apply drop_all).
  assert (Htake : take 18 padded = padded) by (rewrite <- Lpad; apply take_all).
  rewrite Hdrop, Htake. cbn [forallb_str negb].
  assert (Hv : digits_value (ip ++ padded)
               = digits_value (ip ++ fp) * 10 ^ (18 - strlen fp)).
  { subst padded. rewrite <- append_assoc, digits_value_append, digits_value_zeros.
    rewrite strlen_repeat_char, Z2Nat.id by lia. lia. }
  rewrite Hv.
  assert (Dall : forallb_str is_digit (ip ++ fp) = true)
    by (now rewrite forallb_str_append, Dip, Dfp).
  pose proof (digits_value_nonneg _ Dall) as Hn.
  assert (0 <= digits_value (ip ++ fp) * 10 ^ (18 - strlen fp)).
  { apply Z.mul_nonneg_nonneg; [lia | apply Z.pow_nonneg; lia]. }
  unfold Ethers.checkValue.
  destruct neg.
  - replace (- 2 ^ 511 <=? - (digits_value (ip ++ fp) * 10 ^ (18 - strlen fp)))
      with true by (symmetry; apply Z.leb_le; lia).
    replace (- (digits_value (ip ++ fp) * 10 ^ (18 - strlen fp)) <? 2 ^ 511)
      with true by (symmetry; apply Z.ltb_lt; lia).
    reflexivity.
  - replace (- 2 ^ 511 <=? digits_value (ip ++ fp) * 10 ^ (18 - strlen fp))
      with true by (symmetry; apply Z.leb_le; lia).
    replace (digits_value (ip ++ fp) * 10 ^ (18 - strlen fp) <? 2 ^ 511)
      with true by (symmetry; apply Z.ltb_lt; lia).
    reflexivity.
Qed.

(** The decimal expansion of [t / 10^k] is a decimal numeral: the digits
    of the quotient and the trimmed digits of the remainder. *)
Lemma decimal_string_numeral (t k : Z) :
  decimal_string t k
  = decimal_numeral (digits (t / 10 ^ k))
      (strip_zeros (frac_digits (Z.to_nat k) t)).
Proof.
  unfold decimal_string, decimal_numeral, trimmed_fraction.
  now destruct (strip_zeros (frac_digits (Z.to_nat k) t)).
Qed.

(** The string of [t / 10^k] reads back as [t * 10^(18 - k)] wei. *)
Lemma parseEther_decimal_string (t k : Z) :
  0 <= t -> 0 <= k <= 18 -> t * 10 ^ (18 - k) < 2 ^ 511 ->
  Ethers.parseEther (decimal_string t k) = Ok (t * 10 ^ (18 - k)).
Proof.
  intros Ht Hk Hmax.
  assert (H10k : 0 < 10 ^ k) by (apply Z.pow_pos_nonneg; lia).
  assert (Hq : 0 <= t / 10 ^ k) by (apply Z.div_pos; lia).
  rewrite decimal_string_numeral.
  set (ip := digits (t / 10 ^ k)).
  set (fd := frac_digits (Z.to_nat k) t).
  assert (Dip : forallb_str is_digit ip = true) by (apply digits_are_digits; assumption).
  assert (Nip : ip <> "") by apply digits_nonempty.
  assert (Dfd : forallb_str is_digit fd = true) by apply frac_digits_are_digits.
  assert (Lfd : strlen fd = k).
  { subst fd. rewrite strlen_frac_digits. lia. }
  destruct (strip_zeros_spec fd) as (j & Hj).
  set (tf := strip_zeros fd) in *.
  assert (Dtf : forallb_str is_digit tf = true) by (apply strip_zeros_are_digits; exact Dfd).
  assert (Ltf : strlen tf + Z.of_nat j = k).
  { pose proof (f_equal strlen Hj) as E.
    rewrite strlen_append, strlen_repeat_char in E. lia. }
  pose proof (strlen_nonneg tf) as Ltf0.
  assert (Hv : digits_value (ip ++ tf) * 10 ^ (18 - strlen tf) = t * 10 ^ (18 - k)).
  { pose proof (padded_digits (Z.to_nat k) t Ht) as Hp.
    rewrite Z2Nat.id in Hp by lia. fold ip fd in Hp.
    assert (Hfd : digits_value (ip ++ fd) = t).
    { rewrite <- Hp, digits_value_append, digits_value_zeros,
        digits_value_digits by lia. lia. }
    rewrite Hj, <- append_assoc, digits_value_append, digits_value_zeros,
      strlen_repeat_char in Hfd.
    replace (18 - strlen tf) with (Z.of_nat j + (18 - k)) by lia.
    rewrite Z.pow_add_r by lia. rewrite <- Hfd. ring. }
  pose proof (parseEther_signed false ip tf Nip Dip Dtf ltac:(lia)) as H.
  cbn [append] in H. rewrite Hv in H. now apply H.
Qed.

(** X7: a round trip.  An amount that [formatEthFromWei] prints exactly,
    a whole number of micro-ether from a thousandth of an ether up to
    [2^52] micro-ether or a whole number of gwei below that, is printed as
    a string from which [parseEther] reads the same amount of wei back:
    nothing is lost between the formatter and the parser the estimator
    uses. *)
Theorem parseEther_formatEthFromWei (t k : Z) :
  (k = 6 /\ 10 ^ 3 <= t < 2 ^ 52) \/ (k = 9 /\ 0 <= t < 10 ^ 6) ->
  (text <- Utils.formatEthFromWei (t * 10 ^ (18 - k)) ;; Ethers.parseEther text)
  = Ok (t * 10 ^ (18 - k)).
Proof.
  intros H.
  assert (Hprint : Utils.formatEthFromWei (t * 10 ^ (18 - k))
                   = Ok (decimal_string t k)).
  { destruct H as [(-> & Ht) | (-> & Ht)];
      apply formatEthFromWei_of_decimals; try (unfold fixed_limit; lia).
    - destruct (Z.leb_spec (10 ^ 15) (t * 10 ^ (18 - 6))); [reflexivity | lia].
    - destruct (Z.leb_spec (10 ^ 15) (t * 10 ^ (18 - 9))); [lia | reflexivity]. }
  rewrite Hprint. cbn [bind].
  apply parseEther_decimal_string;
    destruct H as [(-> & Ht) | (-> & Ht)]; lia.
Qed.

Lemma parseEther_formatEthFromWei_witness :
  (text <- Utils.formatEthFromWei (1234500 * 10 ^ (18 - 6)) ;; Ethers.parseEther text)
  = Ok (1234500 * 10 ^ (18 - 6)).
Proof.
  apply (parseEther_formatEthFromWei 1234500 6).
  left. split; [reflexivity | lia].
Defined.

(** ** Totals too small to show *)

Lemma nearest_half_nano :
  2 * nearest 499999999 (10 ^ 18) * 10 ^ 9 < 2 ^ 1074.
Proof. vm_compute. reflexivity. Qed.

Lemma toFixed_integer_zero (m e k : Z) :
  0 <= m -> -1074 <= e -> 0 <= k ->
  2 * scaled_value m e * 10 ^ k < 2 ^ 1074 ->
  toFixed_integer m e k = 0.
Proof.
  intros Hm He Hk H. unfold scaled_value in H. unfold toFixed_integer.
  assert (H10 : 0 < 10 ^ k) by (apply Z.pow_pos_nonneg; lia).
  destruct (Z.leb_spec 0 e) as [He0 | He0].
  - assert (HPe : 2 ^ (e + 1074) = 2 ^ e * 2 ^ 1074)
      by (rewrite Z.pow_add_r by lia; reflexivity).
    rewrite HPe in H.
    assert (0 < 2 ^ e) by (apply Z.pow_pos_nonneg; lia).
    assert (0 <= m * 10 ^ k * 2 ^ e) by (repeat apply Z.mul_nonneg_nonneg; lia).
    set (x := m * 10 ^ k * 2 ^ e) in *.
    replace (2 * (m * (2 ^ e * 2 ^ 1074)) * 10 ^ k) with (2 * x * 2 ^ 1074) in H
      by (subst x; ring).
    assert (2 * x < 1) by (apply Z.mul_lt_mono_pos_r with (p := 2 ^ 1074); lia).
    lia.
  - set (Q := 2 ^ (- e)). set (R := 2 ^ (e + 1074)) in *.
    assert (HQ : 0 < Q) by (subst Q; apply Z.pow_pos_nonneg; lia).
    assert (HR : 0 < R) by (subst R; apply Z.pow_pos_nonneg; lia).
    assert (HPQ : 2 ^ 1074 = R * Q).
    { subst Q R. rewrite <- Z.pow_add_r by lia. f_equal. lia. }
    rewrite HPQ in H.
    set (x := m * 10 ^ k).
    assert (Hx : 0 <= x) by (subst x; apply Z.mul_nonneg_nonneg; lia).
    replace (2 * (m * R) * 10 ^ k) with (R * (2 * x)) in H by (subst x; ring).
    apply Z.mul_lt_mono_pos_l in H; [| exact HR].
    unfold round_half_up. apply Z.div_small. lia.
Qed.

(** X8: a total below half a gwei, [5 * 10^8] wei, is printed by
    [formatEthFromWei] as "0"; and for a result whose total text is "0"
    the command shows the line "Total Cost: 0 ETH (~0.000000 USDC)",
    whatever the price of ether: the amount in USDC is computed from the
    printed text, not from the total in wei. *)
Theorem tiny_total_displayed_as_zero (a : Z) :
  0 <= a < 5 * 10 ^ 8 ->
  Utils.formatEthFromWei a = Ok "0"
  /\ forall (host : Cli.Host) (estimation : Estimator.EstimationResult)
            (m e : Z),
       Estimator.totalText estimation = "0" ->
       nth 2 (Cli.displayResults host estimation (Finite m e)) ""
       = "Total Cost: 0 ETH (~0.000000 USDC)".
Proof.
  intros Ha. split.
  - rewrite formatEthFromWei_tiers by (unfold fixed_limit; lia).
    replace (10 ^ 15 <=? a) with false by (symmetry; apply Z.leb_gt; lia).
    destruct (binary64_finite a (10 ^ 18)) as (m & e & -> & Hm & He & HS);
      try lia.
    unfold render_decimal. rewrite toFixed_integer_zero; try lia.
    + reflexivity.
    + rewrite HS.
      pose proof (nearest_mono a 499999999 (10 ^ 18) ltac:(lia) ltac:(lia) ltac:(lia)).
      pose proof nearest_half_nano.
      pose proof (nearest_nonneg a (10 ^ 18) ltac:(lia) ltac:(lia)).
      nia.
  - intros host r m e Ht. unfold Cli.displayResults. rewrite Ht.
    cbn [nth]. do 3 f_equal.
    change (parseFloat "0") with (Finite 0 (-1074)).
    unfold mul. rewrite !Z.mul_0_l.
    destruct (0 <=? -1074 + e); reflexivity.
Qed.

Lemma tiny_total_displayed_as_zero_witness :
  Utils.formatEthFromWei 21000000 = Ok "0"
  /\ forall (host : Cli.Host) (estimation : Estimator.EstimationResult)
            (m e : Z),
       Estimator.totalText estimation = "0" ->
       nth 2 (Cli.displayResults host estimation (Finite m e)) ""
       = "Total Cost: 0 ETH (~0.000000 USDC)".
Proof.
  apply (tiny_total_displayed_as_zero 21000000). lia.
Defined.

(** ** The amount in USDC *)

(** X9: for a finite number below [10^21] in absolute value, [formatUsdc]
    returns the sign when the number is negative, the digits of the whole
    part, a dot, exactly six digits and " USDC", where the digits are
    those of the integer nearest to the number times [10^6] (the one
    farther from zero on a tie). *)
Theorem formatUsdc_six_decimals (m e : Z) :
  geb (Finite (Z.abs m) e) (decimal 1 21) = false ->
  Utils.formatUsdc (VNumber (Finite m e))
  = (if m <? 0 then "-" else "")
    ++ digits (toFixed_integer (Z.abs m) e 6 / 10 ^ 6) ++ "."
    ++ frac_digits 6 (toFixed_integer (Z.abs m) e 6) ++ " USDC".
Proof.
  intros H. unfold Utils.formatUsdc, toFixed. cbn [isFinite]. rewrite H.
  rewrite toFixed_digits_pos by lia.
  change (Z.to_nat 6) with 6%nat.
  now rewrite <- !append_assoc.
Qed.

Lemma formatUsdc_six_decimals_witness :
  Utils.formatUsdc (VNumber (Finite (-8687499202136843) (-46)))
  = (if -8687499202136843 <? 0 then "-" else "")
    ++ digits (toFixed_integer (Z.abs (-8687499202136843)) (-46) 6 / 10 ^ 6) ++ "."
    ++ frac_digits 6 (toFixed_integer (Z.abs (-8687499202136843)) (-46) 6) ++ " USDC".
Proof.
  apply (formatUsdc_six_decimals (-8687499202136843) (-46)).
  vm_compute. reflexivity.
Defined.

Example formatUsdc_examples :
  decimal 123456789 (-6) = Finite 8687499202136843 (-46)
  /\ Utils.formatUsdc (VNumber (decimal 123456789 (-6))) = "123.456789 USDC"
  /\ Utils.formatUsdc (VNumber (decimal 1 (-6))) = "0.000001 USDC"
  /\ Utils.formatUsdc (VNumber (opp (decimal 123456789 (-6)))) = "-123.456789 USDC"
  /\ Utils.formatUsdc (VNumber NaN) = "0.000000 USDC"
  /\ Utils.formatUsdc (VNumber (Infinity false)) = "0.000000 USDC"
  /\ Utils.formatUsdc (VString "1.5") = "0.000000 USDC".
Proof. repeat split; vm_compute; reflexivity. Qed.

(** ** Amounts written as decimal numerals *)

(** A quotient of at least [2^-1074] does not round to zero. *)
Lemma nearest_pos (n d : Z) :
  0 < n -> 0 < d -> d <= n * 2 ^ 1074 -> 0 < nearest n d.
Proof.
  intros Hn Hd Hle.
  pose proof (nearest_error n d Hn Hd) as [Herr _].
  pose proof (nearest_nonneg n d ltac:(lia) Hd) as H0.
  assert (HN : 0 < n * 2 ^ 1074) by lia.
  destruct (exponent_spec _ d HN Hd) as (HE0 & _ & HE).
  set (E := exponent (n * 2 ^ 1074) d) in *.
  set (N := n * 2 ^ 1074) in *.
  destruct (Z.eq_dec (nearest n d) 0) as [Hz | Hnz]; [| lia].
  exfalso. rewrite Hz in Herr.
  destruct (Z.eq_dec E 0) as [HE1 | HE1].
  - rewrite HE1 in Herr. change (2 ^ 0) with 1 in Herr. lia.
  - assert (H1 : d * 2 ^ E * 2 ^ 52 <= N) by (apply HE; lia).
    assert (H2 : 0 < d * 2 ^ E).
    { apply Z.mul_pos_pos; [lia | apply Z.pow_pos_nonneg; lia]. }
    nia.
Qed.

Lemma parse_unsigned_digits (ip : string) :
  ip <> "" -> forallb_str is_digit ip = true ->
  parse_unsigned ip = decimal (digits_value ip) 0.
Proof.
  intros Hne Dip. unfold parse_unsigned.
  destruct ip as [| c r]; [congruence |].
  assert (Hc : is_digit c = true) by (cbn in Dip; now apply andb_prop in Dip).
  rewrite (prefix_Infinity_digit c _ Hc), (span_digits_all _ Dip).
  cbn [parse_exponent]. rewrite append_nil_r. reflexivity.
Qed.

Lemma parseFloat_decimal_numeral (ip fp : string) :
  ip <> "" ->
  forallb_str is_digit ip = true ->
  forallb_str is_digit fp = true ->
  parseFloat (decimal_numeral ip fp)
  = binary64 (digits_value (ip ++ fp)) (10 ^ strlen fp).
Proof.
  intros Hne Dip Dfp.
  rewrite parseFloat_starts_with_digit.
  2:{ destruct ip as [| c r]; [congruence |]. cbn in *. now apply andb_prop in Dip. }
  unfold decimal_numeral. destruct fp as [| a s].
  - rewrite !append_nil_r, parse_unsigned_digits by assumption.
    unfold decimal. cbn [Z.leb Z.compare]. change (10 ^ 0) with 1.
    now rewrite Z.mul_1_r.
  - rewrite parse_unsigned_decimal by (assumption || discriminate).
    unfold decimal.
    assert (L : 0 < strlen (String a s)) by (unfold strlen; cbn; lia).
    replace (0 <=? - strlen (String a s)) with false
      by (symmetry; apply Z.leb_gt; lia).
    now rewrite Z.opp_involutive.
Qed.

(** A quotient between [2^-1074] and [2^1023] is read as a finite number
    greater than zero. *)
Lemma positive_finite_quotient (n d : Z) :
  0 < n -> 0 < d -> d <= n * 2 ^ 1074 -> n < d * 2 ^ 1023 ->
  positive_finite (binary64 n d) = true.
Proof.
  intros Hn Hd Hlo Hhi.
  destruct (binary64_finite n d ltac:(lia) Hd Hhi) as (m & e & -> & Hm & He & HS).
  pose proof (nearest_pos n d Hn Hd Hlo) as Hpos.
  rewrite <- HS in Hpos. unfold scaled_value in Hpos.
  assert (0 < 2 ^ (e + 1074)) by (apply Z.pow_pos_nonneg; lia).
  cbn [positive_finite]. apply Z.ltb_lt. nia.
Qed.

(** The value of a numeral with at most 18 decimals that fits 511 bits
    in wei is in that range. *)
Lemma numeral_in_range (n L : Z) :
  0 < n -> 0 <= L <= 18 -> n * 10 ^ (18 - L) < 2 ^ 511 ->
  10 ^ L <= n * 2 ^ 1074 /\ n < 10 ^ L * 2 ^ 1023.
Proof.
  intros Hn HL Hmax.
  assert (Hd : 0 < 10 ^ L) by (apply Z.pow_pos_nonneg; lia).
  assert (H18 : 0 < 10 ^ (18 - L)) by (apply Z.pow_pos_nonneg; lia).
  assert (10 ^ L <= 10 ^ 18) by (apply Z.pow_le_mono_r; lia).
  assert (10 ^ 18 <= 2 ^ 1074) by (vm_compute; discriminate).
  split; [nia |].
  assert (n <= n * 10 ^ (18 - L)) by nia.
  assert (2 ^ 511 <= 10 ^ L * 2 ^ 1023) by nia. lia.
Qed.

(** X10: the two checks of the amount agree on decimal numerals.  For a
    string of digits, optionally followed by a dot and at most 18 digits,
    whose value in wei is below [2^511], the parser of the estimator
    reads exactly that value, and the validator of the command accepts
    the string exactly when the value is not zero: every such amount but
    zero passes both, and zero is refused by the validator although the
    estimator would take it. *)
Theorem value_validators_agree (ip fp : string) :
  ip <> "" ->
  forallb_str is_digit ip = true ->
  forallb_str is_digit fp = true ->
  strlen fp <= 18 ->
  digits_value (ip ++ fp) * 10 ^ (18 - strlen fp) < 2 ^ 511 ->
  Ethers.parseEther (decimal_numeral ip fp)
  = Ok (digits_value (ip ++ fp) * 10 ^ (18 - strlen fp))
  /\ Utils.isPositiveNumber (VString (decimal_numeral ip fp))
     = (0 <? digits_value (ip ++ fp)).
Proof.
  intros Hne Dip Dfp HL Hmax. split.
  - exact (parseEther_signed false ip fp Hne Dip Dfp HL Hmax).
  - rewrite isPositiveNumber_parse. cbn [parseFloat_value].
    rewrite parseFloat_decimal_numeral by assumption.
    assert (Dall : forallb_str is_digit (ip ++ fp) = true)
      by (now rewrite forallb_str_append, Dip, Dfp).
    pose proof (digits_value_nonneg _ Dall) as Hn.
    pose proof (strlen_nonneg fp) as HL0.
    destruct (Z.eq_dec (digits_value (ip ++ fp)) 0) as [-> | Hnz];
      [reflexivity |].
    destruct (numeral_in_range (digits_value (ip ++ fp)) (strlen fp))
      as [Hlo Hhi]; try lia.
    assert (Hd : 0 < 10 ^ strlen fp) by (apply Z.pow_pos_nonneg; lia).
    rewrite positive_finite_quotient by lia.
    symmetry. apply Z.ltb_lt. lia.
Qed.

Lemma value_validators_agree_witness :
  Ethers.parseEther (decimal_numeral "0" "1")
  = Ok (digits_value ("0" ++ "1") * 10 ^ (18 - strlen "1"))
  /\ Utils.isPositiveNumber (VString (decimal_numeral "0" "1"))
     = (0 <? digits_value ("0" ++ "1")).
Proof.
  apply (value_validators_agree "0" "1");
    [ discriminate | reflexivity | reflexivity | vm_compute; discriminate
    | vm_compute; reflexivity ].
Defined.

(** ** What the fee estimator refuses *)

Lemma match_recipient_spec (s : string) :
  Estimator.match_recipient s = true
  <-> exists h, s = "0x" ++ h /\ hex_digits_40 h.
Proof.
  unfold Estimator.match_recipient. rewrite andb_true_iff, hex40_spec. split.
  - intros (Hp & Hh). exists (drop 2 s). split; [| exact Hh].
    now apply prefix_2.
  - intros (h & -> & Hh). split; [apply prefix_2_append | exact Hh].
Qed.

Lemma estimate_rejects_recipient
  (JsonRpcProvider : value -> Estimator.Provider)
  (to valueEth : string) (rpcUrl : value) :
  Estimator.match_recipient to = false ->
  Estimator.estimateEthTransfer JsonRpcProvider (VString to) valueEth rpcUrl
  = Throw (Error "Invalid recipient address").
Proof.
  intros H. unfold Estimator.estimateEthTransfer, Estimator.estimate.
  rewrite H. destruct (String.eqb to ""); reflexivity.
Qed.

(** X11: a recipient that is not the string [0x] followed by exactly
    forty hexadecimal digits (a value that is not a string and the empty
    string included) makes the estimator fail with "Invalid recipient
    address", whatever the amount, the URL and the node: the failure does
    not depend on any answer of the network, and the handler of the
    function leaves the message alone. *)
Theorem estimateEthTransfer_bad_recipient
  (JsonRpcProvider : value -> Estimator.Provider)
  (to : value) (valueEth : string) (rpcUrl : value) :
  (forall h, to = VString ("0x" ++ h) -> ~ hex_digits_40 h) ->
  Estimator.estimateEthTransfer JsonRpcProvider to valueEth rpcUrl
  = Throw (Error "Invalid recipient address").
Proof.
  intros H. destruct to as [| | b | x | z | s |]; try reflexivity.
  apply estimate_rejects_recipient.
  destruct (Estimator.match_recipient s) eqn:Hm; [| reflexivity].
  apply match_recipient_spec in Hm. destruct Hm as (h & -> & Hh).
  now destruct (H h eq_refl).
Qed.

Lemma estimateEthTransfer_bad_recipient_witness :
  Estimator.estimateEthTransfer sample_node
    (VString "d8dA6BF26964aF9D7eEd9e03E53415D37aA96045") "0.1"
    (VString "https://mainnet.base.org")
  = Throw (Error "Invalid recipient address").
Proof.
  apply (estimateEthTransfer_bad_recipient sample_node
           (VString "d8dA6BF26964aF9D7eEd9e03E53415D37aA96045")).
  intros h E. discriminate E.
Defined.

Lemma forallb_str_weaken (p q : ascii -> bool) (s : string) :
  (forall c, p c = true -> q c = true) ->
  forallb_str p s = true -> forallb_str q s = true.
Proof.
  intros Hpq. induction s as [| c r IH]; [reflexivity |].
  cbn. intros H. apply andb_prop in H. destruct H as [Hc Hr].
  now rewrite (Hpq _ Hc), IH.
Qed.

Lemma digits_plain (s : string) :
  forallb_str is_digit s = true -> forallb_str plain_decimal_char s = true.
Proof.
  apply forallb_str_weaken. intros c H. unfold plain_decimal_char. now rewrite H.
Qed.

(** A string the pattern of the unit parser matches is made of digits,
    dots and minus signs. *)
Lemma match_fixed_plain (s : string) (x : bool * string * string) :
  Ethers.match_fixed s = Some x -> forallb_str plain_decimal_char s = true.
Proof.
  unfold Ethers.match_fixed.
  set (p := match s with
            | String c r => if Ascii.eqb c "-"%char then (true, r) else (false, s)
            | EmptyString => (false, s)
            end).
  assert (Hs : forallb_str plain_decimal_char (snd p) = true ->
               forallb_str plain_decimal_char s = true).
  { subst p. destruct s as [| c r]; [auto |].
    destruct (Ascii.eqb c "-"%char) eqn:Hc; [| auto].
    cbn [forallb_str snd]. unfold plain_decimal_char at 2. rewrite Hc.
    rewrite !orb_true_r. auto. }
  destruct p as [neg s1]. cbn [snd] in Hs.
  destruct (span_digits_spec s1) as (E1 & D1 & _).
  destruct (span_digits s1) as [whole s2]. cbn [fst snd] in *.
  set (s3 := match s2 with
             | String c r => if is_dot c then r else s2
             | EmptyString => s2
             end).
  assert (H2 : forallb_str plain_decimal_char s3 = true ->
               forallb_str plain_decimal_char s2 = true).
  { subst s3. destruct s2 as [| c r]; [auto |].
    destruct (is_dot c) eqn:Hc; [| auto].
    cbn [forallb_str]. unfold plain_decimal_char at 2. rewrite Hc, orb_true_r. auto. }
  destruct (span_digits_spec s3) as (E3 & D3 & _).
  destruct (span_digits s3) as [frac s4]. cbn [fst snd] in *.
  destruct s4; [| discriminate]. intros _.
  apply Hs. rewrite E1, forallb_str_append, (digits_plain _ D1). cbn [andb].
  apply H2. rewrite E3, forallb_str_append, (digits_plain _ D3). reflexivity.
Qed.

Lemma parseEther_plain (s : string) (w : Z) :
  Ethers.parseEther s = Ok w -> forallb_str plain_decimal_char s = true.
Proof.
  unfold Ethers.parseEther, Ethers.parseUnits.
  destruct (Ethers.match_fixed s) as [x |] eqn:Hm; [| discriminate].
  intros _. exact (match_fixed_plain _ _ Hm).
Qed.

Lemma estimate_rejects_value
  (JsonRpcProvider : value -> Estimator.Provider)
  (to valueEth : string) (rpcUrl : value) (e : error) :
  Estimator.match_recipient to = true ->
  Ethers.parseEther valueEth = Throw e ->
  Estimator.estimateEthTransfer JsonRpcProvider (VString to) valueEth rpcUrl
  = Throw (Error "Invalid ETH value").
Proof.
  intros Hto Hp. unfold Estimator.estimateEthTransfer, Estimator.estimate.
  now rewrite (match_recipient_nonempty _ Hto), Hto, Hp.
Qed.

(** X12: for a well-formed recipient, an amount with a character that is
    not a digit, a dot or a minus sign (exponent notation, a plus sign, a
    space, a unit) makes the estimator fail with "Invalid ETH value",
    whatever the node: the failure of the unit parser is replaced by that
    message, and the handler of the function leaves it alone. *)
Theorem estimateEthTransfer_bad_value
  (JsonRpcProvider : value -> Estimator.Provider)
  (to valueEth : string) (rpcUrl : value) :
  Estimator.match_recipient to = true ->
  forallb_str plain_decimal_char valueEth = false ->
  Estimator.estimateEthTransfer JsonRpcProvider (VString to) valueEth rpcUrl
  = Throw (Error "Invalid ETH value").
Proof.
  intros Hto Hv.
  destruct (Ethers.parseEther valueEth) as [w | e] eqn:Hp.
  - apply parseEther_plain in Hp. congruence.
  - exact (estimate_rejects_value JsonRpcProvider to valueEth rpcUrl e Hto Hp).
Qed.

Lemma estimateEthTransfer_bad_value_witness :
  Estimator.estimateEthTransfer sample_node
    (VString "0xd8dA6BF26964aF9D7eEd9e03E53415D37aA96045") "1e-3"
    (VString "https://mainnet.base.org")
  = Throw (Error "Invalid ETH value").
Proof.
  apply (estimateEthTransfer_bad_value sample_node
           "0xd8dA6BF26964aF9D7eEd9e03E53415D37aA96045" "1e-3");
    reflexivity.
Defined.

(** X13: for a well-formed recipient, a minus sign before a decimal
    numeral with at most 18 decimals and a value other than zero makes
    the estimator fail with "ETH value cannot be negative", whatever the
    node. *)
Theorem estimateEthTransfer_negative_value
  (JsonRpcProvider : value -> Estimator.Provider)
  (to ip fp : string) (rpcUrl : value) :
  Estimator.match_recipient to = true ->
  ip <> "" ->
  forallb_str is_digit ip = true ->
  forallb_str is_digit fp = true ->
  strlen fp <= 18 ->
  0 < digits_value (ip ++ fp) ->
  digits_value (ip ++ fp) * 10 ^ (18 - strlen fp) < 2 ^ 511 ->
  Estimator.estimateEthTransfer JsonRpcProvider (VString to)
    ("-" ++ decimal_numeral ip fp) rpcUrl
  = Throw (Error "ETH value cannot be negative").
Proof.
  intros Hto Hne Dip Dfp HL Hpos Hmax.
  unfold Estimator.estimateEthTransfer, Estimator.estimate.
  rewrite (match_recipient_nonempty _ Hto), Hto. cbn [negb].
  rewrite (parseEther_signed true ip fp Hne Dip Dfp HL Hmax).
  assert (H18 : 0 < 10 ^ (18 - strlen fp)) by (apply Z.pow_pos_nonneg; lia).
  replace (- (digits_value (ip ++ fp) * 10 ^ (18 - strlen fp)) <? 0) with true
    by (symmetry; apply Z.ltb_lt; nia).
  reflexivity.
Qed.

Lemma estimateEthTransfer_negative_value_witness :
  Estimator.estimateEthTransfer sample_node
    (VString "0xd8dA6BF26964aF9D7eEd9e03E53415D37aA96045")
    ("-" ++ decimal_numeral "0" "1") (VString "https://mainnet.base.org")
  = Throw (Error "ETH value cannot be negative").
Proof.
  apply (estimateEthTransfer_negative_value sample_node
           "0xd8dA6BF26964aF9D7eEd9e03E53415D37aA96045" "0" "1");
    [ reflexivity | discriminate | reflexivity | reflexivity
    | vm_compute; discriminate | vm_compute; reflexivity
    | vm_compute; reflexivity ].
Defined.

(** ** The gas price of an estimate *)

(** X14: the price an estimate is made at.  In every result of the
    estimator the gas price is not zero; it is the [maxFeePerGas] of the
    fee data whenever the node reports one other than zero, and the
    [gasPrice] of the fee data when [maxFeePerGas] is missing or zero. *)
Theorem gas_price_preference
  (JsonRpcProvider : value -> Estimator.Provider)
  (to : value) (valueEth : string) (rpcUrl : value)
  (r : Estimator.EstimationResult) :
  Estimator.estimateEthTransfer JsonRpcProvider to valueEth rpcUrl = Ok r ->
  exists fee,
    Estimator.getFeeData (JsonRpcProvider rpcUrl) = Ok fee
    /\ Estimator.gasPriceWei r <> 0
    /\ (forall m, Estimator.maxFeePerGas fee = Some m -> m <> 0 ->
                  Estimator.gasPriceWei r = m)
    /\ (Estimator.maxFeePerGas fee = None \/ Estimator.maxFeePerGas fee = Some 0 ->
        Estimator.gasPrice fee = Some (Estimator.gasPriceWei r)).
Proof.
  intros H.
  destruct (estimate_ok _ _ _ _ _ H)
    as (to_s & weiValue & gasLimit & fee & _ & _ & Hfee & _ & Hp & Hnz & _ & _).
  exists fee. split; [exact Hfee |]. split; [exact Hnz |].
  unfold Estimator.or_else in Hp. split.
  - intros m Hm Hm0. rewrite Hm in Hp.
    replace (m =? 0) with false in Hp by (symmetry; now apply Z.eqb_neq).
    now injection Hp.
  - intros [Hm | Hm]; rewrite Hm in Hp; cbn in Hp; now symmetry.
Qed.

Lemma gas_price_preference_witness :
  exists fee,
    Estimator.getFeeData (sample_node (VString "https://mainnet.base.org")) = Ok fee
    /\ Estimator.gasPriceWei sample_result <> 0
    /\ (forall m, Estimator.maxFeePerGas fee = Some m -> m <> 0 ->
                  Estimator.gasPriceWei sample_result = m)
    /\ (Estimator.maxFeePerGas fee = None \/ Estimator.maxFeePerGas fee = Some 0 ->
        Estimator.gasPrice fee = Some (Estimator.gasPriceWei sample_result)).
Proof.
  apply (gas_price_preference sample_node
           (VString "0xd8dA6BF26964aF9D7eEd9e03E53415D37aA96045") "0.1"
           (VString "https://mainnet.base.org") sample_result).
  vm_compute. reflexivity.
Defined.

(** X15: when the node answers both calls but its fee data hold no usable
    gas price ([maxFeePerGas] and [gasPrice] each missing or zero), the
    estimator does not fail with the message it throws, "Unable to fetch
    gas price from network": that message contains the word "network",
    and the handler of the function replaces it by "Network connection
    failed. Please check your internet connection." *)
Theorem missing_gas_price_reported_as_network_failure
  (JsonRpcProvider : value -> Estimator.Provider)
  (to valueEth : string) (rpcUrl : value)
  (weiValue gasLimit : Z) (fee : Estimator.FeeData) :
  Estimator.match_recipient to = true ->
  Ethers.parseEther valueEth = Ok weiValue ->
  0 <= weiValue ->
  Estimator.getFeeData (JsonRpcProvider rpcUrl) = Ok fee ->
  Estimator.estimateGas (JsonRpcProvider rpcUrl)
    {| Estimator.tx_to := to; Estimator.tx_value := weiValue;
       Estimator.tx_data := "0x" |} = Ok gasLimit ->
  (Estimator.maxFeePerGas fee = None \/ Estimator.maxFeePerGas fee = Some 0) ->
  (Estimator.gasPrice fee = None \/ Estimator.gasPrice fee = Some 0) ->
  Estimator.estimateEthTransfer JsonRpcProvider (VString to) valueEth rpcUrl
  = Throw (Error "Network connection failed. Please check your internet connection.").
Proof.
  intros Hto Hparse Hpos Hfee Hgas Hmax Hprice.
  unfold Estimator.estimateEthTransfer, Estimator.estimate.
  rewrite (match_recipient_nonempty _ Hto), Hto, Hparse. cbn [negb].
  replace (weiValue <? 0) with false by (symmetry; apply Z.ltb_ge; exact Hpos).
  rewrite Hfee. cbn [bind]. rewrite Hgas. cbn [bind].
  destruct Hmax as [-> | ->], Hprice as [-> | ->]; reflexivity.
Qed.

Lemma missing_gas_price_reported_as_network_failure_witness :
  Estimator.estimateEthTransfer no_fee_node
    (VString "0xd8dA6BF26964aF9D7eEd9e03E53415D37aA96045") "0.1"
    (VString "https://mainnet.base.org")
  = Throw (Error "Network connection failed. Please check your internet connection.").
Proof.
  apply (missing_gas_price_reported_as_network_failure no_fee_node
           "0xd8dA6BF26964aF9D7eEd9e03E53415D37aA96045" "0.1"
           (VString "https://mainnet.base.org") (10 ^ 17) 21000
           {| Estimator.gasPrice := Some 0;
              Estimator.maxFeePerGas := None;
              Estimator.maxPriorityFeePerGas := None |});
    [ reflexivity | reflexivity | lia | reflexivity | reflexivity
    | left; reflexivity | right; reflexivity ].
Defined.

(** ** The result of the fee estimator *)

(** Once the node has answered with a gas price other than zero, the
    estimator returns what the two formatters give. *)
Lemma estimate_formats
  (JsonRpcProvider : value -> Estimator.Provider)
  (to valueEth : string) (rpcUrl : value)
  (weiValue gasLimit gasPrice : Z) (fee : Estimator.FeeData) :
  Estimator.match_recipient to = true ->
  Ethers.parseEther valueEth = Ok weiValue ->
  0 <= weiValue ->
  Estimator.getFeeData (JsonRpcProvider rpcUrl) = Ok fee ->
  Estimator.estimateGas (JsonRpcProvider rpcUrl)
    {| Estimator.tx_to := to; Estimator.tx_value := weiValue;
       Estimator.tx_data := "0x" |} = Ok gasLimit ->
  Estimator.or_else (Estimator.maxFeePerGas fee) (Estimator.gasPrice fee)
  = Some gasPrice ->
  gasPrice <> 0 ->
  Estimator.estimate JsonRpcProvider (VString to) valueEth rpcUrl
  = (gwei <- Utils.formatGweiFromWei gasPrice ;;
     totalText <- Utils.formatEthFromWei (gasLimit * gasPrice) ;;
     Ok {| Estimator.gasUnits := of_bigint gasLimit;
           Estimator.gasPriceWei := gasPrice;
           Estimator.totalWei := gasLimit * gasPrice;
           Estimator.gasText := gwei ++ " Gwei ("
                                ++ bigint_toString gasPrice ++ " wei)";
           Estimator.totalText := totalText |}).
Proof.
  intros Hto Hparse Hpos Hfee Hgas Hor Hnz. unfold Estimator.estimate.
  rewrite (match_recipient_nonempty _ Hto), Hto, Hparse. cbn [negb].
  replace (weiValue <? 0) with false by (symmetry; apply Z.ltb_ge; exact Hpos).
  rewrite Hfee. cbn [bind]. rewrite Hgas. cbn [bind]. rewrite Hor.
  replace (gasPrice =? 0) with false by (symmetry; apply Z.eqb_neq; exact Hnz).
  reflexivity.
Qed.

(** X16: the estimator succeeds, and with this result, whenever the
    recipient is well formed, the amount is read as a value that is not
    negative, the node answers both calls, the fee data give a gas price
    above zero and below [(10^21 - 65536) * 10^9] wei and the total is
    below [(10^21 - 65536) * 10^18] wei.  The result holds the gas
    estimate as a double, the gas price, their exact product, the gas
    price as text, in gwei with the decimals of its tier followed by the
    price in wei, and the total as text, in ether with the decimals of its
    tier. *)
Theorem estimateEthTransfer_succeeds
  (JsonRpcProvider : value -> Estimator.Provider)
  (to valueEth : string) (rpcUrl : value)
  (weiValue gasLimit gasPrice : Z) (fee : Estimator.FeeData) :
  Estimator.match_recipient to = true ->
  Ethers.parseEther valueEth = Ok weiValue ->
  0 <= weiValue ->
  Estimator.getFeeData (JsonRpcProvider rpcUrl) = Ok fee ->
  Estimator.estimateGas (JsonRpcProvider rpcUrl)
    {| Estimator.tx_to := to; Estimator.tx_value := weiValue;
       Estimator.tx_data := "0x" |} = Ok gasLimit ->
  Estimator.or_else (Estimator.maxFeePerGas fee) (Estimator.gasPrice fee)
  = Some gasPrice ->
  0 < gasPrice < fixed_limit * 10 ^ 9 ->
  0 <= gasLimit * gasPrice < fixed_limit * 10 ^ 18 ->
  Estimator.estimateEthTransfer JsonRpcProvider (VString to) valueEth rpcUrl
  = Ok {| Estimator.gasUnits := of_bigint gasLimit;
          Estimator.gasPriceWei := gasPrice;
          Estimator.totalWei := gasLimit * gasPrice;
          Estimator.gasText :=
            render_decimal (binary64 gasPrice (10 ^ 9))
              (if 10 ^ 12 <=? gasPrice then 0
               else if 10 ^ 9 <=? gasPrice then 3 else 6)
            ++ " Gwei (" ++ digits gasPrice ++ " wei)";
          Estimator.totalText :=
            render_decimal (binary64 (gasLimit * gasPrice) (10 ^ 18))
              (if 10 ^ 15 <=? gasLimit * gasPrice then 6 else 9) |}.
Proof.
  intros Hto Hparse Hpos Hfee Hgas Hor Hgp Htot.
  unfold Estimator.estimateEthTransfer.
  rewrite (estimate_formats JsonRpcProvider to valueEth rpcUrl
             weiValue gasLimit gasPrice fee) by (assumption || lia).
  rewrite formatGweiFromWei_tiers by lia. cbn [bind].
  rewrite formatEthFromWei_tiers by exact Htot. cbn [bind].
  unfold bigint_toString.
  replace (gasPrice <? 0) with false by (symmetry; apply Z.ltb_ge; lia).
  reflexivity.
Qed.

Lemma estimateEthTransfer_succeeds_witness :
  Estimator.estimateEthTransfer sample_node
    (VString "0xd8dA6BF26964aF9D7eEd9e03E53415D37aA96045") "0.1"
    (VString "https://mainnet.base.org")
  = Ok {| Estimator.gasUnits := of_bigint 21000;
          Estimator.gasPriceWei := 1897000;
          Estimator.totalWei := 21000 * 1897000;
          Estimator.gasText :=
            render_decimal (binary64 1897000 (10 ^ 9))
              (if 10 ^ 12 <=? 1897000 then 0
               else if 10 ^ 9 <=? 1897000 then 3 else 6)
            ++ " Gwei (" ++ digits 1897000 ++ " wei)";
          Estimator.totalText :=
            render_decimal (binary64 (21000 * 1897000) (10 ^ 18))
              (if 10 ^ 15 <=? 21000 * 1897000 then 6 else 9) |}.
Proof.
  apply (estimateEthTransfer_succeeds sample_node
           "0xd8dA6BF26964aF9D7eEd9e03E53415D37aA96045" "0.1"
           (VString "https://mainnet.base.org") (10 ^ 17) 21000 1897000
           {| Estimator.gasPrice := Some 1897000;
              Estimator.maxFeePerGas := Some 1897000;
              Estimator.maxPriorityFeePerGas := Some 1000 |});
    [ reflexivity | reflexivity | lia | reflexivity | reflexivity | reflexivity
    | vm_compute; split; reflexivity
    | vm_compute; split; [discriminate | reflexivity] ].
Defined.

(** ** When the command succeeds *)


(** X19: the list of networks the command accepts and the table of the
    configuration agree.  A network passes the check of the command
    exactly when [getNetworkConfig] finds an entry of the table for it,
    and then [getRpcUrl] returns the URL of that entry: after the check,
    the look-up does not fail and does not return [undefined]. *)
Theorem network_guard (network : string) :
  existsb (String.eqb network) Cli.validNetworks = true
  <-> exists config,
        Utils.getNetworkConfig network = Ok (Own config)
        /\ Utils.getRpcUrl network = Ok (VString (Utils.rpcUrl config)).
Proof.
  unfold Utils.getNetworkConfig, Utils.getRpcUrl, get_property.
  cbn [Utils.NETWORK_CONFIG own_property Cli.validNetworks existsb].
  rewrite (String.eqb_sym "base" network), (String.eqb_sym "base-sepolia" network).
  destruct (String.eqb network "base").
  { split; [eexists; split; reflexivity | reflexivity]. }
  destruct (String.eqb network "base-sepolia").
  { split; [eexists; split; reflexivity | reflexivity]. }
  cbn [orb]. split; [discriminate |].
  intros (c & H & _). destruct (existsb _ _); discriminate H.
Qed.

(** ** Inputs the command accepts and the estimator refuses *)

Lemma valid_prefixed_address_matches (to : string) :
  Utils.isValidAddress (VString to) = true ->
  String.prefix "0x" to = true ->
  Estimator.match_recipient to = true.
Proof.
  intros Hv Hp. apply prefix_2 in Hp.
  change (String "0" (String "x" (drop 2 to))) with ("0x" ++ drop 2 to) in Hp.
  rewrite Hp in Hv. apply isValidAddress_prefixed in Hv.
  apply match_recipient_spec. exists (drop 2 to). split; [exact Hp | apply Hv].
Qed.

(** X20: an address the validator of the command accepts although it
    does not start with [0x] (forty hexadecimal digits without the
    prefix, an ICAP address) is refused by the estimator.  With a valid
    amount and network, and a price that was fetched, the command then
    exits with code 1 and the single line "Error: Invalid recipient
    address", without the hint the validator prints. *)
Theorem handleTransfer_address_disagreement
  (host : Cli.Host) (options : Cli.Options) (ethPrice : Number) :
  Utils.isValidAddress (VString (Cli.to options)) = true ->
  String.prefix "0x" (Cli.to options) = false ->
  Utils.isPositiveNumber (VString (Cli.value options)) = true ->
  existsb (String.eqb (Cli.network options)) Cli.validNetworks = true ->
  Price.getEthUsdPrice (Cli.http_get host) = Ok ethPrice ->
  Cli.handleTransfer host options
  = {| Cli.stdout := [];
       Cli.stderr := ["Error: Invalid recipient address"];
       Cli.exitCode := 1 |}.
Proof.
  intros Hto Hpre Hval Hnet Hprice.
  rewrite handleTransfer_settled by assumption.
  destruct (valid_network_rpcUrl options Hnet) as (url & ->). cbn [bind].
  rewrite Hprice, estimate_rejects_recipient; [reflexivity |].
  unfold Estimator.match_recipient. now rewrite Hpre.
Qed.

Lemma handleTransfer_address_disagreement_witness :
  Cli.handleTransfer sample_host
    {| Cli.to := "d8dA6BF26964aF9D7eEd9e03E53415D37aA96045";
       Cli.value := "0.1"; Cli.network := "base" |}
  = {| Cli.stdout := [];
       Cli.stderr := ["Error: Invalid recipient address"];
       Cli.exitCode := 1 |}.
Proof.
  apply (handleTransfer_address_disagreement sample_host
           {| Cli.to := "d8dA6BF26964aF9D7eEd9e03E53415D37aA96045";
              Cli.value := "0.1"; Cli.network := "base" |}
           (decimal 345025 (-2)));
    vm_compute; reflexivity.
Defined.

(** X21: an amount the validator of the command accepts although it has
    a character that is not a digit, a dot or a minus sign (such as
    [1e-3], which [parseFloat] reads as a positive number) is refused by
    the estimator.  With a valid address that starts with [0x], a valid
    network and a price that was fetched, the command then exits with
    code 1 and the single line "Error: Invalid ETH value". *)
Theorem handleTransfer_value_disagreement
  (host : Cli.Host) (options : Cli.Options) (ethPrice : Number) :
  Utils.isValidAddress (VString (Cli.to options)) = true ->
  String.prefix "0x" (Cli.to options) = true ->
  Utils.isPositiveNumber (VString (Cli.value options)) = true ->
  forallb_str plain_decimal_char (Cli.value options) = false ->
  existsb (String.eqb (Cli.network options)) Cli.validNetworks = true ->
  Price.getEthUsdPrice (Cli.http_get host) = Ok ethPrice ->
  Cli.handleTransfer host options
  = {| Cli.stdout := [];
       Cli.stderr := ["Error: Invalid ETH value"];
       Cli.exitCode := 1 |}.
Proof.
  intros Hto Hpre Hval Hplain Hnet Hprice.
  rewrite handleTransfer_settled by assumption.
  destruct (valid_network_rpcUrl options Hnet) as (url & ->). cbn [bind].
  destruct (Ethers.parseEther (Cli.value options)) as [w | e] eqn:Hp.
  - apply parseEther_plain in Hp. congruence.
  - rewrite Hprice, (estimate_rejects_value _ _ _ _ e); [reflexivity | | exact Hp].
    now apply valid_prefixed_address_matches.
Qed.

Lemma handleTransfer_value_disagreement_witness :
  Cli.handleTransfer sample_host
    {| Cli.to := "0xd8dA6BF26964aF9D7eEd9e03E53415D37aA96045";
       Cli.value := "1e-3"; Cli.network := "base" |}
  = {| Cli.stdout := [];
       Cli.stderr := ["Error: Invalid ETH value"];
       Cli.exitCode := 1 |}.
Proof.
  apply (handleTransfer_value_disagreement sample_host
           {| Cli.to := "0xd8dA6BF26964aF9D7eEd9e03E53415D37aA96045";
              Cli.value := "1e-3"; Cli.network := "base" |}
           (decimal 345025 (-2)));
    vm_compute; reflexivity.
Defined.

(** ** The command on the inputs it is meant for *)



(** The lines of that run. *)
Example handleTransfer_sample_output :
  Cli.handleTransfer sample_host sample_options
  = {| Cli.stdout := [ "Gas Units: 21,000";
                       "Gas Price: 0.001897 Gwei (1897000 wei)";
                       "Total Cost: 0.00000004 ETH (~0.000138 USDC)" ];
       Cli.stderr := [];
       Cli.exitCode := 0 |}.
Proof. vm_compute. reflexivity. Qed.

(** ** The validator of amounts and the text after a numeral *)

Lemma ends_literal_cases (rest : string) :
  ends_literal rest = true ->
  starts_with_digit rest = false
  /\ parse_exponent rest = 0
  /\ match rest with
     | String c _ => is_dot c = false
     | EmptyString => True
     end.
Proof.
  destruct rest as [| c r]; [repeat split |].
  cbn [ends_literal starts_with_digit parse_exponent]. intros H.
  apply negb_true_iff in H.
  apply orb_false_iff in H as [H HE]. apply orb_false_iff in H as [H He].
  apply orb_false_iff in H as [Hd Hdot].
  rewrite He, HE. cbn [orb]. repeat split; assumption.
Qed.

(** [parseFloat] reads the numeral at the start of a string and ignores
    the text after it. *)
Lemma parseFloat_numeral_prefix (ip fp rest : string) :
  ip <> "" ->
  forallb_str is_digit ip = true ->
  forallb_str is_digit fp = true ->
  ends_literal rest = true ->
  parseFloat (decimal_numeral ip fp ++ rest)
  = binary64 (digits_value (ip ++ fp)) (10 ^ strlen fp).
Proof.
  intros Hne Dip Dfp Hrest.
  destruct (ends_literal_cases rest Hrest) as (Hnd & Hexp & Hdot).
  rewrite parseFloat_starts_with_digit.
  2:{ destruct ip as [| c r]; [congruence |]. cbn in *. now apply andb_prop in Dip. }
  unfold parse_unsigned, decimal_numeral.
  assert (Hinf : forall t, String.prefix "Infinity" (ip ++ t) = false).
  { intros t. destruct ip as [| c r]; [congruence |].
    cbn [append]. apply prefix_Infinity_digit.
    cbn in Dip. now apply andb_prop in Dip. }
  rewrite append_assoc, Hinf.
  destruct fp as [| a s].
  - cbn [append]. rewrite (span_digits_append _ _ Dip Hnd).
    rewrite append_nil_r.
    assert (E : (let '(fp, r2) :=
                   match rest with
                   | String c r =>
                       if is_dot c
                       then let '(fp, r2) := span_digits r in
                            match ip, fp with
                            | EmptyString, EmptyString => ("", rest)
                            | _, _ => (fp, r2)
                            end
                       else ("", rest)
                   | EmptyString => ("", rest)
                   end in
                 match ip, fp with
                 | EmptyString, EmptyString => NaN
                 | _, _ => decimal (digits_value (ip ++ fp))
                             (parse_exponent r2 - strlen fp)
                 end)
                = decimal (digits_value ip) 0).
    { destruct rest as [| c r].
      - destruct ip; [congruence |]. now rewrite append_nil_r.
      - rewrite Hdot. destruct ip; [congruence |].
        rewrite append_nil_r, Hexp. reflexivity. }
    rewrite E. unfold decimal. cbn [Z.leb Z.compare]. change (10 ^ 0) with 1.
    now rewrite Z.mul_1_r.
  - change ("." ++ String a s) with (String "."%char (String a s)).
    cbn [append].
    change (String "." (String a (s ++ rest)))
      with (String "."%char (String a s ++ rest)).
    rewrite (span_digits_append ip _ Dip) by reflexivity.
    unfold is_dot at 1. rewrite Ascii.eqb_refl.
    rewrite (span_digits_append _ _ Dfp Hnd).
    destruct ip; [congruence |]. rewrite Hexp.
    unfold decimal.
    assert (L : 0 < strlen (String a s)) by (unfold strlen; cbn; lia).
    replace (0 <=? 0 - strlen (String a s)) with false
      by (symmetry; apply Z.leb_gt; lia).
    replace (- (0 - strlen (String a s))) with (strlen (String a s)) by lia.
    reflexivity.
Qed.

(** C8 (as the code has it): the validator accepts text that is not a
    number.  A decimal numeral of a value other than zero (digits, and
    optionally a dot and at most 18 digits, below [2^511] wei) followed by
    any text that does not continue the literal is accepted:
    [parseFloat] reads the numeral and ignores the rest.  So "12abc",
    "1.5xyz" and "1,000" are accepted, which the parser of the estimator
    refuses. *)
Theorem isPositiveNumber_trailing_text (ip fp rest : string) :
  ip <> "" ->
  forallb_str is_digit ip = true ->
  forallb_str is_digit fp = true ->
  strlen fp <= 18 ->
  0 < digits_value (ip ++ fp) ->
  digits_value (ip ++ fp) * 10 ^ (18 - strlen fp) < 2 ^ 511 ->
  ends_literal rest = true ->
  Utils.isPositiveNumber (VString (decimal_numeral ip fp ++ rest)) = true.
Proof.
  intros Hne Dip Dfp HL Hpos Hmax Hrest.
  rewrite isPositiveNumber_parse. cbn [parseFloat_value].
  rewrite parseFloat_numeral_prefix by assumption.
  pose proof (strlen_nonneg fp) as HL0.
  destruct (numeral_in_range (digits_value (ip ++ fp)) (strlen fp))
    as [Hlo Hhi]; try lia.
  assert (Hd : 0 < 10 ^ strlen fp) by (apply Z.pow_pos_nonneg; lia).
  apply positive_finite_quotient; lia.
Qed.

Lemma isPositiveNumber_trailing_text_witness :
  Utils.isPositiveNumber (VString (decimal_numeral "12" "" ++ "abc")) = true.
Proof.
  apply (isPositiveNumber_trailing_text "12" "" "abc");
    [ discriminate | reflexivity | reflexivity | vm_compute; discriminate
    | vm_compute; reflexivity | vm_compute; reflexivity | reflexivity ].
Defined.

Example isPositiveNumber_accepts_text :
  Utils.isPositiveNumber (VString "12abc") = true
  /\ Utils.isPositiveNumber (VString "1.5xyz") = true
  /\ Utils.isPositiveNumber (VString "1,000") = true
  /\ Ethers.parseEther "12abc"
     = Throw (Ethers.INVALID_ARGUMENT "invalid FixedNumber string value")
  /\ Ethers.parseEther "1,000"
     = Throw (Ethers.INVALID_ARGUMENT "invalid FixedNumber string value").
Proof.
  repeat match goal with |- _ /\ _ => split end; vm_compute; reflexivity.
Qed.

(** ** The gas estimate in the format of the locale *)

Example toLocaleString_en_US_examples :
  toLocaleString_en_US (of_bigint 21000) = "21,000"
  /\ toLocaleString_en_US (of_bigint 0) = "0"
  /\ toLocaleString_en_US (of_bigint 999) = "999"
  /\ toLocaleString_en_US (of_bigint 1234567) = "1,234,567"
  /\ toLocaleString_en_US (of_bigint (- 1000)) = "-1,000"
  /\ toLocaleString_en_US (of_bigint (2 ^ 53 + 1)) = "9,007,199,254,740,992"
  /\ toLocaleString_en_US (of_bigint (2 ^ 64)) = "18,446,744,073,709,552,000".
Proof.
  repeat match goal with |- _ /\ _ => split end; vm_compute; reflexivity.
Qed.
